(** * Z2API (Go version): a shallow embedding of the request pipeline

    The development follows [main.go] of the Go proxy: the thinking
    transformer, the retrying upstream dispatcher, the streaming translator,
    the non-streaming aggregator, the chat handler's counters and the
    admission middleware.

    Go strings are byte sequences; they are modelled as [list ascii].  The
    functions of Go's [strings], [regexp] and [bufio] packages that the
    program calls are written out on byte lists; [encoding/json] is taken as
    a parameter of the functions that call it. *)

From Stdlib Require Import List Ascii String ZArith NArith Bool Lia Arith.
From Stdlib Require Import DecimalString.
From Stdlib Require DecimalZ DecimalPos.
Import ListNotations.

Set Implicit Arguments.

(** ** Byte strings *)

Definition bytes := list ascii.

(** A literal of the source, as bytes. *)
Definition bs (s : string) : bytes := list_ascii_of_string s.

Definition byteval (c : ascii) : N := N_of_ascii c.

Fixpoint bytes_eqb (a b : bytes) : bool :=
  match a, b with
  | [], [] => true
  | x :: a', y :: b' => Ascii.eqb x y && bytes_eqb a' b'
  | _, _ => false
  end.

Definition isEmpty (s : bytes) : bool :=
  match s with [] => true | _ => false end.

(** The character [\n]. *)
Definition LF : ascii := ascii_of_nat 10.
(** The character [\r]. *)
Definition CR : ascii := ascii_of_nat 13.
(** The double quote, for JSON texts. *)
Definition DQ : ascii := ascii_of_nat 34.

(** ** Package [strings] *)

(** [strings.HasPrefix(s, prefix)] *)
Fixpoint HasPrefix (s prefix : bytes) {struct prefix} : bool :=
  match prefix with
  | [] => true
  | p :: prefix' =>
      match s with
      | [] => false
      | c :: s' => Ascii.eqb c p && HasPrefix s' prefix'
      end
  end.

(** [strings.TrimPrefix(s, prefix)] *)
Definition TrimPrefix (s prefix : bytes) : bytes :=
  if HasPrefix s prefix then skipn (List.length prefix) s else s.

(** [strings.Contains(s, substr)] *)
Fixpoint Contains (s substr : bytes) : bool :=
  HasPrefix s substr ||
  match s with
  | [] => false
  | _ :: s' => Contains s' substr
  end.

(** [strings.Index(s, substr)]; [None] stands for -1. *)
Fixpoint Index (s substr : bytes) : option nat :=
  if HasPrefix s substr then Some 0
  else match s with
       | [] => None
       | _ :: s' => option_map S (Index s' substr)
       end.

(** [strings.LastIndex(s, substr)]; [None] stands for -1. *)
Fixpoint LastIndex (s substr : bytes) : option nat :=
  match s with
  | [] => if HasPrefix s substr then Some 0 else None
  | _ :: s' =>
      match LastIndex s' substr with
      | Some i => Some (S i)
      | None => if HasPrefix s substr then Some 0 else None
      end
  end.

(** Replacement of the successive, non-overlapping, leftmost matches of a
    pattern.  [matchLen s] is the length of the match that starts at the
    head of [s], if there is one; every pattern of the program matches at
    least one byte.  [skip] counts the bytes of the current match that are
    still to be dropped. *)
Fixpoint replaceMatches (matchLen : bytes -> option nat) (repl : bytes)
         (skip : nat) (s : bytes) : bytes :=
  match s with
  | [] => []
  | c :: t =>
      match skip with
      | S k => replaceMatches matchLen repl k t
      | O =>
          match matchLen s with
          | Some (S n) => repl ++ replaceMatches matchLen repl n t
          | _ => c :: replaceMatches matchLen repl 0 t
          end
      end
  end.

Definition literalMatch (old : bytes) (s : bytes) : option nat :=
  if HasPrefix s old then Some (List.length old) else None.

(** [strings.ReplaceAll(s, old, new)], for the non-empty [old] of every
    call in the program. *)
Definition ReplaceAll (s old new : bytes) : bytes :=
  replaceMatches (literalMatch old) new 0 s.

(** [unicode.IsSpace] on the bytes of a UTF-8 string.  The one-byte white
    space is [\t \n \v \f \r] and the space; U+0085 and U+00A0 take two
    bytes; U+1680, U+2000..U+200A, U+2028, U+2029, U+202F, U+205F and
    U+3000 take three. *)
Definition isSpace1 (c : ascii) : bool :=
  let n := byteval c in
  ((9 <=? n) && (n <=? 13) || (n =? 32))%N.

Definition isSpace2 (c1 c2 : ascii) : bool :=
  ((byteval c1 =? 194) && ((byteval c2 =? 133) || (byteval c2 =? 160)))%N.

Definition isSpace3 (c1 c2 c3 : ascii) : bool :=
  let a := byteval c1 in
  let b := byteval c2 in
  let c := byteval c3 in
  ((a =? 225) && (b =? 154) && (c =? 128)
   || (a =? 226) && (b =? 128)
      && ((128 <=? c) && (c <=? 138) || (c =? 168) || (c =? 169) || (c =? 175))
   || (a =? 226) && (b =? 129) && (c =? 159)
   || (a =? 227) && (b =? 128) && (c =? 128))%N.

(** Dropping the white space runes at the head of [s]; [sp2] and [sp3]
    recognise the encodings of two and three bytes in the order in which
    the bytes are met. *)
Fixpoint trimHead (sp2 : ascii -> ascii -> bool)
         (sp3 : ascii -> ascii -> ascii -> bool) (s : bytes) : bytes :=
  match s with
  | [] => []
  | c1 :: t1 =>
      if isSpace1 c1 then trimHead sp2 sp3 t1
      else
        match t1 with
        | [] => s
        | c2 :: t2 =>
            if sp2 c1 c2 then trimHead sp2 sp3 t2
            else
              match t2 with
              | [] => s
              | c3 :: t3 =>
                  if sp3 c1 c2 c3 then trimHead sp2 sp3 t3 else s
              end
        end
  end.

(** [strings.TrimLeftFunc(s, unicode.IsSpace)] *)
Definition trimLeft (s : bytes) : bytes := trimHead isSpace2 isSpace3 s.

(** The recognisers of white space met last byte first. *)
Definition isSpace2r (c2 c1 : ascii) : bool := isSpace2 c1 c2.
Definition isSpace3r (c3 c2 c1 : ascii) : bool := isSpace3 c1 c2 c3.

(** [strings.TrimRightFunc(s, unicode.IsSpace)]: the last rune is decoded
    from the end, so the encodings are met last byte first. *)
Definition trimRight (s : bytes) : bytes :=
  rev (trimHead isSpace2r isSpace3r (rev s)).

(** [strings.TrimSpace(s)] *)
Definition TrimSpace (s : bytes) : bytes := trimRight (trimLeft s).

(** ** Package [regexp], for the three patterns of the program *)

(** A match of [(?s)<summary>.*?</summary>] at the head of [s]: the
    opening tag, then the shortest text up to a closing tag. *)
Definition summaryMatch (s : bytes) : option nat :=
  if HasPrefix s (bs "<summary>") then
    match Index (skipn 9 s) (bs "</summary>") with
    | Some k => Some (9 + k + 10)
    | None => None
    end
  else None.

(** A match of [<details[^>]*>] at the head of [s]: the tag name, then
    everything up to the first [>]. *)
Definition detailsMatch (s : bytes) : option nat :=
  if HasPrefix s (bs "<details") then
    match Index (skipn 8 s) (bs ">") with
    | Some k => Some (8 + k + 1)
    | None => None
    end
  else None.

(** [regexp.MustCompile(sep).Split(s, -1)] for a literal, non-empty [sep]:
    the pieces between the matches, the last one included.  [cur] holds the
    bytes of the current piece in reverse. *)
Fixpoint splitLoop (sep : bytes) (skip : nat) (cur : bytes) (s : bytes)
  : list bytes :=
  match s with
  | [] => [rev cur]
  | c :: t =>
      match skip with
      | S k => splitLoop sep k cur t
      | O =>
          if HasPrefix s sep
          then rev cur :: splitLoop sep (List.length sep - 1) [] t
          else splitLoop sep 0 (c :: cur) t
      end
  end.

Definition Split (sep s : bytes) : list bytes := splitLoop sep 0 [] s.

(** ** The thinking transformer *)

(** [transformThinking], with the global [thinkTagsMode] as a parameter. *)
Definition transformThinking (thinkTagsMode : bytes) (s : bytes) : bytes :=
  let s := replaceMatches summaryMatch [] 0 s in
  let s := ReplaceAll s (bs "</thinking>") [] in
  let s := ReplaceAll s (bs "<Full>") [] in
  let s := ReplaceAll s (bs "</Full>") [] in
  let s := TrimSpace s in
  let s :=
    if bytes_eqb thinkTagsMode (bs "think") then
      ReplaceAll (replaceMatches detailsMatch (bs "<think>") 0 s)
                 (bs "</details>") (bs "</think>")
    else if bytes_eqb thinkTagsMode (bs "strip") then
      ReplaceAll (replaceMatches detailsMatch [] 0 s) (bs "</details>") []
    else s in
  let s := TrimPrefix s (bs "> ") in
  let s := ReplaceAll s (LF :: bs "> ") [LF] in
  TrimSpace s.

(** ** Configuration

    The global variables that [init] and [getPerformanceConfig] set once
    from the environment.  Go's [int] is taken at 64 bits. *)

Record Config := {
  thinkTagsMode : bytes;
  maxRetries : Z;
  retryDelay : Z;
  requestTimeout : Z;
  streamTimeout : Z;
  randomDelayMin : Z;
  randomDelayMax : Z;
  streamBufferSize : Z;
  disableConnectionCheck : bool;
  connectionCheckInterval : Z;
  maxConcurrentConnections : Z;
  anonTokenEnabled : bool;
  defaultKey : bytes;
  upstreamToken : bytes;
  performanceMode : bytes
}.

Definition defaultModelName : bytes := bs "GLM-4.5".
Definition thinkingModelName : bytes := bs "GLM-4.5-Thinking".
Definition searchModelName : bytes := bs "GLM-4.5-Search".

(** Two's complement wrap-around of a 64-bit signed integer. *)
Definition wrap64 (z : Z) : Z :=
  ((z + 9223372036854775808) mod 18446744073709551616 - 9223372036854775808)%Z.

(** [fmt.Sprintf("%d", z)] *)
Definition fmtInt (z : Z) : bytes := bs (NilZero.string_of_int (Z.to_int z)).

(** ** Wire types *)

Record ChatMessage := {
  msg_Role : bytes;
  msg_Content : bytes;
  msg_ReasoningContent : bytes
}.

(** [OpenAIRequest]; [Temperature], a float that is only logged, is left
    out. *)
Record OpenAIRequest := {
  req_Model : bytes;
  req_Messages : list ChatMessage;
  req_Stream : option bool;
  req_MaxTokens : option Z
}.

Record ModelItem := {
  mi_ID : bytes;
  mi_Name : bytes;
  mi_OwnedBy : bytes
}.

(** [UpstreamRequest]; the maps are association lists ([Params] is always
    the empty map). *)
Record UpstreamRequest := {
  ur_Stream : bool;
  ur_Model : bytes;
  ur_Messages : list ChatMessage;
  ur_Features : list (bytes * bool);
  ur_BackgroundTasks : list (bytes * bool);
  ur_ChatID : bytes;
  ur_ID : bytes;
  ur_MCPServers : list bytes;
  ur_ModelItem : ModelItem;
  ur_ToolServers : list bytes;
  ur_Variables : list (bytes * bytes)
}.

Record Delta := {
  d_Role : bytes;
  d_Content : bytes;
  d_ReasoningContent : bytes
}.

Record Choice := {
  ch_Index : Z;
  ch_Message : ChatMessage;
  ch_Delta : Delta;
  ch_FinishReason : bytes
}.

Record Usage := {
  u_PromptTokens : Z;
  u_CompletionTokens : Z;
  u_TotalTokens : Z
}.

Record OpenAIResponse := {
  resp_ID : bytes;
  resp_Object : bytes;
  resp_Created : Z;
  resp_Model : bytes;
  resp_Choices : list Choice;
  resp_Usage : option Usage
}.

Record UpstreamError := {
  ue_Detail : bytes;
  ue_Code : Z
}.

(** The [Data] struct of [UpstreamData]; [Inner] is the pointer field with
    the JSON name [data], whose only field is an error pointer. *)
Record UpstreamInner := {
  in_Error : option UpstreamError
}.

Record UpstreamBody := {
  DeltaContent : bytes;
  EditContent : bytes;
  Phase : bytes;
  Done : bool;
  DataUsage : option Usage;
  DataError : option UpstreamError;
  Inner : option UpstreamInner
}.

Record UpstreamData := {
  ud_Type : bytes;
  ud_Data : UpstreamBody;
  ud_Error : option UpstreamError
}.

Definition emptyMessage : ChatMessage :=
  {| msg_Role := []; msg_Content := []; msg_ReasoningContent := [] |}.

Definition emptyDelta : Delta :=
  {| d_Role := []; d_Content := []; d_ReasoningContent := [] |}.

(** ** The client's side of a streaming response

    What the handler writes, in order.  A chunk is the frame
    [data: <json>\n\n]; [ThinkChunk] is the same frame written by
    [sendThinkContentSafe] through [sendDataSafe]; [DoneLine] is the
    terminal line [data: [DONE]\n\n].  The JSON of a chunk is one line
    that ends with a brace ([json.Marshal] escapes the newlines of a
    string), so the bytes of the terminal line occur in the stream exactly
    where a [DoneLine] is written.  A write that fails on a dead
    connection is recorded all the same: the program ignores the error.
    The calls of [Flush] write nothing and are left out. *)
Inductive Write :=
| SSEChunk (c : OpenAIResponse)
| ThinkChunk (c : OpenAIResponse)
| DoneLine.

(** The state of one translation: the four flags that [handleStreamResponse]
    passes by pointer, the number of clock readings so far and the writes
    so far. *)
Record TState := {
  isInThinkBlock : bool;
  bufferedThinkContent : bytes;
  streamClosed : bool;
  sentInitialAnswer : bool;
  ticks : nat;
  written : list Write
}.

Inductive ReadError := EOF | ReadFailed.

(** One call of [resp.Body.Read(buffer)]: the bytes read, at most
    [streamBufferSize] of them, and the error.  Once the list of results
    is used up, [Read] returns no byte and [io.EOF]. *)
Record ReadResult := {
  rd_data : bytes;
  rd_err : option ReadError
}.

Inductive LoopExit := Returned | Panicked.

Record StreamResult := {
  sr_status : Z;
  sr_exit : LoopExit;
  sr_state : TState
}.

Section Translator.

(** The configuration, [json.Unmarshal] into an [UpstreamData], the wall
    clock ([clock n] is the Unix time at the [n]-th reading) and the probe
    of the client connection ([alive k] is the result of
    [isConnectionAlive] when the counter of checks is [k]). *)
Variable cfg : Config.
Variable unmarshalUpstream : bytes -> option UpstreamData.
Variable clock : nat -> Z.
Variable alive : Z -> bool.

Definition write (w : Write) (st : TState) : TState :=
  {| isInThinkBlock := isInThinkBlock st;
     bufferedThinkContent := bufferedThinkContent st;
     streamClosed := streamClosed st;
     sentInitialAnswer := sentInitialAnswer st;
     ticks := ticks st;
     written := written st ++ [w] |}.

Definition setStreamClosed (st : TState) : TState :=
  {| isInThinkBlock := isInThinkBlock st;
     bufferedThinkContent := bufferedThinkContent st;
     streamClosed := true;
     sentInitialAnswer := sentInitialAnswer st;
     ticks := ticks st;
     written := written st |}.

Definition setSentInitialAnswer (st : TState) : TState :=
  {| isInThinkBlock := isInThinkBlock st;
     bufferedThinkContent := bufferedThinkContent st;
     streamClosed := streamClosed st;
     sentInitialAnswer := true;
     ticks := ticks st;
     written := written st |}.

(** A chunk as every site of the program builds it: [time.Now()] is read
    for the id and again for [Created]. *)
Definition newChunk (d : Delta) (finish : bytes) (st : TState)
  : OpenAIResponse * TState :=
  ({| resp_ID := bs "chatcmpl-" ++ fmtInt (clock (ticks st));
      resp_Object := bs "chat.completion.chunk";
      resp_Created := clock (S (ticks st));
      resp_Model := defaultModelName;
      resp_Choices := [ {| ch_Index := 0; ch_Message := emptyMessage;
                           ch_Delta := d; ch_FinishReason := finish |} ];
      resp_Usage := None |},
   {| isInThinkBlock := isInThinkBlock st;
      bufferedThinkContent := bufferedThinkContent st;
      streamClosed := streamClosed st;
      sentInitialAnswer := sentInitialAnswer st;
      ticks := S (S (ticks st));
      written := written st |}).

(** [writeSSEChunk] of a chunk built on the spot. *)
Definition emitChunk (d : Delta) (finish : bytes) (st : TState) : TState :=
  let (c, st1) := newChunk d finish st in write (SSEChunk c) st1.

(** [sendThinkContentSafe] *)
Definition sendThinkContentSafe (content : bytes) (st : TState) : TState :=
  let (c, st1) :=
    newChunk {| d_Role := [];
                d_Content := bs "<think>" ++ content ++ bs "</think>";
                d_ReasoningContent := [] |} [] st in
  write (ThinkChunk c) st1.

Definition hasUpstreamError (u : UpstreamData) : bool :=
  match ud_Error u, DataError (ud_Data u), Inner (ud_Data u) with
  | Some _, _, _ => true
  | None, Some _, _ => true
  | None, None, Some i => match in_Error i with Some _ => true | None => false end
  | None, None, None => false
  end.

(** The block that sends the text after the first [</details>] of the
    edit content of an answer event, once. *)
Definition spliceInitialAnswer (u : UpstreamData) (st : TState) : TState :=
  if negb (sentInitialAnswer st)
     && negb (isEmpty (EditContent (ud_Data u)))
     && bytes_eqb (Phase (ud_Data u)) (bs "answer")
  then
    match Split (bs "</details>") (EditContent (ud_Data u)) with
    | _ :: content :: _ =>
        if negb (isEmpty content)
        then setSentInitialAnswer
               (emitChunk {| d_Role := []; d_Content := content;
                             d_ReasoningContent := [] |} [] st)
        else st
    | _ => st
    end
  else st.

(** The block that sends the delta content of an event. *)
Definition emitDelta (u : UpstreamData) (st : TState) : TState :=
  let out := DeltaContent (ud_Data u) in
  if negb (isEmpty out) then
    if bytes_eqb (Phase (ud_Data u)) (bs "thinking") then
      let out := transformThinking (thinkTagsMode cfg) out in
      if negb (isEmpty out)
      then emitChunk {| d_Role := []; d_Content := [];
                        d_ReasoningContent := out |} [] st
      else st
    else
      emitChunk {| d_Role := []; d_Content := out;
                   d_ReasoningContent := [] |} [] st
  else st.

(** The block that ends the stream on a done flag or a done phase. *)
Definition finishOnDone (u : UpstreamData) (st : TState) : TState :=
  if Done (ud_Data u) || bytes_eqb (Phase (ud_Data u)) (bs "done")
  then setStreamClosed (write DoneLine (emitChunk emptyDelta (bs "stop") st))
  else st.

(** [processStreamLine] *)
Definition processStreamLine (line : bytes) (st : TState) : TState :=
  let line := TrimSpace line in
  if HasPrefix line (bs "data: ") then
    let jsonText := TrimSpace (skipn 6 line) in
    if bytes_eqb jsonText (bs "[DONE]") then
      let st1 :=
        if isInThinkBlock st && negb (isEmpty (bufferedThinkContent st))
        then sendThinkContentSafe (bufferedThinkContent st) st
        else st in
      setStreamClosed (write DoneLine st1)
    else if negb (isEmpty jsonText) then
      match unmarshalUpstream jsonText with
      | None => st
      | Some upstreamData =>
          if hasUpstreamError upstreamData then
            setStreamClosed
              (write DoneLine (emitChunk emptyDelta (bs "stop") st))
          else
            finishOnDone upstreamData
              (emitDelta upstreamData
                 (spliceInitialAnswer upstreamData st))
      end
    else st
  else st.

(** The inner loop of [handleStreamResponse]: the complete lines of the
    line buffer are processed in order; what is left of the buffer is
    returned.  [cur] holds the bytes of the current line in reverse. *)
Fixpoint drainLines (buf cur : bytes) (st : TState) : bytes * TState :=
  match buf with
  | [] => (rev cur, st)
  | c :: t =>
      if Ascii.eqb c LF then
        let st1 :=
          if streamClosed st then st else processStreamLine (rev cur) st in
        if streamClosed st1 then (t, st1) else drainLines t [] st1
      else drainLines t (c :: cur) st
  end.

(** The guard against a line buffer of more than 1 MiB. *)
Definition guardLineBuffer (lineBuffer : bytes) : bytes :=
  if (1048576 <? N.of_nat (List.length lineBuffer))%N then
    match LastIndex (firstn (List.length lineBuffer / 2) lineBuffer) [LF] with
    | Some idx =>
        if (0 <? idx)%nat then skipn (idx + 1) lineBuffer else lineBuffer
    | None => lineBuffer
    end
  else lineBuffer.

(** The outer loop of [handleStreamResponse], one iteration per call of
    [Read]. *)
Fixpoint streamLoop (reads : list ReadResult) (lineBuffer : bytes)
         (checkCounter : Z) (st : TState) : LoopExit * TState :=
  if streamClosed st then (Returned, st)
  else
    let checkCounter1 :=
      if disableConnectionCheck cfg then checkCounter
      else wrap64 (checkCounter + 1) in
    if negb (disableConnectionCheck cfg)
       && (connectionCheckInterval cfg =? 0)%Z
    then (Panicked, st)
    else if negb (disableConnectionCheck cfg)
            && (Z.rem checkCounter1 (connectionCheckInterval cfg) =? 0)%Z
            && negb (alive checkCounter1)
    then (Returned, st)
    else
      match reads with
      | [] =>
          (Returned,
           if negb (isEmpty lineBuffer) && negb (streamClosed st)
           then processStreamLine lineBuffer st else st)
      | r :: rest =>
          let (lineBuffer1, st1) :=
            if isEmpty (rd_data r) then (lineBuffer, st)
            else drainLines (guardLineBuffer (lineBuffer ++ rd_data r)) [] st in
          match rd_err r with
          | Some EOF =>
              (Returned,
               if negb (isEmpty lineBuffer1) && negb (streamClosed st1)
               then processStreamLine lineBuffer1 st1 else st1)
          | Some ReadFailed => (Returned, st1)
          | None => streamLoop rest lineBuffer1 checkCounter1 st1
          end
      end.

Definition initialState : TState :=
  {| isInThinkBlock := false;
     bufferedThinkContent := [];
     streamClosed := false;
     sentInitialAnswer := false;
     ticks := 0;
     written := [] |}.

Definition roleDelta : Delta :=
  {| d_Role := bs "assistant"; d_Content := []; d_ReasoningContent := [] |}.

(** [handleStreamResponse]; [flusher] tells whether the response writer is
    an [http.Flusher].  Without one the handler answers 500 and writes no
    frame. *)
Definition handleStreamResponse (flusher : bool) (reads : list ReadResult)
  : StreamResult :=
  if negb flusher then
    {| sr_status := 500; sr_exit := Returned; sr_state := initialState |}
  else
    let st0 := emitChunk roleDelta [] initialState in
    let (ex, st1) := streamLoop reads [] 0 st0 in
    match ex with
    | Panicked => {| sr_status := 200; sr_exit := Panicked; sr_state := st1 |}
    | Returned =>
        {| sr_status := 200; sr_exit := Returned;
           sr_state :=
             if isInThinkBlock st1 && negb (isEmpty (bufferedThinkContent st1))
             then sendThinkContentSafe (bufferedThinkContent st1) st1
             else st1 |}
    end.

End Translator.

(** ** The non-streaming aggregator *)

(** [bufio.MaxScanTokenSize] *)
Definition maxScanTokenSize : N := 65536.

(** [dropCR] of [bufio.ScanLines], on the reversed line. *)
Definition dropCR (cur : bytes) : bytes :=
  match cur with
  | c :: t => if Ascii.eqb c CR then t else cur
  | [] => []
  end.

(** The tokens of a [bufio.Scanner] with the default split function
    [ScanLines] and the default buffer over the bytes of the body.
    [cur] holds the current line in reverse and [n] is its length.  The
    buffer of the scanner grows to [maxScanTokenSize] bytes and no more:
    when it is full of one line that has not ended, [Scan] fails with
    [ErrTooLong] and the loop of the program ends.  (A last line of exactly
    65536 bytes that no newline ends is still returned when the reader
    reports the end of the body together with its last bytes; the model
    stops there too.) *)
Fixpoint scanLines (s cur : bytes) (n : N) : list bytes :=
  match s with
  | [] => if isEmpty cur then [] else [rev (dropCR cur)]
  | c :: t =>
      if Ascii.eqb c LF then rev (dropCR cur) :: scanLines t [] 0
      else if (maxScanTokenSize <=? n + 1)%N then []
      else scanLines t (c :: cur) (n + 1)
  end.

Section Aggregator.

Variable cfg : Config.
Variable unmarshalUpstream : bytes -> option UpstreamData.

(** The loop of [handleNonStreamResponse] over the lines of the body;
    [fullContent] is the [strings.Builder]. *)
Fixpoint collectContent (lines : list bytes) (fullContent : bytes) : bytes :=
  match lines with
  | [] => fullContent
  | line :: rest =>
      if negb (HasPrefix line (bs "data: ")) then collectContent rest fullContent
      else
        let dataStr := TrimPrefix line (bs "data: ") in
        if isEmpty dataStr || bytes_eqb dataStr (bs "[DONE]")
        then collectContent rest fullContent
        else
          match unmarshalUpstream dataStr with
          | None => collectContent rest fullContent
          | Some upstreamData =>
              let fullContent1 :=
                if negb (isEmpty (DeltaContent (ud_Data upstreamData))) then
                  let out :=
                    if bytes_eqb (Phase (ud_Data upstreamData)) (bs "thinking")
                    then transformThinking (thinkTagsMode cfg)
                           (DeltaContent (ud_Data upstreamData))
                    else DeltaContent (ud_Data upstreamData) in
                  if negb (isEmpty out) then fullContent ++ out
                  else fullContent
                else fullContent in
              if Done (ud_Data upstreamData)
                 || bytes_eqb (Phase (ud_Data upstreamData)) (bs "done")
              then fullContent1
              else collectContent rest fullContent1
          end
  end.

(** The response of [handleNonStreamResponse] for the bytes of the
    upstream body; [t1] and [t2] are the two readings of the clock. *)
Definition nonStreamResponse (body : bytes) (t1 t2 : Z) : OpenAIResponse :=
  {| resp_ID := bs "chatcmpl-" ++ fmtInt t1;
     resp_Object := bs "chat.completion";
     resp_Created := t2;
     resp_Model := defaultModelName;
     resp_Choices :=
       [ {| ch_Index := 0;
            ch_Message :=
              {| msg_Role := bs "assistant";
                 msg_Content := collectContent (scanLines body [] 0) [];
                 msg_ReasoningContent := [] |};
            ch_Delta := emptyDelta;
            ch_FinishReason := bs "stop" |} ];
     resp_Usage :=
       Some {| u_PromptTokens := 0; u_CompletionTokens := 0;
               u_TotalTokens := 0 |} |}.

End Aggregator.

(** ** The upstream dispatcher *)

(** [time.Duration(x) * time.Millisecond]: a number of nanoseconds. *)
Definition milliseconds (x : Z) : Z := wrap64 (x * 1000000).

Inductive AttemptOutcome :=
| RequestBuildFailed
| TransportFailed
| Responded (status : Z) (body : list ReadResult).

(** What the world decides at one turn of the loop of [requestWithRetry]:
    whether the context is done before the back-off sleep is over, the
    number that [mathrand.Intn(n)] draws (taken modulo [n]), the outcome of
    the request, and whether the context is done before the wait that
    follows a 429 or a 403 is over. *)
Record AttemptEnv := {
  backoffCancelled : bool;
  jitterDraw : Z;
  outcome : AttemptOutcome;
  waitCancelled : bool
}.

(** The sleeps and the requests of the dispatcher, in order, with the
    [time.Duration] of each sleep in nanoseconds (a sleep of a duration
    that is not positive returns at once). *)
Inductive RetryEvent :=
| Backoff (i : nat) (d : Z)
| Jitter (i : nat) (d : Z)
| Attempt (i : nat)
| RateWait (i : nat) (d : Z).

Inductive DispatchError :=
| ErrContext
| ErrBuild
| ErrTransport
| ErrHTTP (status : Z)
| ErrAllFailed.

Inductive DispatchResult :=
| Dispatched (body : list ReadResult)
| DispatchFailed (e : DispatchError)
| DispatchPanicked.

Section Dispatcher.

Variable cfg : Config.

(** The value of [int(f)] for a float [f] that is out of the range of
    [int], which Go leaves to the platform; and the 429 wait in
    milliseconds where its float computation is not exact (a negative
    [retryDelay], or a power of two that is infinite). *)
Variable intOfHugeFloat : Z.
Variable waitOutOfRange : Z -> Z -> Z.

Variable env : nat -> AttemptEnv.

(** [int(math.Pow(2, float64(i)))] *)
Definition pow2int (i : Z) : Z :=
  if (i <=? 62)%Z then (2 ^ i)%Z else intOfHugeFloat.

(** The delay before the turn [i > 0] of the loop. *)
Definition backoffDelay (i : Z) : Z :=
  milliseconds (wrap64 (retryDelay cfg * pow2int i)).

(** [math.Min(float64(retryDelay)*math.Pow(2, float64(i)), 10000)] as a
    duration. *)
Definition rateLimitWait (i : Z) : Z :=
  milliseconds
    (if (0 <=? retryDelay cfg)%Z && (i <? 1024)%Z
     then Z.min (retryDelay cfg * 2 ^ i) 10000
     else waitOutOfRange (retryDelay cfg) i).

(** [randomDelay]: the duration of its sleep if it sleeps, [None] if
    [mathrand.Intn] panics on an argument that is not positive. *)
Definition randomDelay (draw : Z) : option (option Z) :=
  if (randomDelayMin cfg <? randomDelayMax cfg)%Z then
    let n := wrap64 (randomDelayMax cfg - randomDelayMin cfg) in
    if (n <=? 0)%Z then None
    else Some (Some (milliseconds
                       (wrap64 (draw mod n + randomDelayMin cfg))))
  else Some None.

(** The loop of [requestWithRetry] from the turn [i], with [k] turns to
    go; [lastErr] is the error of the last failure, if any. *)
Fixpoint retryLoop (k : nat) (i : nat) (lastErr : option DispatchError)
  : list RetryEvent * DispatchResult :=
  match k with
  | O =>
      ([], DispatchFailed
             match lastErr with Some e => e | None => ErrAllFailed end)
  | S k' =>
      let e := env i in
      let pre := if (0 <? i)%nat
                 then [Backoff i (backoffDelay (Z.of_nat i))] else [] in
      if (0 <? i)%nat && backoffCancelled e
      then (pre, DispatchFailed ErrContext)
      else
        match randomDelay (jitterDraw e) with
        | None => (pre, DispatchPanicked)
        | Some j =>
            let pre1 :=
              pre ++ match j with Some d => [Jitter i d] | None => [] end in
            match outcome e with
            | RequestBuildFailed =>
                let (tr, r) := retryLoop k' (S i) (Some ErrBuild) in
                (pre1 ++ tr, r)
            | TransportFailed =>
                let (tr, r) := retryLoop k' (S i) (Some ErrTransport) in
                (pre1 ++ Attempt i :: tr, r)
            | Responded status body =>
                if (status =? 200)%Z
                then (pre1 ++ [Attempt i], Dispatched body)
                else if (status =? 429)%Z || (status =? 403)%Z then
                  let w := RateWait i (rateLimitWait (Z.of_nat i)) in
                  if waitCancelled e
                  then (pre1 ++ [Attempt i; w], DispatchFailed ErrContext)
                  else
                    let (tr, r) := retryLoop k' (S i) lastErr in
                    (pre1 ++ Attempt i :: w :: tr, r)
                else
                  let (tr, r) :=
                    retryLoop k' (S i) (Some (ErrHTTP status)) in
                  (pre1 ++ Attempt i :: tr, r)
            end
        end
  end.

(** [requestWithRetry]: the trace of sleeps and requests, and the
    result. *)
Definition requestWithRetry : list RetryEvent * DispatchResult :=
  retryLoop (Z.to_nat (maxRetries cfg)) 0 None.

End Dispatcher.

(** ** The chat handler *)

(** The three counters of the statistics; [atomic.AddInt64] wraps. *)
Record Counters := {
  requestCount : Z;
  totalResponseTime : Z;
  errorCount : Z
}.

Definition atomicAdd (x delta : Z) : Z := wrap64 (x + delta).

Definition addRequest (c : Counters) : Counters :=
  {| requestCount := atomicAdd (requestCount c) 1;
     totalResponseTime := totalResponseTime c;
     errorCount := errorCount c |}.

Definition addError (c : Counters) : Counters :=
  {| requestCount := requestCount c;
     totalResponseTime := totalResponseTime c;
     errorCount := atomicAdd (errorCount c) 1 |}.

Definition addResponseTime (ms : Z) (c : Counters) : Counters :=
  {| requestCount := requestCount c;
     totalResponseTime := atomicAdd (totalResponseTime c) ms;
     errorCount := errorCount c |}.

(** What the handler sees of the client's request: the result of
    [io.ReadAll(r.Body)] ([None] when it fails), the [Authorization]
    header, and whether the response writer is an [http.Flusher]. *)
Record ClientCall := {
  call_body : option bytes;
  call_Authorization : bytes;
  call_flusher : bool
}.

(** What the world decides during one call of the handler: the elapsed
    milliseconds at the place where the handler measures them, the clock
    readings that go into the ids, the result of [getAnonymousToken], the
    turns of the dispatcher, and the clock and the client connection during
    the response. *)
Record HandlerEnv := {
  henv_elapsed : Z;
  henv_unixNano : Z;
  henv_unix : Z;
  henv_msgNano : Z;
  henv_datetime : bytes;
  henv_anonToken : option bytes;
  henv_attempts : nat -> AttemptEnv;
  henv_clock : nat -> Z;
  henv_alive : Z -> bool
}.

Record ErrorResponse := {
  er_Error : bytes;
  er_Details : option DispatchError;
  er_RetryAfter : Z;
  er_PerformanceMode : bytes
}.

Inductive ResponseBody :=
| PlainError (text : bytes)
| ErrorJSON (e : ErrorResponse)
| Completion (r : OpenAIResponse)
| EventStream (writes : list Write).

(** The outcome of one call: the status ([None] when the handler panics
    before it answers), the body, the counters when the handler returns,
    and the upstream request with its token, once built. *)
Record HandlerResult := {
  hr_status : option Z;
  hr_body : ResponseBody;
  hr_counters : Counters;
  hr_upstream : option (UpstreamRequest * bytes);
  hr_timeout : Z
}.

Section Handler.

Variable cfg : Config.
Variable unmarshalRequest : bytes -> option OpenAIRequest.
Variable unmarshalUpstream : bytes -> option UpstreamData.
Variable intOfHugeFloat : Z.
Variable waitOutOfRange : Z -> Z -> Z.

(** The feature flags of the public model name: thinking, search and the
    MCP server. *)
Definition modelFeatures (model : bytes) : bool * bool * bytes :=
  if bytes_eqb model thinkingModelName then (true, false, [])
  else if bytes_eqb model searchModelName
       then (true, true, bs "deep-web-search")
       else (false, false, []).

(** The upstream request that [chatHandler] builds. *)
Definition buildUpstreamRequest (chatReq : OpenAIRequest) (e : HandlerEnv)
  : UpstreamRequest :=
  let '(isThinking, isSearch, searchMcp) := modelFeatures (req_Model chatReq) in
  {| ur_Stream := true;
     ur_Model := bs "0727-360B-API";
     ur_Messages := req_Messages chatReq;
     ur_Features := [ (bs "enable_thinking", isThinking);
                      (bs "web_search", isSearch);
                      (bs "auto_web_search", isSearch) ];
     ur_BackgroundTasks := [ (bs "title_generation", false);
                             (bs "tags_generation", false) ];
     ur_ChatID := fmtInt (henv_unixNano e) ++ bs "-" ++ fmtInt (henv_unix e);
     ur_ID := fmtInt (henv_msgNano e);
     ur_MCPServers := [searchMcp];
     ur_ModelItem := {| mi_ID := bs "0727-360B-API"; mi_Name := bs "GLM-4.5";
                        mi_OwnedBy := bs "openai" |};
     ur_ToolServers := [];
     ur_Variables := [ (bs "{{USER_NAME}}", bs "User");
                       (bs "{{USER_LOCATION}}", bs "Unknown");
                       (bs "{{CURRENT_DATETIME}}", henv_datetime e) ] |}.

(** All the bytes that the reads of a body deliver before its end or its
    first failure. *)
Fixpoint bodyBytes (reads : list ReadResult) : bytes :=
  match reads with
  | [] => []
  | r :: rest =>
      rd_data r ++ match rd_err r with
                   | Some _ => []
                   | None => bodyBytes rest
                   end
  end.

(** [chatHandler] *)
Definition chatHandler (call : ClientCall) (e : HandlerEnv) (c0 : Counters)
  : HandlerResult :=
  let c1 := addRequest c0 in
  match call_body call with
  | None =>
      {| hr_status := Some 400%Z;
         hr_body := PlainError (bs "{" ++ DQ :: bs "error" ++ DQ :: bs ": "
                                ++ DQ :: bs "Failed to read request body"
                                ++ DQ :: bs "}");
         hr_counters := addError c1; hr_upstream := None; hr_timeout := 0 |}
  | Some body =>
      let key :=
        TrimSpace (TrimPrefix (call_Authorization call) (bs "Bearer ")) in
      if negb (bytes_eqb key (defaultKey cfg)) then
        {| hr_status := Some 401%Z;
           hr_body := ErrorJSON {| er_Error := bs "Unauthorized";
                                   er_Details := None; er_RetryAfter := 0;
                                   er_PerformanceMode := [] |};
           hr_counters := addError c1; hr_upstream := None; hr_timeout := 0 |}
      else
        match unmarshalRequest body with
        | None =>
            {| hr_status := Some 400%Z;
               hr_body := ErrorJSON {| er_Error := bs "Invalid JSON format";
                                       er_Details := None; er_RetryAfter := 0;
                                       er_PerformanceMode := [] |};
               hr_counters := addError c1; hr_upstream := None;
               hr_timeout := 0 |}
        | Some chatReq =>
            let upstreamReq := buildUpstreamRequest chatReq e in
            let authToken :=
              if anonTokenEnabled cfg then
                match henv_anonToken e with
                | Some t => t
                | None => upstreamToken cfg
                end
              else upstreamToken cfg in
            let isStream :=
              match req_Stream chatReq with Some b => b | None => false end in
            let timeoutDuration :=
              if isStream then milliseconds (streamTimeout cfg)
              else milliseconds (requestTimeout cfg) in
            match snd (requestWithRetry cfg intOfHugeFloat waitOutOfRange
                         (henv_attempts e)) with
            | DispatchPanicked =>
                {| hr_status := None; hr_body := PlainError [];
                   hr_counters := c1;
                   hr_upstream := Some (upstreamReq, authToken);
                   hr_timeout := timeoutDuration |}
            | DispatchFailed err =>
                {| hr_status := Some 502%Z;
                   hr_body :=
                     ErrorJSON {| er_Error := bs "External API request failed";
                                  er_Details := Some err; er_RetryAfter := 60;
                                  er_PerformanceMode := performanceMode cfg |};
                   hr_counters := addResponseTime (henv_elapsed e) (addError c1);
                   hr_upstream := Some (upstreamReq, authToken);
                   hr_timeout := timeoutDuration |}
            | Dispatched reads =>
                if negb isStream then
                  {| hr_status := Some 200%Z;
                     hr_body :=
                       Completion
                         (nonStreamResponse cfg unmarshalUpstream
                            (bodyBytes reads)
                            (henv_clock e 0%nat) (henv_clock e 1%nat));
                     hr_counters := addResponseTime (henv_elapsed e) c1;
                     hr_upstream := Some (upstreamReq, authToken);
                     hr_timeout := timeoutDuration |}
                else
                  let r := handleStreamResponse cfg unmarshalUpstream
                             (henv_clock e) (henv_alive e)
                             (call_flusher call) reads in
                  {| hr_status :=
                       match sr_exit r with
                       | Returned => Some (sr_status r)
                       | Panicked => None
                       end;
                     hr_body :=
                       if call_flusher call
                       then EventStream (written (sr_state r))
                       else PlainError (bs "Streaming unsupported");
                     hr_counters := c1;
                     hr_upstream := Some (upstreamReq, authToken);
                     hr_timeout := timeoutDuration |}
            end
        end
  end.

End Handler.

(** ** The admission middleware

    Each request runs [concurrencyControlMiddleware] on a goroutine of its
    own.  A request is at one of these places: before the [select];
    after its send on the semaphore channel; after the increment of
    [currentConnections], in the handler; after the return of the
    handler, in the deferred function; after the receive from the channel;
    done; or rejected with 503. *)
Inductive Place :=
| Arrived
| Acquired
| Running
| Exiting
| Released
| Finished
| Rejected.

(** The shared state: the number of elements in the channel
    [connectionSemaphore], the counter, and the place of each request. *)
Record Gate := {
  semaphore : nat;
  currentConnections : Z;
  requests : list Place
}.

Fixpoint setPlace (i : nat) (p : Place) (l : list Place) : list Place :=
  match l, i with
  | [], _ => []
  | _ :: t, O => p :: t
  | x :: t, S j => x :: setPlace j p t
  end.

(** One atomic step of request [i]; [None] when the request does not exist
    or has nothing left to do.  The channel has [maxConcurrentConnections]
    slots; a send on a full channel falls to the [default] case. *)
Definition gateStep (capacity : Z) (i : nat) (g : Gate) : option Gate :=
  match nth_error (requests g) i with
  | Some Arrived =>
      if (Z.of_nat (semaphore g) <? capacity)%Z
      then Some {| semaphore := S (semaphore g);
                   currentConnections := currentConnections g;
                   requests := setPlace i Acquired (requests g) |}
      else Some {| semaphore := semaphore g;
                   currentConnections := currentConnections g;
                   requests := setPlace i Rejected (requests g) |}
  | Some Acquired =>
      Some {| semaphore := semaphore g;
              currentConnections := atomicAdd (currentConnections g) 1;
              requests := setPlace i Running (requests g) |}
  | Some Running =>
      Some {| semaphore := semaphore g;
              currentConnections := currentConnections g;
              requests := setPlace i Exiting (requests g) |}
  | Some Exiting =>
      Some {| semaphore := pred (semaphore g);
              currentConnections := currentConnections g;
              requests := setPlace i Released (requests g) |}
  | Some Released =>
      Some {| semaphore := semaphore g;
              currentConnections := atomicAdd (currentConnections g) (-1);
              requests := setPlace i Finished (requests g) |}
  | Some Finished | Some Rejected | None => None
  end.

(** An interleaving is the list of the requests that step, in order; a
    step that cannot be taken leaves the state as it is. *)
Fixpoint runGate (capacity : Z) (schedule : list nat) (g : Gate) : Gate :=
  match schedule with
  | [] => g
  | i :: rest =>
      runGate capacity rest
        match gateStep capacity i g with Some g' => g' | None => g end
  end.

Definition initialGate (n : nat) : Gate :=
  {| semaphore := 0; currentConnections := 0; requests := repeat Arrived n |}.

(** ** Sample data for the examples

    JSON texts of upstream events and a decoder that reads them back: it
    agrees with [json.Unmarshal] on the texts it accepts, whose strings are
    printable ASCII without quote or backslash. *)

Definition quoted (s : bytes) : bytes := DQ :: s ++ [DQ].

Definition HasSuffix (s suffix : bytes) : bool :=
  HasPrefix (rev_append s []) (rev_append suffix []).

(** The text of [s] between a prefix and a suffix. *)
Definition between (pre suf s : bytes) : option bytes :=
  if HasPrefix s pre && HasSuffix s suf
     && (List.length pre + List.length suf <=? List.length s)%nat
  then Some (firstn (List.length s - List.length pre - List.length suf)
                    (skipn (List.length pre) s))
  else None.

Definition plainChar (c : ascii) : bool :=
  ((32 <=? byteval c) && (byteval c <? 127)
   && negb (byteval c =? 34) && negb (byteval c =? 92))%N.

Definition eventPrefix (phase : bytes) : bytes :=
  bs "{" ++ quoted (bs "data") ++ bs ":{" ++ quoted (bs "phase") ++ bs ":"
  ++ quoted phase ++ bs "," ++ quoted (bs "delta_content") ++ bs ":" ++ [DQ].

Definition eventSuffix : bytes := DQ :: bs "}}".

(** [{"data":{"phase":"<phase>","delta_content":"<d>"}}] *)
Definition eventJSON (phase d : bytes) : bytes :=
  eventPrefix phase ++ d ++ eventSuffix.

(** [{"data":{"done":true}}] *)
Definition doneJSON : bytes :=
  bs "{" ++ quoted (bs "data") ++ bs ":{" ++ quoted (bs "done") ++ bs ":true}}".

Definition sampleBody (phase d : bytes) (done : bool) : UpstreamBody :=
  {| DeltaContent := d; EditContent := []; Phase := phase; Done := done;
     DataUsage := None; DataError := None; Inner := None |}.

Definition sampleEvent (phase d : bytes) (done : bool) : UpstreamData :=
  {| ud_Type := []; ud_Data := sampleBody phase d done; ud_Error := None |}.

Definition sampleUnmarshal (j : bytes) : option UpstreamData :=
  if bytes_eqb j doneJSON then Some (sampleEvent [] [] true)
  else
    match between (eventPrefix (bs "answer")) eventSuffix j with
    | Some d =>
        if forallb plainChar d then Some (sampleEvent (bs "answer") d false)
        else None
    | None =>
        match between (eventPrefix (bs "thinking")) eventSuffix j with
        | Some d =>
            if forallb plainChar d
            then Some (sampleEvent (bs "thinking") d false)
            else None
        | None => None
        end
    end.

(** The defaults of the balanced performance mode. *)
Definition sampleConfig : Config :=
  {| thinkTagsMode := bs "think";
     maxRetries := 3;
     retryDelay := 1000;
     requestTimeout := 120000;
     streamTimeout := 300000;
     randomDelayMin := 100;
     randomDelayMax := 500;
     streamBufferSize := 16384;
     disableConnectionCheck := false;
     connectionCheckInterval := 20;
     maxConcurrentConnections := 1000;
     anonTokenEnabled := true;
     defaultKey := bs "123456";
     upstreamToken := bs "token";
     performanceMode := bs "balanced" |}.

Definition sampleClock (n : nat) : Z := 1700000000.

Definition alwaysAlive (k : Z) : bool := true.

(** One line of the upstream stream. *)
Definition sseLine (j : bytes) : bytes := bs "data: " ++ j ++ [LF].

Definition oneRead (data : bytes) : ReadResult :=
  {| rd_data := data; rd_err := None |}.

(** A request body and its decoding, for the examples of the handler. *)
Definition sampleRequest (model : bytes) (stream : bool) : OpenAIRequest :=
  {| req_Model := model;
     req_Messages := [ {| msg_Role := bs "user"; msg_Content := bs "hi";
                          msg_ReasoningContent := [] |} ];
     req_Stream := Some stream;
     req_MaxTokens := None |}.

Definition sampleRequestDecoder (body : bytes) : option OpenAIRequest :=
  if bytes_eqb body (bs "stream") then Some (sampleRequest defaultModelName true)
  else if bytes_eqb body (bs "search")
       then Some (sampleRequest searchModelName false)
       else if bytes_eqb body (bs "plain")
            then Some (sampleRequest defaultModelName false)
            else None.

Definition sampleAttempt (body : list ReadResult) (i : nat) : AttemptEnv :=
  {| backoffCancelled := false; jitterDraw := 0;
     outcome := Responded 200 body; waitCancelled := false |}.

Definition sampleEnv (body : list ReadResult) : HandlerEnv :=
  {| henv_elapsed := 1234;
     henv_unixNano := 1700000000000000000;
     henv_unix := 1700000000;
     henv_msgNano := 1700000000000000001;
     henv_datetime := bs "2023-11-14 22:13:20";
     henv_anonToken := None;
     henv_attempts := sampleAttempt body;
     henv_clock := sampleClock;
     henv_alive := alwaysAlive |}.

Definition sampleCall (body : bytes) : ClientCall :=
  {| call_body := Some body;
     call_Authorization := bs "Bearer 123456";
     call_flusher := true |}.

Definition zeroCounters : Counters :=
  {| requestCount := 0; totalResponseTime := 0; errorCount := 0 |}.

(** What a write carries in [choices[0].delta]: content and reasoning. *)
Definition deltaOf (w : Write) : option Delta :=
  match w with
  | SSEChunk c | ThinkChunk c =>
      match resp_Choices c with
      | ch :: _ => Some (ch_Delta ch)
      | [] => None
      end
  | DoneLine => None
  end.

Definition contentOf (w : Write) : bytes :=
  match deltaOf w with Some d => d_Content d | None => [] end.

Definition finishOf (w : Write) : bytes :=
  match w with
  | SSEChunk c | ThinkChunk c =>
      match resp_Choices c with
      | ch :: _ => ch_FinishReason ch
      | [] => []
      end
  | DoneLine => []
  end.

Definition isDoneLine (w : Write) : bool :=
  match w with DoneLine => true | _ => false end.

Definition isThinkChunk (w : Write) : bool :=
  match w with ThinkChunk _ => true | _ => false end.

Definition countDone (ws : list Write) : nat :=
  List.length (filter isDoneLine ws).


(** ** Predicates for the facts about the translator *)

Definition isSSEChunk (w : Write) : bool :=
  match w with SSEChunk _ => true | _ => false end.

(** The writes [news] of a stretch of the translation are well framed:
    they are chunks of [writeSSEChunk], except that a stretch that closes
    the stream ends with the terminal line. *)
Definition Framed (closed : bool) (news : list Write) : Prop :=
  if closed
  then exists pre, news = pre ++ [DoneLine] /\ forallb isSSEChunk pre = true
  else forallb isSSEChunk news = true.

(** [st'] comes after [st] in a translation that has not assigned the two
    think variables. *)
Definition Follows (st st' : TState) : Prop :=
  isInThinkBlock st' = isInThinkBlock st /\
  bufferedThinkContent st' = bufferedThinkContent st /\
  exists news,
    written st' = written st ++ news /\ Framed (streamClosed st') news.

(** The line is a data line whose JSON text, which is not the sentinel,
    decodes to the event [u]. *)
Definition carriesEvent (unmarshalUpstream : bytes -> option UpstreamData)
           (line : bytes) (u : UpstreamData) : Prop :=
  HasPrefix (TrimSpace line) (bs "data: ") = true /\
  TrimSpace (skipn 6 (TrimSpace line)) <> bs "[DONE]" /\
  TrimSpace (skipn 6 (TrimSpace line)) <> [] /\
  unmarshalUpstream (TrimSpace (skipn 6 (TrimSpace line))) = Some u.

(** A choice of a streamed chunk with the given delta. *)
Definition deltaChoice (d : Delta) : Choice :=
  {| ch_Index := 0; ch_Message := emptyMessage; ch_Delta := d;
     ch_FinishReason := [] |}.

(** ** Predicates for the facts about the dispatcher *)

(** What comes just before the request of the turn [i] of the loop
    (turns are numbered from 0): the back-off sleep unless the turn is the
    first, then a jitter of [j] milliseconds if there is one.  Durations
    are in nanoseconds. *)
Definition preamble (cfg : Config) (i : nat) (j : option Z)
  : list RetryEvent :=
  (if (0 <? i)%nat
   then [Backoff i (retryDelay cfg * 2 ^ Z.of_nat i * 1000000)] else [])
  ++ match j with Some d => [Jitter i (d * 1000000)] | None => [] end.

(** A configuration whose delays do not overflow a [time.Duration]. *)
Definition delaysInRange (cfg : Config) : Prop :=
  (0 <= retryDelay cfg /\
   retryDelay cfg * 2 ^ maxRetries cfg * 1000000 < 2 ^ 63 /\
   0 <= randomDelayMin cfg /\
   randomDelayMax cfg * 1000000 < 2 ^ 63)%Z.

Definition isAttempt (e : RetryEvent) : bool :=
  match e with Attempt _ => true | _ => false end.

(** The world in which the first request is answered with the status
    [first] and every later one with 200. *)
Definition answerThenOK (first : Z) (i : nat) : AttemptEnv :=
  {| backoffCancelled := false; jitterDraw := 7;
     outcome := match i with
                | O => Responded first []
                | S _ => Responded 200 []
                end;
     waitCancelled := false |}.

(** The balanced configuration with both ends of the jitter at 100 ms. *)
Definition fixedJitterConfig : Config :=
  {| thinkTagsMode := bs "think";
     maxRetries := 3;
     retryDelay := 1000;
     requestTimeout := 120000;
     streamTimeout := 300000;
     randomDelayMin := 100;
     randomDelayMax := 100;
     streamBufferSize := 16384;
     disableConnectionCheck := false;
     connectionCheckInterval := 20;
     maxConcurrentConnections := 1000;
     anonTokenEnabled := true;
     defaultKey := bs "123456";
     upstreamToken := bs "token";
     performanceMode := bs "balanced" |}.

(** The jitter of the turn [i] in milliseconds, if the turn has one. *)
Definition jitterOf (cfg : Config) (env : nat -> AttemptEnv) (i : nat)
  : option Z :=
  if (randomDelayMin cfg <? randomDelayMax cfg)%Z
  then Some (jitterDraw (env i) mod (randomDelayMax cfg - randomDelayMin cfg)
             + randomDelayMin cfg)%Z
  else None.

(** In a trace with this property, what comes just before each request
    is the preamble of its turn. *)
Definition goodTrace (cfg : Config) (env : nat -> AttemptEnv)
           (l : list RetryEvent) : Prop :=
  forall pre a post,
    l = pre ++ Attempt a :: post ->
    exists pre', pre = pre' ++ preamble cfg a (jitterOf cfg env a).

(** ** Predicates for the facts about the thinking transformer *)

(** The pattern matches at no position of [s]. *)
Fixpoint matchesNowhere (matchLen : bytes -> option nat) (s : bytes) : bool :=
  match matchLen s with
  | Some _ => false
  | None =>
      match s with
      | [] => true
      | _ :: t => matchesNowhere matchLen t
      end
  end.

(** [s] has no [<summary>] span, no [<details>] tag, opening or closing,
    and none of the three literals that the transformer deletes. *)
Definition tagFree (s : bytes) : Prop :=
  matchesNowhere summaryMatch s = true /\
  matchesNowhere detailsMatch s = true /\
  Contains s (bs "</details>") = false /\
  Contains s (bs "</thinking>") = false /\
  Contains s (bs "<Full>") = false /\
  Contains s (bs "</Full>") = false.

(** No line of [s] starts with the prefix [> ]: the text does not start
    with it and it follows no newline. *)
Definition noQuotePrefix (s : bytes) : Prop :=
  HasPrefix s (bs "> ") = false /\
  Contains s (LF :: bs "> ") = false.

(** No white space rune at the head of [s], for the recognisers of
    [trimHead]. *)
Definition headClear (sp2 : ascii -> ascii -> bool)
           (sp3 : ascii -> ascii -> ascii -> bool) (s : bytes) : bool :=
  match s with
  | [] => true
  | c1 :: t1 =>
      negb (isSpace1 c1)
      && match t1 with
         | [] => true
         | c2 :: t2 =>
             negb (sp2 c1 c2)
             && match t2 with
                | [] => true
                | c3 :: _ => negb (sp3 c1 c2 c3)
                end
         end
  end.

(** A pattern whose match at the head of a text is still a match when
    the text goes on. *)
Definition extends (m : bytes -> option nat) : Prop :=
  forall s b, m s <> None -> m (s ++ b) <> None.

(** ** Predicates for the round trip of answer deltas *)

(** An event of the answer phase that carries the delta [d] and nothing
    else. *)
Definition isAnswerDelta (u : UpstreamData) (d : bytes) : Prop :=
  DeltaContent (ud_Data u) = d /\
  EditContent (ud_Data u) = [] /\
  Phase (ud_Data u) = bs "answer" /\
  Done (ud_Data u) = false /\
  hasUpstreamError u = false.

(** An event that only marks the end: a done flag or a done phase. *)
Definition isDoneMarker (u : UpstreamData) : Prop :=
  DeltaContent (ud_Data u) = [] /\
  EditContent (ud_Data u) = [] /\
  hasUpstreamError u = false /\
  (Done (ud_Data u) = true \/ Phase (ud_Data u) = bs "done").

(** The text of a JSON object on one line. *)
Definition objectText (j : bytes) : Prop :=
  exists mid, j = bs "{" ++ mid ++ bs "}" /\ ~ In LF mid.

Definition decodesAnswer (unmarshalUpstream : bytes -> option UpstreamData)
           (j d : bytes) : Prop :=
  objectText j /\
  exists u, unmarshalUpstream j = Some u /\ isAnswerDelta u d.

Definition decodesDone (unmarshalUpstream : bytes -> option UpstreamData)
           (j : bytes) : Prop :=
  objectText j /\
  exists u, unmarshalUpstream j = Some u /\ isDoneMarker u.

(** The upstream stream made of the given JSON texts, one line each. *)
Definition sseText (js : list bytes) : bytes :=
  List.concat (map sseLine js).

(** The concatenation of [choices[0].delta.content] over the writes. *)
Definition contents (st : TState) : bytes :=
  List.concat (map contentOf (written st)).

(** The client stays connected, or is not probed. *)
Definition clientStays (cfg : Config) (alive : Z -> bool) : Prop :=
  disableConnectionCheck cfg = true \/
  (connectionCheckInterval cfg <> 0%Z /\ forall k, alive k = true).

(** A read that succeeds and delivers at most 512 KiB. *)
Definition modestRead (r : ReadResult) : Prop :=
  rd_err r = None /\ (N.of_nat (List.length (rd_data r)) <= 524288)%N.

(** The translation of a whole text, line by line, as the read loop does
    it when the text arrives in one piece: the complete lines in order,
    then what is left at the end of the body.  [cur] holds the current
    line in reverse. *)
Fixpoint feed (cfg : Config) (unmarshalUpstream : bytes -> option UpstreamData)
         (clock : nat -> Z) (buf cur : bytes) (st : TState) : TState :=
  match buf with
  | [] =>
      if negb (isEmpty (rev cur)) && negb (streamClosed st)
      then processStreamLine cfg unmarshalUpstream clock (rev cur) st
      else st
  | c :: t =>
      if Ascii.eqb c LF then
        let st1 :=
          if streamClosed st then st
          else processStreamLine cfg unmarshalUpstream clock (rev cur) st in
        if streamClosed st1 then st1
        else feed cfg unmarshalUpstream clock t [] st1
      else feed cfg unmarshalUpstream clock t (c :: cur) st
  end.

(** Sixty-five thousand five hundred and thirty-six letters. *)
Fixpoint doubled (n : nat) (s : bytes) : bytes :=
  match n with
  | O => s
  | S k => doubled k (s ++ s)
  end.

Definition longDelta : bytes := doubled 16 (bs "a").

(** The sample decoder reads the text [j] as an event of the given phase,
    delta and done flag, with no edit content and no error. *)
Definition sampleDecodes (j phase d : bytes) (done : bool) : bool :=
  match sampleUnmarshal j with
  | Some u =>
      bytes_eqb (DeltaContent (ud_Data u)) d
      && bytes_eqb (Phase (ud_Data u)) phase
      && Bool.eqb (Done (ud_Data u)) done
      && isEmpty (EditContent (ud_Data u))
      && negb (hasUpstreamError u)
  | None => false
  end.

(** The first answer event of the third scenario: an edit content with
    text after the closing [</details>], and no delta. *)
Definition spliceEvent : UpstreamData :=
  {| ud_Type := [];
     ud_Data := {| DeltaContent := [];
                   EditContent := bs "<summary>s</summary><details>t</details>Hello";
                   Phase := bs "answer"; Done := false; DataUsage := None;
                   DataError := None; Inner := None |};
     ud_Error := None |}.

(** The world in which the first two requests are answered with 429 and
    the third with 200. *)
Definition rateLimitedTwice (i : nat) : AttemptEnv :=
  {| backoffCancelled := false; jitterDraw := 0;
     outcome := match i with
                | O | S O => Responded 429 []
                | _ => Responded 200 []
                end;
     waitCancelled := false |}.

(** The interleaving that overshoots a gate with room for [c]: the first
    [c] requests enter one after the other, the first of them leaves as
    far as the receive from the channel, and one more request enters. *)
Definition overshoot (c : nat) : list nat :=
  flat_map (fun i => [i; i]) (seq 0 c) ++ [0; 0; c; c]%nat.

(** * More of the program *)

(** ** Configuration from the environment *)

(** A decimal digit. *)
Definition isDigit (c : ascii) : bool :=
  (48 <=? byteval c)%N && (byteval c <=? 57)%N.

(** [strconv.Atoi]: an optional sign, then decimal digits, at least one
    and nothing else; a value outside the 64 bits of [int] is an error. *)
Definition Atoi (s : bytes) : option Z :=
  let parsed :=
    match s with
    | c :: t =>
        if Ascii.eqb c "+"
        then option_map Z.of_uint
               (NilZero.uint_of_string (string_of_list_ascii t))
        else option_map Z.of_int
               (NilZero.int_of_string (string_of_list_ascii s))
    | [] => None
    end in
  match parsed with
  | Some z =>
      if (-9223372036854775808 <=? z)%Z && (z <=? 9223372036854775807)%Z
      then Some z else None
  | None => None
  end.

Section Environment.

(** [os.Getenv]: the value of a variable, empty when it is not set; and
    [strings.ToLower]. *)
Variable environ : bytes -> bytes.
Variable toLower : bytes -> bytes.

(** [getEnv] *)
Definition getEnv (key defaultValue : bytes) : bytes :=
  if isEmpty (environ key) then defaultValue else environ key.

(** [getEnvInt] *)
Definition getEnvInt (key : bytes) (defaultValue : Z) : Z :=
  if isEmpty (environ key) then defaultValue
  else match Atoi (environ key) with
       | Some intValue => intValue
       | None => defaultValue
       end.

(** The six variables that [getPerformanceConfig] assigns, for the given
    defaults. *)
Definition withPerformance (base : Config) (r d t s lo hi : Z) : Config :=
  {| thinkTagsMode := thinkTagsMode base;
     maxRetries := getEnvInt (bs "MAX_RETRIES") r;
     retryDelay := getEnvInt (bs "RETRY_DELAY") d;
     requestTimeout := getEnvInt (bs "REQUEST_TIMEOUT") t;
     streamTimeout := getEnvInt (bs "STREAM_TIMEOUT") s;
     randomDelayMin := getEnvInt (bs "RANDOM_DELAY_MIN") lo;
     randomDelayMax := getEnvInt (bs "RANDOM_DELAY_MAX") hi;
     streamBufferSize := streamBufferSize base;
     disableConnectionCheck := disableConnectionCheck base;
     connectionCheckInterval := connectionCheckInterval base;
     maxConcurrentConnections := maxConcurrentConnections base;
     anonTokenEnabled := anonTokenEnabled base;
     defaultKey := defaultKey base;
     upstreamToken := upstreamToken base;
     performanceMode := performanceMode base |}.

(** [getPerformanceConfig], on the other globals as they are in [base]. *)
Definition getPerformanceConfig (base : Config) : Config :=
  let mode := toLower (performanceMode base) in
  if bytes_eqb mode (bs "fast")
  then withPerformance base 1 200 10000 60000 0 100
  else if bytes_eqb mode (bs "secure")
       then withPerformance base 5 2000 60000 600000 500 1500
       else withPerformance base 3 1000 120000 300000 100 500.

End Environment.

(** ** Log helpers *)

(** [maskAPIKey] *)
Definition maskAPIKey (apiKey : bytes) : bytes :=
  if (List.length apiKey <=? 8)%nat
  then repeat "*"%char (List.length apiKey)
  else firstn 4 apiKey
       ++ repeat "*"%char (List.length apiKey - 8)
       ++ skipn (List.length apiKey - 4) apiKey.

(** [strings.Split(s, sep)] for a non-empty [sep]. *)
Definition stringsSplit (s sep : bytes) : list bytes := splitLoop sep 0 [] s.

(** What [getClientIP] reads of a request: two headers, empty when
    absent, and the address of the peer. *)
Record PeerInfo := {
  hdr_XForwardedFor : bytes;
  hdr_XRealIP : bytes;
  peer_RemoteAddr : bytes
}.

(** [getClientIP]; [splitHostPort] is [net.SplitHostPort], which gives the
    host or fails. *)
Definition getClientIP (splitHostPort : bytes -> option bytes) (r : PeerInfo)
  : bytes :=
  let fromPeer :=
    if negb (isEmpty (hdr_XRealIP r)) then hdr_XRealIP r
    else match splitHostPort (peer_RemoteAddr r) with
         | Some host => host
         | None => peer_RemoteAddr r
         end in
  if negb (isEmpty (hdr_XForwardedFor r)) then
    match stringsSplit (hdr_XForwardedFor r) (bs ",") with
    | ip :: _ => TrimSpace ip
    | [] => fromPeer
    end
  else fromPeer.

(** ** The health endpoint *)

Record HealthStats := {
  hs_TotalRequests : Z;
  hs_AverageResponseTime : Z;
  hs_ErrorRate : Z;
  hs_CurrentConnections : Z
}.

(** The statistics of [healthHandler]: Go's division truncates. *)
Definition healthStats (c : Counters) (connections : Z) : HealthStats :=
  {| hs_TotalRequests := requestCount c;
     hs_AverageResponseTime :=
       if (0 <? requestCount c)%Z
       then Z.quot (totalResponseTime c) (requestCount c) else 0;
     hs_ErrorRate :=
       if (0 <? requestCount c)%Z
       then Z.quot (wrap64 (errorCount c * 100)) (requestCount c) else 0;
     hs_CurrentConnections := connections |}.

(** The counters after the handler has served the calls one after the
    other. *)
Fixpoint serveAll (cfg : Config)
         (unmarshalRequest : bytes -> option OpenAIRequest)
         (unmarshalUpstream : bytes -> option UpstreamData)
         (intOfHugeFloat : Z) (waitOutOfRange : Z -> Z -> Z)
         (calls : list (ClientCall * HandlerEnv)) (c : Counters) : Counters :=
  match calls with
  | [] => c
  | (call, e) :: rest =>
      serveAll cfg unmarshalRequest unmarshalUpstream intOfHugeFloat
        waitOutOfRange rest
        (hr_counters (chatHandler cfg unmarshalRequest unmarshalUpstream
                        intOfHugeFloat waitOutOfRange call e c))
  end.

(** The status of an answer that the handler counts as an error. *)
Definition countedAsError (status : option Z) : bool :=
  match status with
  | Some s => (s =? 400)%Z || (s =? 401)%Z || (s =? 502)%Z
  | None => false
  end.

(** The value of a feature flag of an upstream request. *)
Fixpoint feature (name : bytes) (l : list (bytes * bool)) : option bool :=
  match l with
  | [] => None
  | (k, v) :: t => if bytes_eqb k name then Some v else feature name t
  end.

(** ** Predicates for the facts about the dispatcher *)

(** A response that the dispatcher takes for a rate limit or a ban. *)
Definition isRateLimited (o : AttemptOutcome) : bool :=
  match o with
  | Responded status _ => (status =? 429)%Z || (status =? 403)%Z
  | _ => false
  end.

(** What happened at turn [i] when the dispatcher reports [err] for it. *)
Definition errorCause (env : nat -> AttemptEnv) (i : nat)
           (err : DispatchError) : Prop :=
  match err with
  | ErrContext =>
      ((0 < i)%nat /\ backoffCancelled (env i) = true) \/
      (isRateLimited (outcome (env i)) = true /\
       waitCancelled (env i) = true)
  | ErrBuild => outcome (env i) = RequestBuildFailed
  | ErrTransport => outcome (env i) = TransportFailed
  | ErrHTTP status =>
      (exists body, outcome (env i) = Responded status body) /\
      status <> 200%Z /\ status <> 429%Z /\ status <> 403%Z
  | ErrAllFailed => False
  end.

Definition isRateWait (e : RetryEvent) : bool :=
  match e with RateWait _ _ => true | _ => false end.

(** ** Predicates for the facts about the frames of a response *)

Inductive FrameKind :=
| KOpener
| KContent
| KReasoning
| KFinish
| KTerminal
| KOther.

(** The kind of a frame: a chunk counts only if it is a
    [chat.completion.chunk] of the default model with no usage and one
    choice of index 0 with an empty message, and if it is a role opener, a
    content chunk, a reasoning chunk or a finish chunk and nothing
    else. *)
Definition frameKind (w : Write) : FrameKind :=
  match w with
  | DoneLine => KTerminal
  | ThinkChunk _ => KOther
  | SSEChunk c =>
      match resp_Choices c, resp_Usage c with
      | [ch], None =>
          if bytes_eqb (resp_Object c) (bs "chat.completion.chunk")
             && bytes_eqb (resp_Model c) defaultModelName
             && (ch_Index ch =? 0)%Z
             && isEmpty (msg_Role (ch_Message ch))
             && isEmpty (msg_Content (ch_Message ch))
             && isEmpty (msg_ReasoningContent (ch_Message ch))
          then
            let d := ch_Delta ch in
            match isEmpty (d_Role d), isEmpty (d_Content d),
                  isEmpty (d_ReasoningContent d),
                  isEmpty (ch_FinishReason ch) with
            | false, true, true, true =>
                if bytes_eqb (d_Role d) (bs "assistant")
                then KOpener else KOther
            | true, false, true, true => KContent
            | true, true, false, true => KReasoning
            | true, true, true, false =>
                if bytes_eqb (ch_FinishReason ch) (bs "stop")
                then KFinish else KOther
            | _, _, _, _ => KOther
            end
          else KOther
      | _, _ => KOther
      end
  end.

Definition isBodyKind (k : FrameKind) : bool :=
  match k with KContent | KReasoning => true | _ => false end.

(** The kinds of the frames of a stretch of the translation: content and
    reasoning chunks, then, if the stretch closes the stream, the terminal
    line, with or without a finish chunk before it. *)
Definition stretchKinds (closed : bool) (ks : list FrameKind) : Prop :=
  exists body tail,
    ks = body ++ tail /\
    forallb isBodyKind body = true /\
    if closed then tail = [KTerminal] \/ tail = [KFinish; KTerminal]
    else tail = [].

(** A stretch of the translation, from one state to a later one. *)
Definition Stretch (st st' : TState) : Prop :=
  exists news,
    written st' = written st ++ news /\
    stretchKinds (streamClosed st') (map frameKind news).

(** A text of whole lines: empty, or ending with a newline. *)
Definition completeLines (s : bytes) : Prop :=
  s = [] \/ exists p, s = p ++ [LF].

(** A line that the translator passes over: no data line, a data line
    with nothing after the prefix, or one whose text is not the sentinel
    and does not decode. *)
Definition passedOver (unmarshalUpstream : bytes -> option UpstreamData)
           (line : bytes) : Prop :=
  HasPrefix (TrimSpace line) (bs "data: ") = false \/
  TrimSpace (skipn 6 (TrimSpace line)) = [] \/
  (TrimSpace (skipn 6 (TrimSpace line)) <> bs "[DONE]" /\
   unmarshalUpstream (TrimSpace (skipn 6 (TrimSpace line))) = None).

(** A line that the aggregator passes over. *)
Definition passedOverByAggregator
           (unmarshalUpstream : bytes -> option UpstreamData)
           (line : bytes) : Prop :=
  HasPrefix line (bs "data: ") = false \/
  TrimPrefix line (bs "data: ") = [] \/
  TrimPrefix line (bs "data: ") = bs "[DONE]" \/
  unmarshalUpstream (TrimPrefix line (bs "data: ")) = None.

(** What the aggregator reads of an event. *)
Definition aggregatorView (u : UpstreamData) : bytes * bytes * bool :=
  (DeltaContent (ud_Data u), Phase (ud_Data u), Done (ud_Data u)).

(** ** Predicates for the facts about the admission middleware *)

(** A request that holds a slot of the channel. *)
Definition holdsSlot (p : Place) : bool :=
  match p with Acquired | Running | Exiting => true | _ => false end.

(** A request that the counter counts. *)
Definition isCounted (p : Place) : bool :=
  match p with Running | Exiting | Released => true | _ => false end.

Definition isReleased (p : Place) : bool :=
  match p with Released => true | _ => false end.

Definition isRejected (p : Place) : bool :=
  match p with Rejected => true | _ => false end.

Definition isArrived (p : Place) : bool :=
  match p with Arrived => true | _ => false end.

Definition isOver (p : Place) : bool :=
  match p with Finished | Rejected => true | _ => false end.

Definition countPlaces (f : Place -> bool) (l : list Place) : nat :=
  List.length (filter f l).

(** ** More sample data *)

(** The balanced configuration with a check interval of zero. *)
Definition zeroIntervalConfig : Config :=
  {| thinkTagsMode := bs "think";
     maxRetries := 3;
     retryDelay := 1000;
     requestTimeout := 120000;
     streamTimeout := 300000;
     randomDelayMin := 100;
     randomDelayMax := 500;
     streamBufferSize := 16384;
     disableConnectionCheck := false;
     connectionCheckInterval := 0;
     maxConcurrentConnections := 1000;
     anonTokenEnabled := true;
     defaultKey := bs "123456";
     upstreamToken := bs "token";
     performanceMode := bs "balanced" |}.

(** [{"error":{"detail":"x","code":1}}] and its event, with a delta that
    the translator must not send. *)
Definition errorJSON : bytes :=
  bs "{" ++ quoted (bs "error") ++ bs ":{" ++ quoted (bs "detail") ++ bs ":"
  ++ quoted (bs "x") ++ bs "," ++ quoted (bs "code") ++ bs ":1}}".

Definition errorEvent : UpstreamData :=
  {| ud_Type := [];
     ud_Data := sampleBody (bs "answer") (bs "lost") false;
     ud_Error := Some {| ue_Detail := bs "x"; ue_Code := 1 |} |}.

Definition errorDecoder (j : bytes) : option UpstreamData :=
  if bytes_eqb j errorJSON then Some errorEvent else sampleUnmarshal j.

(** The event with an error and with text to edit in. *)
Definition withError (u : UpstreamData) : UpstreamData :=
  {| ud_Type := ud_Type u;
     ud_Data :=
       {| DeltaContent := DeltaContent (ud_Data u);
          EditContent := bs "<details>x</details>edited";
          Phase := Phase (ud_Data u);
          Done := Done (ud_Data u);
          DataUsage := DataUsage (ud_Data u);
          DataError := DataError (ud_Data u);
          Inner := Inner (ud_Data u) |};
     ud_Error := Some {| ue_Detail := bs "x"; ue_Code := 1 |} |}.

Definition failingUnmarshal (j : bytes) : option UpstreamData :=
  option_map withError (sampleUnmarshal j).

(** A client that is there until the check with the given count. *)
Definition goneAt (count : Z) (k : Z) : bool := (k <? count)%Z.

(** The world in which every request is answered with the given status. *)
Definition alwaysAnswers (status : Z) (i : nat) : AttemptEnv :=
  {| backoffCancelled := false; jitterDraw := 0;
     outcome := Responded status []; waitCancelled := false |}.

(** The world in which the context is done during the first back-off. *)
Definition cancelledAtBackoff (i : nat) : AttemptEnv :=
  {| backoffCancelled := true; jitterDraw := 0;
     outcome := TransportFailed; waitCancelled := false |}.

(** An environment with one variable set. *)
Definition oneVariable (key value : bytes) (k : bytes) : bytes :=
  if bytes_eqb k key then value else [].

(** Lower case for ASCII letters. *)
Definition asciiLower (s : bytes) : bytes :=
  map (fun c => if (65 <=? byteval c)%N && (byteval c <=? 90)%N
                then ascii_of_N (byteval c + 32) else c) s.

(** ** Predicates for the facts about the terminal line *)

(** The bytes that the loop can read of the upstream body: the data of
    the reads up to the first that ends with an error, that one
    included. *)
Fixpoint delivered (reads : list ReadResult) : bytes :=
  match reads with
  | [] => []
  | r :: rest =>
      rd_data r ++ match rd_err r with
                   | None => delivered rest
                   | Some _ => []
                   end
  end.

(** The lines of a text: what stands between its newlines. *)
Definition linesOf (text : bytes) : list bytes := Split [LF] text.

(** A line on which the translator closes the stream: a data line that
    holds the sentinel, or an event with an error, a done flag or a done
    phase. *)
Definition closesStream (unmarshalUpstream : bytes -> option UpstreamData)
           (line : bytes) : bool :=
  let jsonText := TrimSpace (skipn 6 (TrimSpace line)) in
  HasPrefix (TrimSpace line) (bs "data: ")
  && (bytes_eqb jsonText (bs "[DONE]")
      || negb (isEmpty jsonText)
         && match unmarshalUpstream jsonText with
            | Some u =>
                hasUpstreamError u || Done (ud_Data u)
                || bytes_eqb (Phase (ud_Data u)) (bs "done")
            | None => false
            end).

(** [line] stands in [text] between the start or a newline and a newline
    or the end, and holds no newline. *)
Definition isLineOf (text line : bytes) : Prop :=
  ~ In LF line /\
  exists a b,
    text = a ++ line ++ b /\ completeLines a /\
    (b = [] \/ exists b', b = LF :: b').

(** ** Predicates for the exact sleeps of the dispatcher *)

(** The turn of the loop that an event belongs to. *)
Definition turnOf (e : RetryEvent) : nat :=
  match e with
  | Backoff i _ | Jitter i _ | Attempt i | RateWait i _ => i
  end.

(** In a trace with this property every request belongs to a turn from
    [lo] on, and what comes before the request of a turn is the events of
    the turns from [lo] to that one, then the preamble of the turn and
    nothing else. *)
Definition exactTrace (cfg : Config) (env : nat -> AttemptEnv) (lo : nat)
           (l : list RetryEvent) : Prop :=
  forall pre a post,
    l = pre ++ Attempt a :: post ->
    (lo <= a)%nat /\
    exists earlier,
      pre = earlier ++ preamble cfg a (jitterOf cfg env a) /\
      Forall (fun e => (lo <= turnOf e < a)%nat) earlier.

(** The balanced configuration with a retry delay of 5 * 10^12 ms. *)
Definition hugeDelayConfig : Config :=
  {| thinkTagsMode := bs "think";
     maxRetries := 3;
     retryDelay := 5000000000000;
     requestTimeout := 120000;
     streamTimeout := 300000;
     randomDelayMin := 100;
     randomDelayMax := 500;
     streamBufferSize := 16384;
     disableConnectionCheck := false;
     connectionCheckInterval := 20;
     maxConcurrentConnections := 1000;
     anonTokenEnabled := true;
     defaultKey := bs "123456";
     upstreamToken := bs "token";
     performanceMode := bs "balanced" |}.
(** * Facts *)

Unset Implicit Arguments.

(** ** Byte strings *)

Lemma bytes_eqb_refl (a : bytes) : bytes_eqb a a = true.
Proof.
  induction a as [|x a IH]; simpl; [reflexivity|].
  now rewrite Ascii.eqb_refl, IH.
Qed.

Lemma bytes_eqb_eq (a b : bytes) : bytes_eqb a b = true <-> a = b.
Proof.
  split; [|intros ->; apply bytes_eqb_refl].
  revert b; induction a as [|x a IH]; intros [|y b]; simpl; try discriminate;
    [reflexivity|].
  intros H; apply andb_true_iff in H as [Hx Hab].
  apply Ascii.eqb_eq in Hx; subst y; f_equal; now apply IH.
Qed.

Lemma bytes_eqb_neq (a b : bytes) : bytes_eqb a b = false <-> a <> b.
Proof.
  split.
  - intros H E; apply bytes_eqb_eq in E; congruence.
  - intros H; destruct (bytes_eqb a b) eqn:E; [|reflexivity].
    apply bytes_eqb_eq in E; contradiction.
Qed.

Lemma isEmpty_true (s : bytes) : isEmpty s = true <-> s = [].
Proof. destruct s; simpl; split; congruence. Qed.

Lemma isEmpty_false (s : bytes) : isEmpty s = false <-> s <> [].
Proof. destruct s; simpl; split; congruence. Qed.

Lemma HasPrefix_app (p s : bytes) : HasPrefix (p ++ s) p = true.
Proof.
  induction p as [|c p IH]; simpl; [reflexivity|].
  now rewrite Ascii.eqb_refl, IH.
Qed.

Lemma HasPrefix_iff (s p : bytes) :
  HasPrefix s p = true <-> exists t, s = p ++ t.
Proof.
  split.
  - revert s; induction p as [|c p IH]; intros s H; simpl in *.
    + now exists s.
    + destruct s as [|x s]; [discriminate|].
      apply andb_true_iff in H as [Hx Hs]; apply Ascii.eqb_eq in Hx; subst x.
      destruct (IH _ Hs) as [t ->]; now exists t.
  - intros [t ->]; apply HasPrefix_app.
Qed.

Lemma skipn_prefix (p s : bytes) : skipn (List.length p) (p ++ s) = s.
Proof. induction p; simpl; auto. Qed.

Lemma TrimPrefix_app (p s : bytes) : TrimPrefix (p ++ s) p = s.
Proof. unfold TrimPrefix; now rewrite HasPrefix_app, skipn_prefix. Qed.

Lemma wrap64_small (z : Z) :
  (- 2 ^ 63 <= z < 2 ^ 63)%Z -> wrap64 z = z.
Proof.
  intros H; unfold wrap64.
  change 9223372036854775808%Z with (2 ^ 63)%Z.
  change 18446744073709551616%Z with (2 * 2 ^ 63)%Z.
  rewrite Z.mod_small; lia.
Qed.

(** ** The scenarios of the specification, run on the model *)

Example transform_think_mode :
  transformThinking (bs "think") (bs "<details open>reasoning</details>")
  = bs "<think>reasoning</think>".
Proof. vm_compute; reflexivity. Qed.

Example transform_strip_mode :
  transformThinking (bs "strip")
    (bs "<summary>s</summary><details>> a</Full></details> ")
  = bs "a".
Proof. vm_compute; reflexivity. Qed.

Example transform_quote_prefixes :
  transformThinking (bs "raw") (LF :: bs "> one" ++ LF :: bs "> two" ++ [LF])
  = bs "one" ++ LF :: bs "two".
Proof. vm_compute; reflexivity. Qed.

(** Scenario A: two answer deltas and a done flag, not streamed. *)
Example scenario_nonstream :
  map (fun ch => (msg_Content (ch_Message ch), ch_FinishReason ch))
      (resp_Choices
         (nonStreamResponse sampleConfig sampleUnmarshal
            (sseText [eventJSON (bs "answer") (bs "Hel");
                      eventJSON (bs "answer") (bs "lo"); doneJSON]) 0 0))
  = [ (bs "Hello", bs "stop") ].
Proof. vm_compute; reflexivity. Qed.

(** Scenario B: a thinking delta, an answer delta and a done flag,
    streamed: the opener, the reasoning chunk, the content chunk, the
    finish chunk and the terminal line. *)
Example scenario_stream_with_thinking :
  map (fun w => (deltaOf w, finishOf w, isDoneLine w))
      (written
         (sr_state
            (handleStreamResponse sampleConfig sampleUnmarshal sampleClock
               alwaysAlive true
               [oneRead
                  (sseText [eventJSON (bs "thinking")
                              (bs "<details open>reasoning</details>");
                            eventJSON (bs "answer") (bs "42"); doneJSON])])))
  = [ (Some roleDelta, [], false);
      (Some {| d_Role := []; d_Content := [];
               d_ReasoningContent := bs "<think>reasoning</think>" |},
       [], false);
      (Some {| d_Role := []; d_Content := bs "42";
               d_ReasoningContent := [] |}, [], false);
      (Some emptyDelta, bs "stop", false);
      (None, [], true) ].
Proof. vm_compute; reflexivity. Qed.

(** Scenario C: the text after the first [</details>] of the edit content
    is sent once. *)
Example scenario_initial_answer_splice :
  let decoder := fun _ : bytes => Some spliceEvent in
  let st1 := processStreamLine sampleConfig decoder sampleClock
               (bs "data: {}") initialState in
  let st2 := processStreamLine sampleConfig decoder sampleClock
               (bs "data: {}") st1 in
  map contentOf (written st1) = [ bs "Hello" ] /\
  sentInitialAnswer st1 = true /\
  written st2 = written st1.
Proof. vm_compute; repeat split. Qed.

(** Scenario D: two answers 429, then 200.  The waits after the 429s are
    1000 ms and 2000 ms, the back-offs 2000 ms and 4000 ms. *)
Example scenario_rate_limited :
  requestWithRetry sampleConfig 0 (fun _ _ => 0%Z) rateLimitedTwice
  = ([ Jitter 0 100000000; Attempt 0; RateWait 0 1000000000;
       Backoff 1 2000000000; Jitter 1 100000000; Attempt 1;
       RateWait 1 2000000000;
       Backoff 2 4000000000; Jitter 2 100000000; Attempt 2 ],
     Dispatched []).
Proof. vm_compute; reflexivity. Qed.

(** Scenario E: with room for two, a third request is rejected and the
    counter stays at 2. *)
Example scenario_saturation :
  runGate 2 [0; 0; 1; 1; 2]%nat (initialGate 3)
  = {| semaphore := 2; currentConnections := 2;
       requests := [Running; Running; Rejected] |}.
Proof. vm_compute; reflexivity. Qed.

(** ** C10: the MCP server list of the upstream request *)

Lemma modelFeatures_mcp (model : bytes) :
  snd (modelFeatures model)
  = if bytes_eqb model searchModelName then bs "deep-web-search" else [].
Proof.
  unfold modelFeatures.
  destruct (bytes_eqb model thinkingModelName) eqn:Et.
  - apply bytes_eqb_eq in Et; subst model; reflexivity.
  - destruct (bytes_eqb model searchModelName); reflexivity.
Qed.

Lemma buildUpstreamRequest_mcp (chatReq : OpenAIRequest) (e : HandlerEnv) :
  ur_MCPServers (buildUpstreamRequest chatReq e)
  = [ if bytes_eqb (req_Model chatReq) searchModelName
      then bs "deep-web-search" else [] ].
Proof.
  unfold buildUpstreamRequest.
  rewrite <- modelFeatures_mcp.
  destruct (modelFeatures (req_Model chatReq)) as [[t s] m]; reflexivity.
Qed.

(** C10.  Whenever [chatHandler] builds an upstream request, the request
    comes from a decoded chat request, and its [mcp_servers] list has
    exactly one element: the empty string when the public model name is
    not the search model, and ["deep-web-search"] when it is. *)
Theorem mcp_servers_single_element :
  forall cfg unmarshalRequest unmarshalUpstream intOfHugeFloat waitOutOfRange
         call e c0 u token,
    hr_upstream (chatHandler cfg unmarshalRequest unmarshalUpstream
                   intOfHugeFloat waitOutOfRange call e c0) = Some (u, token) ->
    exists body chatReq,
      call_body call = Some body /\
      unmarshalRequest body = Some chatReq /\
      (req_Model chatReq <> searchModelName -> ur_MCPServers u = [ [] ]) /\
      (req_Model chatReq = searchModelName ->
       ur_MCPServers u = [ bs "deep-web-search" ]).
Proof.
  intros cfg uR uU hf wo call e c0 u token H.
  unfold chatHandler in H.
  destruct (call_body call) as [body|] eqn:Eb; [|discriminate].
  destruct (negb _) in H; [discriminate|].
  destruct (uR body) as [chatReq|] eqn:Er; [|discriminate].
  exists body, chatReq; split; [reflexivity|]; split; [exact Er|].
  assert (Hu : u = buildUpstreamRequest chatReq e).
  { destruct (snd _) in H; [destruct (negb _) in H| |];
      simpl in H; congruence. }
  subst u; rewrite buildUpstreamRequest_mcp; split; intros Hm.
  - apply bytes_eqb_neq in Hm; now rewrite Hm.
  - apply bytes_eqb_eq in Hm; now rewrite Hm.
Qed.

Lemma mcp_servers_single_element_witness :
  exists u token,
    hr_upstream (chatHandler sampleConfig sampleRequestDecoder sampleUnmarshal
                   0 (fun _ _ => 0%Z) (sampleCall (bs "search"))
                   (sampleEnv []) zeroCounters) = Some (u, token) /\
    ur_MCPServers u = [ bs "deep-web-search" ].
Proof.
  eexists; eexists; split; [reflexivity|].
  destruct (mcp_servers_single_element sampleConfig sampleRequestDecoder
              sampleUnmarshal 0%Z (fun _ _ => 0%Z) (sampleCall (bs "search"))
              (sampleEnv []) zeroCounters _ _ eq_refl)
    as (body & chatReq & Hb & Hr & _ & Hs).
  apply Hs.
  injection Hb as <-.
  vm_compute in Hr; injection Hr as <-; reflexivity.
Defined.

(** ** C7: the admission middleware under interleaving *)

(** The channel never holds more than its capacity, whatever the
    interleaving. *)
Lemma semaphore_within_capacity (capacity : Z) (schedule : list nat) :
  forall g,
    (0 <= capacity)%Z ->
    (Z.of_nat (semaphore g) <= capacity)%Z ->
    (Z.of_nat (semaphore (runGate capacity schedule g)) <= capacity)%Z.
Proof.
  induction schedule as [|i rest IH]; intros g Hc Hg; simpl; [exact Hg|].
  apply IH; [exact Hc|].
  unfold gateStep.
  destruct (nth_error (requests g) i) as [[]|]; simpl; try exact Hg.
  - destruct (Z.ltb_spec (Z.of_nat (semaphore g)) capacity); simpl; lia.
  - lia.
Qed.

Lemma runGate_app (capacity : Z) (s1 s2 : list nat) (g : Gate) :
  runGate capacity (s1 ++ s2) g = runGate capacity s2 (runGate capacity s1 g).
Proof. revert g; induction s1 as [|i s1 IH]; intros g; simpl; auto. Qed.

Lemma nth_error_after (l1 l2 : list Place) (p : Place) :
  nth_error (l1 ++ p :: l2) (List.length l1) = Some p.
Proof. induction l1; simpl; auto. Qed.

Lemma setPlace_after (l1 l2 : list Place) (p q : Place) :
  setPlace (List.length l1) q (l1 ++ p :: l2) = l1 ++ q :: l2.
Proof. induction l1 as [|x l1 IH]; simpl; [reflexivity | now rewrite IH]. Qed.

Lemma gateStep_at (capacity : Z) (k : nat) (l1 l2 : list Place) (p : Place)
      (s : nat) (cc : Z) :
  List.length l1 = k ->
  gateStep capacity k {| semaphore := s; currentConnections := cc;
                         requests := l1 ++ p :: l2 |}
  = match p with
    | Arrived =>
        if (Z.of_nat s <? capacity)%Z
        then Some {| semaphore := S s; currentConnections := cc;
                     requests := l1 ++ Acquired :: l2 |}
        else Some {| semaphore := s; currentConnections := cc;
                     requests := l1 ++ Rejected :: l2 |}
    | Acquired =>
        Some {| semaphore := s; currentConnections := atomicAdd cc 1;
                requests := l1 ++ Running :: l2 |}
    | Running =>
        Some {| semaphore := s; currentConnections := cc;
                requests := l1 ++ Exiting :: l2 |}
    | Exiting =>
        Some {| semaphore := pred s; currentConnections := cc;
                requests := l1 ++ Released :: l2 |}
    | Released =>
        Some {| semaphore := s; currentConnections := atomicAdd cc (-1);
                requests := l1 ++ Finished :: l2 |}
    | Finished | Rejected => None
    end.
Proof.
  intros <-; unfold gateStep; cbn [requests semaphore currentConnections].
  rewrite nth_error_after.
  destruct p; rewrite ?setPlace_after; reflexivity.
Qed.

(** The first [k] requests enter a gate with room for at least [k]. *)
Lemma gate_fills (capacity : Z) (n : nat) :
  forall k,
    (k <= n)%nat ->
    (Z.of_nat k <= capacity < 2 ^ 62)%Z ->
    runGate capacity (flat_map (fun i => [i; i]) (seq 0 k)) (initialGate n)
    = {| semaphore := k; currentConnections := Z.of_nat k;
         requests := repeat Running k ++ repeat Arrived (n - k) |}.
Proof.
  induction k as [|k IH]; intros Hk Hc.
  - simpl; now rewrite Nat.sub_0_r.
  - rewrite seq_S, flat_map_app, runGate_app, IH by lia.
    replace (n - k)%nat with (S (n - S k)) by lia.
    cbn [flat_map app runGate repeat Nat.add].
    rewrite (gateStep_at capacity k (repeat Running k) _ Arrived k
               (Z.of_nat k) (repeat_length _ _)).
    destruct (Z.ltb_spec (Z.of_nat k) capacity) as [_|]; [|lia].
    rewrite (gateStep_at capacity k (repeat Running k) _ Acquired (S k)
               (Z.of_nat k) (repeat_length _ _)).
    unfold atomicAdd; rewrite wrap64_small by lia.
    f_equal; [lia|].
    change (Running :: repeat Running k ++ repeat Arrived (n - S k))
      with ((Running :: repeat Running k) ++ repeat Arrived (n - S k)).
    rewrite (repeat_cons k Running), <- app_assoc; reflexivity.
Qed.

(** Whatever the capacity, some interleaving brings the counter above
    it. *)
Lemma counter_overshoots_any_capacity (c : nat) :
  (1 <= c)%nat -> (Z.of_nat c < 2 ^ 62)%Z ->
  currentConnections (runGate (Z.of_nat c) (overshoot c) (initialGate (S c)))
  = (Z.of_nat c + 1)%Z.
Proof.
  intros H1 Hc; unfold overshoot.
  rewrite runGate_app, gate_fills by lia.
  replace (S c - c)%nat with 1%nat by lia.
  destruct c as [|c]; [lia|].
  cbn [repeat app runGate].
  pose proof (fun s cc l2 =>
                gateStep_at (Z.of_nat (S c)) 0 [] l2 Running s cc eq_refl)
    as Hrun.
  pose proof (fun s cc l2 =>
                gateStep_at (Z.of_nat (S c)) 0 [] l2 Exiting s cc eq_refl)
    as Hexit.
  cbn [app] in Hrun, Hexit.
  rewrite Hrun, Hexit; cbn [pred].
  assert (Hlen : List.length (Released :: repeat Running c) = S c)
    by (simpl; now rewrite repeat_length).
  pose proof (fun p s cc =>
                gateStep_at (Z.of_nat (S c)) (S c) _ [] p s cc Hlen) as Hlast.
  cbn [app] in Hlast.
  rewrite (Hlast Arrived).
  destruct (Z.ltb_spec (Z.of_nat c) (Z.of_nat (S c))) as [_|]; [|lia].
  rewrite (Hlast Acquired).
  cbn [currentConnections].
  unfold atomicAdd; rewrite wrap64_small by lia; lia.
Qed.

(** C7.  With room for one connection and two requests, the interleaving
    in which the first request has given its slot back (the receive from
    the channel, first in the deferred function) but has not yet
    decremented the counter, while the second request takes the slot and
    increments the counter, leaves [currentConnections] at 2, above the
    capacity 1. *)
Theorem counter_exceeds_capacity :
  runGate 1 [0; 0; 0; 0; 1; 1]%nat (initialGate 2)
  = {| semaphore := 1; currentConnections := 2;
       requests := [Released; Running] |}
  /\ (currentConnections (runGate 1 [0; 0; 0; 0; 1; 1]%nat (initialGate 2))
      > 1)%Z.
Proof. split; [reflexivity | vm_compute; reflexivity]. Qed.

(** ** C2: the counters of the handler *)

(** Every call adds one to [requestCount], on every path. *)
Lemma chatHandler_counts_request :
  forall cfg unmarshalRequest unmarshalUpstream intOfHugeFloat waitOutOfRange
         call e c0,
    requestCount (hr_counters (chatHandler cfg unmarshalRequest
                                 unmarshalUpstream intOfHugeFloat
                                 waitOutOfRange call e c0))
    = atomicAdd (requestCount c0) 1.
Proof.
  intros; unfold chatHandler.
  destruct (call_body call); [|reflexivity].
  destruct (negb _); [reflexivity|].
  destruct (unmarshalRequest _); [|reflexivity].
  destruct (snd _); [destruct (negb _)| |]; reflexivity.
Qed.

(** The non-streaming path adds the elapsed milliseconds to
    [totalResponseTime]. *)
Lemma chatHandler_nonstream_counters :
  forall cfg unmarshalRequest unmarshalUpstream intOfHugeFloat waitOutOfRange
         call e c0 body chatReq reads,
    call_body call = Some body ->
    TrimSpace (TrimPrefix (call_Authorization call) (bs "Bearer "))
    = defaultKey cfg ->
    unmarshalRequest body = Some chatReq ->
    req_Stream chatReq <> Some true ->
    snd (requestWithRetry cfg intOfHugeFloat waitOutOfRange (henv_attempts e))
    = Dispatched reads ->
    hr_counters (chatHandler cfg unmarshalRequest unmarshalUpstream
                   intOfHugeFloat waitOutOfRange call e c0)
    = {| requestCount := atomicAdd (requestCount c0) 1;
         totalResponseTime := atomicAdd (totalResponseTime c0) (henv_elapsed e);
         errorCount := errorCount c0 |}.
Proof.
  intros cfg uR uU hf wo call e c0 body chatReq reads Hb Hk Hr Hs Hd.
  unfold chatHandler; rewrite Hb, Hk, bytes_eqb_refl, Hr, Hd; simpl.
  destruct (req_Stream chatReq) as [[|]|]; try congruence; reflexivity.
Qed.

(** C2.  On the streaming path, for a request with the right key and a
    well-formed body whose upstream dispatch succeeds, the handler returns
    with [requestCount] one higher and with [totalResponseTime] and
    [errorCount] as they were: the elapsed time is not added, whatever it
    is. *)
Theorem streaming_leaves_response_time :
  forall cfg unmarshalRequest unmarshalUpstream intOfHugeFloat waitOutOfRange
         call e c0 body chatReq reads,
    call_body call = Some body ->
    TrimSpace (TrimPrefix (call_Authorization call) (bs "Bearer "))
    = defaultKey cfg ->
    unmarshalRequest body = Some chatReq ->
    req_Stream chatReq = Some true ->
    snd (requestWithRetry cfg intOfHugeFloat waitOutOfRange (henv_attempts e))
    = Dispatched reads ->
    hr_counters (chatHandler cfg unmarshalRequest unmarshalUpstream
                   intOfHugeFloat waitOutOfRange call e c0)
    = {| requestCount := atomicAdd (requestCount c0) 1;
         totalResponseTime := totalResponseTime c0;
         errorCount := errorCount c0 |}.
Proof.
  intros cfg uR uU hf wo call e c0 body chatReq reads Hb Hk Hr Hs Hd.
  unfold chatHandler; rewrite Hb, Hk, bytes_eqb_refl, Hr, Hd, Hs; reflexivity.
Qed.

Lemma streaming_leaves_response_time_witness :
  henv_elapsed (sampleEnv [oneRead (sseLine doneJSON)]) = 1234%Z /\
  hr_status (chatHandler sampleConfig sampleRequestDecoder sampleUnmarshal
               0 (fun _ _ => 0%Z) (sampleCall (bs "stream"))
               (sampleEnv [oneRead (sseLine doneJSON)]) zeroCounters)
  = Some 200%Z /\
  hr_counters (chatHandler sampleConfig sampleRequestDecoder sampleUnmarshal
                 0 (fun _ _ => 0%Z) (sampleCall (bs "stream"))
                 (sampleEnv [oneRead (sseLine doneJSON)]) zeroCounters)
  = {| requestCount := 1; totalResponseTime := 0; errorCount := 0 |}.
Proof.
  split; [reflexivity|]; split; [vm_compute; reflexivity|].
  rewrite (streaming_leaves_response_time sampleConfig sampleRequestDecoder
             sampleUnmarshal 0%Z (fun _ _ => 0%Z) (sampleCall (bs "stream"))
             (sampleEnv [oneRead (sseLine doneJSON)]) zeroCounters
             (bs "stream") (sampleRequest defaultModelName true)
             [oneRead (sseLine doneJSON)]);
    reflexivity.
Defined.

(** The paths that answer 400 or 401 add one to [errorCount] and leave
    [totalResponseTime] as it was. *)
Lemma unauthorized_counters :
  hr_status (chatHandler sampleConfig sampleRequestDecoder sampleUnmarshal
               0 (fun _ _ => 0%Z)
               {| call_body := Some (bs "plain");
                  call_Authorization := bs "Bearer wrong";
                  call_flusher := true |}
               (sampleEnv []) zeroCounters) = Some 401%Z /\
  hr_counters (chatHandler sampleConfig sampleRequestDecoder sampleUnmarshal
                 0 (fun _ _ => 0%Z)
                 {| call_body := Some (bs "plain");
                    call_Authorization := bs "Bearer wrong";
                    call_flusher := true |}
                 (sampleEnv []) zeroCounters)
  = {| requestCount := 1; totalResponseTime := 0; errorCount := 1 |}.
Proof. split; vm_compute; reflexivity. Qed.

(** ** The translator: framing of the stream *)

Section TranslatorFacts.

Variable cfg : Config.
Variable unmarshalUpstream : bytes -> option UpstreamData.
Variable clock : nat -> Z.
Variable alive : Z -> bool.

Abbreviation processLine := (processStreamLine cfg unmarshalUpstream clock).
Abbreviation drain := (drainLines cfg unmarshalUpstream clock).
Abbreviation loop := (streamLoop cfg unmarshalUpstream clock alive).
Abbreviation respond :=
  (handleStreamResponse cfg unmarshalUpstream clock alive).

Lemma Follows_refl (st : TState) : streamClosed st = false -> Follows st st.
Proof.
  intros H; repeat split; exists []; rewrite app_nil_r, H; now split.
Qed.

Lemma Follows_trans (a b c : TState) :
  Follows a b -> streamClosed b = false -> Follows b c -> Follows a c.
Proof.
  intros (Ht1 & Hb1 & n1 & Hw1 & Hf1) Hcl (Ht2 & Hb2 & n2 & Hw2 & Hf2).
  split; [congruence|]; split; [congruence|].
  exists (n1 ++ n2); split; [rewrite Hw2, Hw1; now rewrite app_assoc|].
  rewrite Hcl in Hf1; unfold Framed in *.
  destruct (streamClosed c).
  - destruct Hf2 as (pre & -> & Hp); exists (n1 ++ pre); split;
      [now rewrite app_assoc | rewrite forallb_app, Hf1, Hp; reflexivity].
  - rewrite forallb_app, Hf1, Hf2; reflexivity.
Qed.

(** A step that leaves the flags alone and writes one chunk. *)
Lemma emitChunk_Follows (d : Delta) (finish : bytes) (st : TState) :
  streamClosed st = false -> Follows st (emitChunk clock d finish st).
Proof.
  intros H; unfold emitChunk, Follows; simpl.
  repeat split; eexists; split; [reflexivity|]; rewrite H; reflexivity.
Qed.

Lemma emitChunk_open (d : Delta) (finish : bytes) (st : TState) :
  streamClosed (emitChunk clock d finish st) = streamClosed st.
Proof. reflexivity. Qed.

Lemma spliceInitialAnswer_open (u : UpstreamData) (st : TState) :
  streamClosed (spliceInitialAnswer clock u st) = streamClosed st.
Proof.
  unfold spliceInitialAnswer.
  destruct (_ && _); [|reflexivity].
  destruct (Split _ _) as [|? [|content ?]]; try reflexivity.
  destruct (negb _); reflexivity.
Qed.

Lemma spliceInitialAnswer_Follows (u : UpstreamData) (st : TState) :
  streamClosed st = false -> Follows st (spliceInitialAnswer clock u st).
Proof.
  intros H; unfold spliceInitialAnswer.
  destruct (_ && _); [|now apply Follows_refl].
  destruct (Split _ _) as [|? [|content ?]]; try now apply Follows_refl.
  destruct (negb _); [|now apply Follows_refl].
  unfold Follows; simpl.
  repeat split; eexists; split; [reflexivity|]; rewrite H; reflexivity.
Qed.

Lemma emitDelta_open (u : UpstreamData) (st : TState) :
  streamClosed (emitDelta cfg clock u st) = streamClosed st.
Proof.
  unfold emitDelta.
  destruct (negb _); [|reflexivity].
  destruct (bytes_eqb _ _); [destruct (negb _)|]; reflexivity.
Qed.

Lemma emitDelta_Follows (u : UpstreamData) (st : TState) :
  streamClosed st = false -> Follows st (emitDelta cfg clock u st).
Proof.
  intros H; unfold emitDelta.
  destruct (negb _); [|now apply Follows_refl].
  destruct (bytes_eqb _ _); [destruct (negb _)|];
    try now apply Follows_refl.
  all: now apply emitChunk_Follows.
Qed.

Lemma closing_Follows (st : TState) :
  Follows st
    (setStreamClosed (write DoneLine (emitChunk clock emptyDelta (bs "stop") st))).
Proof.
  unfold Follows; simpl; repeat split.
  eexists; split; [rewrite <- app_assoc; reflexivity|].
  exists [SSEChunk (fst (newChunk clock emptyDelta (bs "stop") st))].
  split; reflexivity.
Qed.

Lemma finishOnDone_Follows (u : UpstreamData) (st : TState) :
  streamClosed st = false -> Follows st (finishOnDone clock u st).
Proof.
  intros H; unfold finishOnDone.
  destruct (_ || _); [apply closing_Follows | now apply Follows_refl].
Qed.

(** One line, from a state whose think block flag is down. *)
Lemma processStreamLine_Follows (line : bytes) (st : TState) :
  isInThinkBlock st = false -> streamClosed st = false ->
  Follows st (processLine line st).
Proof.
  intros Ht Hc; unfold processStreamLine.
  destruct (HasPrefix _ _); [|now apply Follows_refl].
  destruct (bytes_eqb _ _).
  - rewrite Ht; simpl.
    unfold Follows; simpl; repeat split.
    eexists; split; [reflexivity|]; exists []; split; reflexivity.
  - destruct (negb _); [|now apply Follows_refl].
    destruct (unmarshalUpstream _) as [u|]; [|now apply Follows_refl].
    destruct (hasUpstreamError u); [apply closing_Follows|].
    eapply Follows_trans;
      [apply spliceInitialAnswer_Follows, Hc
      | now rewrite spliceInitialAnswer_open |].
    eapply Follows_trans;
      [apply emitDelta_Follows; now rewrite spliceInitialAnswer_open
      | now rewrite emitDelta_open, spliceInitialAnswer_open |].
    apply finishOnDone_Follows.
    now rewrite emitDelta_open, spliceInitialAnswer_open.
Qed.

(** No line assigns the two think variables, whatever their values. *)
Lemma processStreamLine_think_flags (line : bytes) (st : TState) :
  isInThinkBlock (processLine line st) = isInThinkBlock st /\
  bufferedThinkContent (processLine line st) = bufferedThinkContent st.
Proof.
  unfold processStreamLine.
  destruct (HasPrefix _ _); [|now split].
  destruct (bytes_eqb _ _).
  - destruct (_ && _); now split.
  - destruct (negb _); [|now split].
    destruct (unmarshalUpstream _) as [u|]; [|now split].
    destruct (hasUpstreamError u); [now split|].
    unfold finishOnDone, emitDelta, spliceInitialAnswer.
    repeat match goal with
           | |- context [if ?b then _ else _] => destruct b
           | |- context [match Split ?a ?b with _ => _ end] =>
               destruct (Split a b) as [|? [|? ?]]
           end; now split.
Qed.

Lemma drainLines_Follows (buf : bytes) :
  forall cur st,
    isInThinkBlock st = false -> streamClosed st = false ->
    Follows st (snd (drain buf cur st)).
Proof.
  induction buf as [|c t IH]; intros cur st Ht Hc; simpl.
  - now apply Follows_refl.
  - destruct (Ascii.eqb c LF); [|now apply IH].
    rewrite Hc.
    pose proof (processStreamLine_Follows (rev cur) st Ht Hc) as HF.
    destruct (streamClosed (processLine (rev cur) st)) eqn:E;
      [exact HF|].
    eapply Follows_trans; [exact HF | exact E |].
    apply IH; [|exact E].
    destruct HF as (Ht' & _); congruence.
Qed.

Lemma streamLoop_Follows (reads : list ReadResult) :
  forall lineBuffer checkCounter st,
    isInThinkBlock st = false -> streamClosed st = false ->
    Follows st (snd (loop reads lineBuffer checkCounter st)).
Proof.
  induction reads as [|r rest IH]; intros lb cc st Ht Hc; simpl; rewrite Hc.
  - destruct (_ && _); [now apply Follows_refl|].
    destruct (_ && _); [now apply Follows_refl|]; simpl.
    destruct (negb (isEmpty lb) && true);
      [now apply processStreamLine_Follows | now apply Follows_refl].
  - destruct (_ && _); [now apply Follows_refl|].
    destruct (_ && _); [now apply Follows_refl|].
    assert (HD : forall p : bytes * TState,
               p = (if isEmpty (rd_data r) then (lb, st)
                    else drain (guardLineBuffer (lb ++ rd_data r)) [] st) ->
               Follows st (snd p)).
    { intros p ->; destruct (isEmpty (rd_data r)); simpl;
        [now apply Follows_refl | now apply drainLines_Follows]. }
    specialize (HD _ eq_refl).
    destruct (if isEmpty (rd_data r) then (lb, st) else _) as [lb1 st1];
      simpl in HD.
    assert (Ht1 : isInThinkBlock st1 = false)
      by (destruct HD as (E & _); congruence).
    destruct (streamClosed st1) eqn:E1.
    + destruct (rd_err r) as [[|]|]; simpl; try exact HD.
      * rewrite andb_false_r; exact HD.
      * destruct rest; simpl; rewrite E1; exact HD.
    + destruct (rd_err r) as [[|]|]; simpl; try exact HD.
      * destruct (negb (isEmpty lb1) && true); [|exact HD].
        eapply Follows_trans; [exact HD | exact E1 |].
        now apply processStreamLine_Follows.
      * eapply Follows_trans; [exact HD | exact E1 | now apply IH].
Qed.

(** The whole response: the opener, then a well framed stretch. *)
Lemma handleStreamResponse_shape (reads : list ReadResult) :
  let st := sr_state (respond true reads) in
  isInThinkBlock st = false /\
  bufferedThinkContent st = [] /\
  exists news,
    written st
    = SSEChunk (fst (newChunk clock roleDelta [] initialState)) :: news
    /\ Framed (streamClosed st) news.
Proof.
  unfold handleStreamResponse; simpl negb; cbv iota.
  pose proof (streamLoop_Follows reads [] 0%Z
                (emitChunk clock roleDelta [] initialState)
                eq_refl eq_refl) as HF.
  destruct (loop reads [] 0%Z (emitChunk clock roleDelta [] initialState))
    as [ex st1]; simpl in HF.
  destruct HF as (Ht & Hb & news & Hw & Hf).
  simpl in Ht, Hb, Hw.
  destruct ex; simpl; [rewrite Ht; simpl|]; repeat split; try assumption;
    exists news; split; assumption.
Qed.

End TranslatorFacts.

Lemma Framed_countDone (closed : bool) (news : list Write) :
  Framed closed news -> countDone news = if closed then 1%nat else 0%nat.
Proof.
  assert (H0 : forall l, forallb isSSEChunk l = true -> countDone l = 0%nat).
  { unfold countDone; induction l as [|w l IH]; simpl; [reflexivity|].
    intros H; apply andb_true_iff in H as [Hw Hl].
    destruct w; try discriminate; simpl; now apply IH. }
  unfold Framed; destruct closed.
  - intros (pre & -> & Hp); unfold countDone in *.
    rewrite filter_app, length_app; simpl; rewrite (H0 _ Hp); reflexivity.
  - apply H0.
Qed.

Lemma Framed_no_think (closed : bool) (news : list Write) :
  Framed closed news ->
  forallb (fun w => negb (isThinkChunk w)) news = true.
Proof.
  assert (H0 : forall l, forallb isSSEChunk l = true ->
                         forallb (fun w => negb (isThinkChunk w)) l = true).
  { induction l as [|w l IH]; simpl; [reflexivity|].
    intros H; apply andb_true_iff in H as [Hw Hl].
    destruct w; try discriminate; simpl; now apply IH. }
  unfold Framed; destruct closed.
  - intros (pre & -> & Hp); rewrite forallb_app, (H0 _ Hp); reflexivity.
  - apply H0.
Qed.

(** ** C6: the opener *)

(** C6.  In every streaming response the first frame written is a chunk
    whose only choice has the delta [role = "assistant"] with no content
    and no reasoning content, and no finish reason; every other frame
    (content, reasoning, finish, terminal line) comes after it. *)
Theorem opener_is_first_frame :
  forall cfg unmarshalUpstream clock alive reads,
  exists opener rest,
    written (sr_state (handleStreamResponse cfg unmarshalUpstream clock alive
                         true reads))
    = SSEChunk opener :: rest /\
    resp_Choices opener
    = [ {| ch_Index := 0; ch_Message := emptyMessage;
           ch_Delta := {| d_Role := bs "assistant"; d_Content := [];
                          d_ReasoningContent := [] |};
           ch_FinishReason := [] |} ].
Proof.
  intros cfg uU clock alive reads.
  destruct (handleStreamResponse_shape cfg uU clock alive reads)
    as (_ & _ & news & Hw & _).
  eexists; exists news; split; [exact Hw | reflexivity].
Qed.

(** ** C9: the think block variables *)

(** C9.  No line assigns [isInThinkBlock] or [bufferedThinkContent],
    whatever their values; so in every translation they end as they
    start, false and empty, and no frame of the response is written by
    [sendThinkContentSafe]. *)
Theorem think_buffer_never_used :
  forall cfg unmarshalUpstream clock alive,
    (forall line st,
        isInThinkBlock (processStreamLine cfg unmarshalUpstream clock line st)
        = isInThinkBlock st /\
        bufferedThinkContent
          (processStreamLine cfg unmarshalUpstream clock line st)
        = bufferedThinkContent st) /\
    (forall flusher reads,
        let st := sr_state (handleStreamResponse cfg unmarshalUpstream clock
                              alive flusher reads) in
        isInThinkBlock st = false /\
        bufferedThinkContent st = [] /\
        forallb (fun w => negb (isThinkChunk w)) (written st) = true).
Proof.
  intros cfg uU clock alive; split.
  - apply processStreamLine_think_flags.
  - intros [|] reads; [|repeat split].
    destruct (handleStreamResponse_shape cfg uU clock alive reads)
      as (Ht & Hb & news & Hw & Hf).
    cbv zeta; rewrite Hw; repeat split; try assumption.
    simpl; eapply Framed_no_think; exact Hf.
Qed.

(** ** The lines that close the stream *)

(** A line closes the stream exactly when it is the [[DONE]] sentinel or
    an event with an error, a done flag or a done phase. *)
Lemma processStreamLine_closes :
  forall cfg unmarshalUpstream clock line st,
    streamClosed st = false ->
    streamClosed (processStreamLine cfg unmarshalUpstream clock line st) = true ->
    HasPrefix (TrimSpace line) (bs "data: ") = true /\
    (TrimSpace (skipn 6 (TrimSpace line)) = bs "[DONE]" \/
     exists u,
       unmarshalUpstream (TrimSpace (skipn 6 (TrimSpace line))) = Some u /\
       (hasUpstreamError u = true \/ Done (ud_Data u) = true
        \/ Phase (ud_Data u) = bs "done")).
Proof.
  intros cfg uU clock line st Hc; unfold processStreamLine.
  destruct (HasPrefix _ _); [|congruence].
  destruct (bytes_eqb _ _) eqn:Ed.
  - intros _; split; [reflexivity|]; left; now apply bytes_eqb_eq.
  - destruct (negb _); [|congruence].
    destruct (uU _) as [u|]; [|congruence].
    intros H; split; [reflexivity|]; right; exists u; split; [reflexivity|].
    destruct (hasUpstreamError u); [now left|]; right.
    unfold finishOnDone in H.
    destruct (Done (ud_Data u)); [now left|]; right.
    destruct (bytes_eqb (Phase (ud_Data u)) (bs "done")) eqn:Ep;
      [now apply bytes_eqb_eq|].
    simpl in H.
    rewrite emitDelta_open, spliceInitialAnswer_open in H; congruence.
Qed.

(** ** C5: the routing of delta content *)

Lemma finishOnDone_written (clock : nat -> Z) (u : UpstreamData) (st : TState) :
  exists post,
    written (finishOnDone clock u st) = written st ++ post /\
    (post = [] \/ exists f, post = [SSEChunk f; DoneLine]).
Proof.
  unfold finishOnDone; destruct (_ || _); simpl.
  - eexists; split; [rewrite <- app_assoc; reflexivity|].
    right; eexists; reflexivity.
  - exists []; split; [now rewrite app_nil_r | now left].
Qed.




(** ** C3: the sleeps of the dispatcher *)

Section DispatcherFacts.

Variable cfg : Config.
Variable intOfHugeFloat : Z.
Variable waitOutOfRange : Z -> Z -> Z.
Variable env : nat -> AttemptEnv.
Hypothesis inRange : delaysInRange cfg.

Lemma backoffDelay_exact (i : nat) :
  (Z.of_nat i < maxRetries cfg)%Z ->
  backoffDelay cfg intOfHugeFloat (Z.of_nat i)
  = (retryDelay cfg * 2 ^ Z.of_nat i * 1000000)%Z.
Proof.
  destruct inRange as (Hd & Hb & _ & _); intros Hi.
  unfold backoffDelay, milliseconds.
  assert (Hpow : (0 < 2 ^ Z.of_nat i <= 2 ^ maxRetries cfg)%Z).
  { split; [apply Z.pow_pos_nonneg; lia|apply Z.pow_le_mono_r; lia]. }
  destruct (Z.eq_dec (retryDelay cfg) 0) as [E|E].
  - rewrite E, !Z.mul_0_l; reflexivity.
  - assert (Hprod : (retryDelay cfg * 2 ^ Z.of_nat i
                     <= retryDelay cfg * 2 ^ maxRetries cfg)%Z)
      by (apply Z.mul_le_mono_nonneg_l; lia).
    assert (Hge : (2 ^ Z.of_nat i <= retryDelay cfg * 2 ^ Z.of_nat i)%Z)
      by (rewrite <- (Z.mul_1_l (2 ^ Z.of_nat i)) at 1;
          apply Z.mul_le_mono_nonneg_r; lia).
    assert (Hlt : (2 ^ Z.of_nat i < 2 ^ 63)%Z) by lia.
    assert (Hi62 : (Z.of_nat i <= 62)%Z).
    { apply Z.pow_lt_mono_r_iff in Hlt; lia. }
    assert (H0 : (0 <= retryDelay cfg * 2 ^ Z.of_nat i)%Z)
      by (apply Z.mul_nonneg_nonneg; lia).
    unfold pow2int; apply Z.leb_le in Hi62; rewrite Hi62.
    rewrite (wrap64_small (retryDelay cfg * 2 ^ Z.of_nat i)) by lia.
    rewrite wrap64_small by lia; reflexivity.
Qed.

Lemma randomDelay_exact (draw : Z) :
  randomDelay cfg draw
  = if (randomDelayMin cfg <? randomDelayMax cfg)%Z
    then Some (Some ((draw mod (randomDelayMax cfg - randomDelayMin cfg)
                      + randomDelayMin cfg) * 1000000)%Z)
    else Some None.
Proof.
  destruct inRange as (_ & _ & Hmin & Hmax).
  unfold randomDelay.
  destruct (Z.ltb_spec (randomDelayMin cfg) (randomDelayMax cfg)) as [Hlt|];
    [|reflexivity].
  rewrite (wrap64_small (randomDelayMax cfg - randomDelayMin cfg)) by lia.
  destruct (Z.leb_spec (randomDelayMax cfg - randomDelayMin cfg) 0); [lia|].
  pose proof (Z.mod_pos_bound draw (randomDelayMax cfg - randomDelayMin cfg)
                ltac:(lia)) as Hm.
  unfold milliseconds.
  rewrite (wrap64_small (draw mod (randomDelayMax cfg - randomDelayMin cfg)
                         + randomDelayMin cfg)) by lia.
  rewrite wrap64_small by lia; reflexivity.
Qed.

Abbreviation jitterOf := (jitterOf cfg env).
Abbreviation goodTrace := (goodTrace cfg env).

Lemma split_before_attempt (l1 l2 pre post : list RetryEvent) (a : nat) :
  forallb (fun e => negb (isAttempt e)) l1 = true ->
  pre ++ Attempt a :: post = l1 ++ l2 ->
  exists pre2, pre = l1 ++ pre2 /\ l2 = pre2 ++ Attempt a :: post.
Proof.
  revert pre; induction l1 as [|e l1 IH]; intros pre Hl H; simpl in *.
  - exists pre; split; [reflexivity | now symmetry].
  - apply andb_true_iff in Hl as [He Hl].
    destruct pre as [|p pre]; simpl in H.
    + injection H as <- _; discriminate.
    + injection H as -> H.
      destruct (IH pre Hl H) as (pre2 & -> & ->).
      exists pre2; split; reflexivity.
Qed.

Lemma preamble_no_attempt (i : nat) (j : option Z) :
  forallb (fun e => negb (isAttempt e)) (preamble cfg i j) = true.
Proof. unfold preamble; destruct (0 <? i)%nat, j; reflexivity. Qed.


Lemma goodTrace_quiet (l : list RetryEvent) :
  forallb (fun e => negb (isAttempt e)) l = true -> goodTrace l.
Proof.
  intros Hl pre a post E; exfalso.
  rewrite E, forallb_app in Hl; simpl in Hl.
  now rewrite andb_false_r in Hl.
Qed.

Lemma goodTrace_after_quiet (l tr : list RetryEvent) :
  forallb (fun e => negb (isAttempt e)) l = true ->
  goodTrace tr -> goodTrace (l ++ tr).
Proof.
  intros Hl Htr pre a post E; symmetry in E.
  destruct (split_before_attempt _ _ _ _ _ Hl E) as (pre2 & -> & Etr).
  destruct (Htr _ _ _ Etr) as (pre' & ->).
  exists (l ++ pre'); now rewrite app_assoc.
Qed.

Lemma goodTrace_turn (P tr : list RetryEvent) (i : nat) :
  P = preamble cfg i (jitterOf i) ->
  goodTrace tr -> goodTrace (P ++ Attempt i :: tr).
Proof.
  intros -> Htr pre a post E; symmetry in E.
  destruct (split_before_attempt _ _ _ _ _ (preamble_no_attempt _ _) E)
    as (pre2 & -> & Etr).
  destruct pre2 as [|e pre3]; simpl in Etr.
  - injection Etr as Ei _; subst a; exists []; now rewrite app_nil_r.
  - injection Etr as Ee Etr; subst e.
    destruct (Htr _ _ _ Etr) as (pre' & ->).
    exists (preamble cfg i (jitterOf i) ++ Attempt i :: pre').
    now rewrite <- app_assoc.
Qed.

Lemma retryLoop_goodTrace (k : nat) :
  forall i lastErr,
    (Z.of_nat (i + k) <= Z.max 0 (maxRetries cfg))%Z ->
    goodTrace
      (fst (retryLoop cfg intOfHugeFloat waitOutOfRange env k i lastErr)).
Proof.
  induction k as [|k IH]; intros i lastErr Hik.
  - now apply goodTrace_quiet.
  - assert (Hi : (Z.of_nat i < maxRetries cfg)%Z) by lia.
    assert (Hk : (Z.of_nat (S i + k) <= Z.max 0 (maxRetries cfg))%Z) by lia.
    simpl retryLoop.
    rewrite (backoffDelay_exact i Hi), randomDelay_exact.
    destruct ((0 <? i)%nat && backoffCancelled (env i)).
    { apply goodTrace_quiet; simpl; destruct (0 <? i)%nat; reflexivity. }
    assert (Hpre : forall d,
               jitterOf i = d ->
               (if (0 <? i)%nat
                then [Backoff i (retryDelay cfg * 2 ^ Z.of_nat i * 1000000)]
                else [])
               ++ match d with
                  | Some x => [Jitter i (x * 1000000)]
                  | None => []
                  end = preamble cfg i (jitterOf i))
      by (intros d <-; reflexivity).
    assert (Hj : jitterOf i
                 = if (randomDelayMin cfg <? randomDelayMax cfg)%Z
                   then Some (jitterDraw (env i)
                              mod (randomDelayMax cfg - randomDelayMin cfg)
                              + randomDelayMin cfg)%Z
                   else None) by reflexivity.
    destruct (randomDelayMin cfg <? randomDelayMax cfg)%Z.
    all: specialize (Hpre _ Hj); clear Hj.
    all: destruct (outcome (env i)) as [| |status body].
    all: try destruct (status =? 200)%Z.
    all: try destruct ((status =? 429)%Z || (status =? 403)%Z).
    all: try destruct (waitCancelled (env i)).
    all: repeat match goal with
           | |- context [retryLoop ?c ?h ?w ?e ?k0 ?i0 ?le] =>
               let tr := fresh "tr" in
               let r := fresh "r" in
               let E := fresh "E" in
               pose proof (IH i0 le Hk) as E;
               destruct (retryLoop c h w e k0 i0 le) as [tr r];
               simpl fst in E
           end.
    all: simpl fst.
    all: try (apply goodTrace_turn; [exact Hpre|]).
    all: try (apply goodTrace_after_quiet;
              [rewrite Hpre; apply preamble_no_attempt | assumption]).
    all: try assumption.
    all: try (apply goodTrace_quiet; reflexivity).
    all: try (apply (goodTrace_after_quiet [_]); [reflexivity | assumption]).
Qed.

Abbreviation exactTrace := (exactTrace cfg env).

Lemma preamble_turn (i : nat) (j : option Z) :
  Forall (fun e => turnOf e = i) (preamble cfg i j).
Proof. unfold preamble; destruct (0 <? i)%nat, j; repeat constructor. Qed.

Lemma exactTrace_quiet (lo : nat) (l : list RetryEvent) :
  forallb (fun e => negb (isAttempt e)) l = true -> exactTrace lo l.
Proof.
  intros Hl pre a post E; exfalso.
  rewrite E, forallb_app in Hl; simpl in Hl.
  now rewrite andb_false_r in Hl.
Qed.

Lemma exactTrace_skip (i : nat) (l tr : list RetryEvent) :
  forallb (fun e => negb (isAttempt e)) l = true ->
  Forall (fun e => turnOf e = i) l ->
  exactTrace (S i) tr -> exactTrace i (l ++ tr).
Proof.
  intros Hl Hi Htr pre a post E; symmetry in E.
  destruct (split_before_attempt _ _ _ _ _ Hl E) as (pre2 & -> & Etr).
  destruct (Htr _ _ _ Etr) as (Ha & earlier & -> & He).
  split; [lia|]. exists (l ++ earlier); split; [now rewrite app_assoc|].
  apply Forall_app; split.
  - eapply Forall_impl; [|exact Hi]. cbn; intros e Ee; lia.
  - eapply Forall_impl; [|exact He]. cbn; intros e Ee; lia.
Qed.

Lemma exactTrace_turn (P l2 tr : list RetryEvent) (i : nat) :
  P = preamble cfg i (jitterOf i) ->
  forallb (fun e => negb (isAttempt e)) l2 = true ->
  Forall (fun e => turnOf e = i) l2 ->
  exactTrace (S i) tr -> exactTrace i (P ++ Attempt i :: l2 ++ tr).
Proof.
  intros -> Hq Hi Htr pre a post E; symmetry in E.
  destruct (split_before_attempt _ _ _ _ _ (preamble_no_attempt _ _) E)
    as (pre2 & -> & Etr).
  destruct pre2 as [|e pre3]; simpl in Etr.
  - injection Etr as Ei _; subst a. split; [lia|].
    exists []; split; [now rewrite app_nil_r|constructor].
  - injection Etr as Ee Etr; subst e. symmetry in Etr.
    destruct (split_before_attempt _ _ _ _ _ Hq Etr) as (pre4 & -> & Etr2).
    destruct (Htr _ _ _ Etr2) as (Ha & earlier & -> & He).
    split; [lia|].
    exists (preamble cfg i (jitterOf i) ++ Attempt i :: l2 ++ earlier).
    split; [now rewrite <- app_assoc, <- app_comm_cons, <- app_assoc|].
    apply Forall_app; split.
    + eapply Forall_impl; [|apply preamble_turn]. cbn; intros e Ee; lia.
    + constructor; [cbn; lia|].
      apply Forall_app; split.
      * eapply Forall_impl; [|exact Hi]. cbn; intros e Ee; lia.
      * eapply Forall_impl; [|exact He]. cbn; intros e Ee; lia.
Qed.

Lemma retryLoop_exactTrace (k : nat) :
  forall i lastErr,
    (Z.of_nat (i + k) <= Z.max 0 (maxRetries cfg))%Z ->
    exactTrace i
      (fst (retryLoop cfg intOfHugeFloat waitOutOfRange env k i lastErr)).
Proof.
  induction k as [|k IH]; intros i lastErr Hik.
  - now apply exactTrace_quiet.
  - assert (Hi : (Z.of_nat i < maxRetries cfg)%Z) by lia.
    assert (Hk : (Z.of_nat (S i + k) <= Z.max 0 (maxRetries cfg))%Z) by lia.
    simpl retryLoop.
    rewrite (backoffDelay_exact i Hi), randomDelay_exact.
    destruct ((0 <? i)%nat && backoffCancelled (env i)).
    { apply exactTrace_quiet; simpl; destruct (0 <? i)%nat; reflexivity. }
    assert (Hpre : forall d,
               jitterOf i = d ->
               (if (0 <? i)%nat
                then [Backoff i (retryDelay cfg * 2 ^ Z.of_nat i * 1000000)]
                else [])
               ++ match d with
                  | Some x => [Jitter i (x * 1000000)]
                  | None => []
                  end = preamble cfg i (jitterOf i))
      by (intros d <-; reflexivity).
    assert (Hj : jitterOf i
                 = if (randomDelayMin cfg <? randomDelayMax cfg)%Z
                   then Some (jitterDraw (env i)
                              mod (randomDelayMax cfg - randomDelayMin cfg)
                              + randomDelayMin cfg)%Z
                   else None) by reflexivity.
    destruct (randomDelayMin cfg <? randomDelayMax cfg)%Z.
    all: specialize (Hpre _ Hj); clear Hj.
    all: destruct (outcome (env i)) as [| |status body].
    all: try destruct (status =? 200)%Z.
    all: try destruct ((status =? 429)%Z || (status =? 403)%Z).
    all: try destruct (waitCancelled (env i)).
    all: repeat match goal with
           | |- context [retryLoop ?c ?h ?w ?e ?k0 ?i0 ?le] =>
               let tr := fresh "tr" in
               let r := fresh "r" in
               let E := fresh "E" in
               pose proof (IH i0 le Hk) as E;
               destruct (retryLoop c h w e k0 i0 le) as [tr r];
               simpl fst in E
           end.
    all: simpl fst.
    all: first
           [ rewrite Hpre; apply exactTrace_skip;
             [apply preamble_no_attempt|apply preamble_turn|assumption]
           | apply (exactTrace_turn _ [] _ i Hpre);
             [reflexivity|constructor|assumption]
           | apply (exactTrace_turn _ [] [] i Hpre);
             [reflexivity|constructor|now apply exactTrace_quiet]
           | apply (exactTrace_turn _ [_] _ i Hpre);
             [reflexivity|repeat constructor|assumption]
           | apply (exactTrace_turn _ [_] [] i Hpre);
             [reflexivity|repeat constructor|now apply exactTrace_quiet] ].
Qed.

End DispatcherFacts.

(** C3, as the program has it.  Turns of the loop are numbered from 0, so
    the turn [i] is the attempt [i + 1].  For a configuration whose delays
    do not overflow, the events of a turn that come before its request
    are exactly these: unless the turn is the first, a back-off sleep of
    exactly [retryDelay * 2 ^ i] milliseconds; then, on every turn, the
    first included, a jitter sleep when [randomDelayMin < randomDelayMax],
    of the whole number of milliseconds [draw mod (max - min) + min],
    which lies in the half-open interval from [randomDelayMin] to
    [randomDelayMax]; and no jitter sleep when
    [randomDelayMax <= randomDelayMin].  Everything earlier in the trace
    belongs to an earlier turn, so no back-off comes before the first
    request: the jitter is all that comes before it. *)
Theorem sleeps_before_each_attempt :
  forall cfg intOfHugeFloat waitOutOfRange env pre i post,
    delaysInRange cfg ->
    fst (requestWithRetry cfg intOfHugeFloat waitOutOfRange env)
    = pre ++ Attempt i :: post ->
    (exists earlier,
        pre = earlier ++ preamble cfg i (jitterOf cfg env i) /\
        Forall (fun e => (turnOf e < i)%nat) earlier) /\
    (i = 0%nat ->
     pre = match jitterOf cfg env 0 with
           | Some j => [Jitter 0 (j * 1000000)]
           | None => []
           end) /\
    match jitterOf cfg env i with
    | Some j =>
        (randomDelayMin cfg < randomDelayMax cfg)%Z /\
        j = (jitterDraw (env i) mod (randomDelayMax cfg - randomDelayMin cfg)
             + randomDelayMin cfg)%Z /\
        (randomDelayMin cfg <= j < randomDelayMax cfg)%Z
    | None => (randomDelayMax cfg <= randomDelayMin cfg)%Z
    end.
Proof.
  intros cfg hf wo env pre i post Hr H.
  destruct (retryLoop_exactTrace cfg hf wo env Hr (Z.to_nat (maxRetries cfg))
              0%nat None ltac:(lia) pre i post H)
    as (_ & earlier & Hpre & He).
  split; [|split].
  - exists earlier; split; [exact Hpre|].
    eapply Forall_impl; [|exact He]. cbn; intros e Ee; lia.
  - intros ->. rewrite Hpre.
    destruct earlier as [|e earlier]; [reflexivity|].
    inversion He as [|? ? Ee _]. lia.
  - unfold jitterOf.
    destruct (Z.ltb_spec (randomDelayMin cfg) (randomDelayMax cfg)) as [Hlt|Hge];
      [|exact Hge].
    split; [exact Hlt|]; split; [reflexivity|].
    pose proof (Z.mod_pos_bound (jitterDraw (env i))
                  (randomDelayMax cfg - randomDelayMin cfg) ltac:(lia)).
    lia.
Qed.

Lemma sleeps_before_each_attempt_witness :
  delaysInRange sampleConfig /\
  fst (requestWithRetry sampleConfig 0 (fun _ _ => 0%Z) (answerThenOK 500))
  = [Jitter 0 107000000; Attempt 0; Backoff 1 2000000000; Jitter 1 107000000;
     Attempt 1] /\
  exists earlier,
    [Jitter 0 107000000; Attempt 0; Backoff 1 2000000000; Jitter 1 107000000]
    = earlier ++ [Backoff 1 2000000000; Jitter 1 107000000] /\
    Forall (fun e => (turnOf e < 1)%nat) earlier.
Proof.
  assert (Hr : delaysInRange sampleConfig)
    by (repeat split; vm_compute; congruence).
  split; [exact Hr|]; split; [vm_compute; reflexivity|].
  destruct (sleeps_before_each_attempt sampleConfig 0%Z (fun _ _ => 0%Z)
              (answerThenOK 500)
              [Jitter 0 107000000; Attempt 0; Backoff 1 2000000000;
               Jitter 1 107000000] 1%nat [] Hr
              ltac:(vm_compute; reflexivity)) as [(earlier & H & He) _].
  exists earlier; split; [vm_compute in H; exact H|exact He].
Defined.

(** C3 fails as stated.  With the balanced defaults a jitter sleep of
    107 ms comes before the first request, and no draw gives a jitter of
    [randomDelayMax], 500 ms, the upper end of the closed interval; with
    both ends of the jitter at 100 ms no jitter sleep comes after the
    back-off of the second request, where the claim has a sleep of 100 ms;
    and with a retry delay of 5 * 10^12 ms the back-off before the second
    request is not 10^13 ms: the duration wraps around. *)
Lemma jitter_before_first_attempt :
  fst (requestWithRetry sampleConfig 0 (fun _ _ => 0%Z) (answerThenOK 200))
  = [Jitter 0 107000000; Attempt 0] /\
  (forall draw, randomDelay sampleConfig draw <> Some (Some 500000000%Z)) /\
  fst (requestWithRetry fixedJitterConfig 0 (fun _ _ => 0%Z) (answerThenOK 500))
  = [Attempt 0; Backoff 1 2000000000; Attempt 1] /\
  fst (requestWithRetry hugeDelayConfig 0 (fun _ _ => 0%Z) (answerThenOK 500))
  = [Jitter 0 107000000; Attempt 0; Backoff 1 (-8446744073709551616);
     Jitter 1 107000000; Attempt 1].
Proof.
  split; [vm_compute; reflexivity|].
  split; [|split; vm_compute; reflexivity].
  intros draw.
  rewrite (randomDelay_exact sampleConfig
             ltac:(repeat split; vm_compute; congruence) draw).
  change (randomDelayMin sampleConfig) with 100%Z.
  change (randomDelayMax sampleConfig) with 500%Z.
  change (100 <? 500)%Z with true. cbv iota.
  intros H. injection H as H.
  pose proof (Z.mod_pos_bound draw 400 ltac:(lia)). lia.
Qed.

(** ** Trimming *)

Section TrimHead.

Variable sp2 : ascii -> ascii -> bool.
Variable sp3 : ascii -> ascii -> ascii -> bool.

Lemma trimHead_clear (s : bytes) :
  headClear sp2 sp3 s = true -> trimHead sp2 sp3 s = s.
Proof.
  destruct s as [|c1 [|c2 [|c3 t]]]; simpl; intros H; try reflexivity;
    repeat (apply andb_true_iff in H as [? H]);
    repeat match goal with
           | E : negb ?b = true |- _ => apply negb_true_iff in E; rewrite E
           end;
    try (apply negb_true_iff in H; rewrite H); reflexivity.
Qed.

Lemma trimHead_spec (n : nat) :
  forall s,
    (List.length s <= n)%nat ->
    headClear sp2 sp3 (trimHead sp2 sp3 s) = true /\
    exists a, s = a ++ trimHead sp2 sp3 s.
Proof.
  induction n as [|n IH]; intros s Hn.
  - destruct s; [|simpl in Hn; lia]. split; [reflexivity | now exists []].
  - destruct s as [|c1 t1]; [split; [reflexivity | now exists []]|].
    simpl in Hn.
    cbn [trimHead].
    destruct (isSpace1 c1) eqn:E1.
    { destruct (IH t1 ltac:(lia)) as (Hc & a & Ha).
      split; [exact Hc|]; exists (c1 :: a); simpl; now rewrite <- Ha. }
    destruct t1 as [|c2 t2].
    { split; [simpl; now rewrite E1 | now exists []]. }
    simpl in Hn.
    destruct (sp2 c1 c2) eqn:E2.
    { destruct (IH t2 ltac:(lia)) as (Hc & a & Ha).
      split; [exact Hc|]; exists (c1 :: c2 :: a); simpl; now rewrite <- Ha. }
    destruct t2 as [|c3 t3].
    { split; [simpl; now rewrite E1, E2 | now exists []]. }
    simpl in Hn.
    destruct (sp3 c1 c2 c3) eqn:E3.
    { destruct (IH t3 ltac:(lia)) as (Hc & a & Ha).
      split; [exact Hc|]; exists (c1 :: c2 :: c3 :: a); simpl;
        now rewrite <- Ha. }
    split; [simpl; now rewrite E1, E2, E3 | now exists []].
Qed.

Lemma trimHead_headClear (s : bytes) :
  headClear sp2 sp3 (trimHead sp2 sp3 s) = true.
Proof. apply (trimHead_spec (List.length s) s (le_n _)). Qed.

Lemma trimHead_suffix (s : bytes) : exists a, s = a ++ trimHead sp2 sp3 s.
Proof. apply (trimHead_spec (List.length s) s (le_n _)). Qed.

Lemma trimHead_idem (s : bytes) :
  trimHead sp2 sp3 (trimHead sp2 sp3 s) = trimHead sp2 sp3 s.
Proof. apply trimHead_clear, trimHead_headClear. Qed.

Lemma headClear_app_l (p q : bytes) :
  headClear sp2 sp3 (p ++ q) = true -> headClear sp2 sp3 p = true.
Proof.
  destruct p as [|c1 [|c2 [|c3 t]]]; simpl; intros H; try reflexivity.
  - apply andb_true_iff in H as [-> _]; reflexivity.
  - apply andb_true_iff in H as [-> H].
    destruct q; simpl in *; [exact H|].
    apply andb_true_iff in H as [-> _]; reflexivity.
  - exact H.
Qed.

(** A head byte that is plain ASCII and no white space keeps the head
    clear, when the recognisers accept only bytes from 128 up in the
    first place. *)
Lemma headClear_ascii (c : ascii) (t : bytes) :
  (forall a b, sp2 a b = true -> (128 <= byteval a)%N) ->
  (forall a b d, sp3 a b d = true -> (128 <= byteval a)%N) ->
  isSpace1 c = false -> (byteval c < 128)%N ->
  headClear sp2 sp3 (c :: t) = true.
Proof.
  intros H2 H3 H1 Hc; simpl; rewrite H1; simpl.
  destruct t as [|c2 [|c3 t]]; [reflexivity| |].
  - destruct (sp2 c c2) eqn:E; [apply H2 in E; lia | reflexivity].
  - destruct (sp2 c c2) eqn:E; [apply H2 in E; lia |].
    destruct (sp3 c c2 c3) eqn:E'; [apply H3 in E'; lia | reflexivity].
Qed.

End TrimHead.

Lemma isSpace2_high (a b : ascii) :
  isSpace2 a b = true -> (128 <= byteval a)%N /\ (128 <= byteval b)%N.
Proof.
  unfold isSpace2; intros H.
  apply andb_true_iff in H as [Ha Hb].
  apply N.eqb_eq in Ha; apply orb_true_iff in Hb as [Hb|Hb];
    apply N.eqb_eq in Hb; lia.
Qed.

Lemma isSpace3_high (a b c : ascii) :
  isSpace3 a b c = true ->
  (128 <= byteval a)%N /\ (128 <= byteval b)%N /\ (128 <= byteval c)%N.
Proof.
  unfold isSpace3; cbv zeta; intros H.
  repeat match type of H with
         | (_ || _)%bool = true => apply orb_true_iff in H as [H|H]
         end;
    repeat match goal with
           | E : (_ && _)%bool = true |- _ => apply andb_true_iff in E as [? ?]
           | E : (_ || _)%bool = true |- _ => apply orb_true_iff in E as [?|?]
           | E : (_ =? _)%N = true |- _ => apply N.eqb_eq in E
           | E : (_ <=? _)%N = true |- _ => apply N.leb_le in E
           end; lia.
Qed.

Lemma trimLeft_infix (s : bytes) : exists a, s = a ++ trimLeft s.
Proof. apply trimHead_suffix. Qed.

Lemma trimRight_prefix (s : bytes) : exists b, s = trimRight s ++ b.
Proof.
  unfold trimRight.
  destruct (trimHead_suffix isSpace2r isSpace3r (rev s)) as (a & Ha).
  exists (rev a).
  rewrite <- rev_app_distr, <- Ha; now rewrite rev_involutive.
Qed.

Lemma TrimSpace_infix (s : bytes) : exists a b, s = a ++ TrimSpace s ++ b.
Proof.
  destruct (trimLeft_infix s) as (a & Ha).
  destruct (trimRight_prefix (trimLeft s)) as (b & Hb).
  exists a, b; unfold TrimSpace; now rewrite <- Hb.
Qed.

Lemma TrimSpace_fixed (s : bytes) :
  headClear isSpace2 isSpace3 s = true ->
  headClear isSpace2r isSpace3r (rev s) = true ->
  TrimSpace s = s.
Proof.
  intros Hl Hr; unfold TrimSpace, trimLeft, trimRight.
  rewrite (trimHead_clear _ _ _ Hl), (trimHead_clear _ _ _ Hr).
  apply rev_involutive.
Qed.

Lemma TrimSpace_clear (s : bytes) :
  headClear isSpace2 isSpace3 (TrimSpace s) = true /\
  headClear isSpace2r isSpace3r (rev (TrimSpace s)) = true.
Proof.
  split.
  - destruct (trimRight_prefix (trimLeft s)) as (b & Hb).
    apply headClear_app_l with (q := b).
    unfold TrimSpace; rewrite <- Hb; apply trimHead_headClear.
  - unfold TrimSpace, trimRight; rewrite rev_involutive.
    apply trimHead_headClear.
Qed.

Lemma TrimSpace_idem (s : bytes) : TrimSpace (TrimSpace s) = TrimSpace s.
Proof. apply TrimSpace_fixed; apply TrimSpace_clear. Qed.

(** A text that starts and ends with plain ASCII bytes that are no white
    space is its own trimming. *)
Lemma TrimSpace_ascii_ends (c d : ascii) (t : bytes) :
  isSpace1 c = false -> (byteval c < 128)%N ->
  isSpace1 d = false -> (byteval d < 128)%N ->
  TrimSpace (c :: t ++ [d]) = c :: t ++ [d].
Proof.
  intros Hc1 Hc2 Hd1 Hd2; apply TrimSpace_fixed.
  - apply headClear_ascii; try assumption.
    + intros a b H; now apply isSpace2_high in H.
    + intros a b e H; now apply isSpace3_high in H.
  - change (c :: t ++ [d]) with ((c :: t) ++ [d]).
    rewrite rev_app_distr; simpl rev at 1.
    change ([d] ++ rev (c :: t)) with (d :: rev (c :: t)).
    apply headClear_ascii; try assumption.
    + intros a b H; unfold isSpace2r in H; now apply isSpace2_high in H.
    + intros a b e H; unfold isSpace3r in H; apply isSpace3_high in H; tauto.
Qed.

(** ** Substrings and matches *)

Lemma HasPrefix_app_l (s p b : bytes) :
  HasPrefix s p = true -> HasPrefix (s ++ b) p = true.
Proof.
  intros H; apply HasPrefix_iff in H as [t ->].
  rewrite <- app_assoc; apply HasPrefix_app.
Qed.

Lemma Contains_app_r (s x b : bytes) :
  Contains s x = true -> Contains (s ++ b) x = true.
Proof.
  induction s as [|c s IH]; simpl; intros H.
  - rewrite orb_false_r in H.
    destruct x; [destruct b; reflexivity | discriminate].
  - apply orb_true_iff in H as [H|H].
    + change (c :: s ++ b) with ((c :: s) ++ b).
      now rewrite (HasPrefix_app_l _ _ b H).
    + rewrite (IH H); apply orb_true_r.
Qed.

Lemma Contains_app_l (a s x : bytes) :
  Contains s x = true -> Contains (a ++ s) x = true.
Proof.
  intros H; induction a as [|c a IH]; simpl; [exact H|].
  rewrite IH; apply orb_true_r.
Qed.

Lemma Contains_infix_false (a s b x : bytes) :
  Contains (a ++ s ++ b) x = false -> Contains s x = false.
Proof.
  intros H; destruct (Contains s x) eqn:E; [|reflexivity].
  rewrite (Contains_app_l a _ _ (Contains_app_r _ _ b E)) in H; discriminate.
Qed.

Lemma Index_app_r (s x b : bytes) :
  Index s x <> None -> Index (s ++ b) x <> None.
Proof.
  induction s as [|c s IH]; simpl; intros H.
  - destruct (HasPrefix [] x) eqn:E; [|congruence].
    destruct x; [|discriminate]. destruct b; simpl; congruence.
  - destruct (HasPrefix (c :: s) x) eqn:E.
    + change (c :: s ++ b) with ((c :: s) ++ b).
      rewrite (HasPrefix_app_l _ _ b E); congruence.
    + destruct (HasPrefix (c :: s ++ b) x); [congruence|].
      destruct (Index s x); [|simpl in H; congruence].
      destruct (Index (s ++ b) x); [simpl; congruence|].
      exfalso; apply IH; congruence.
Qed.


Lemma tagMatch_extends (tag close : bytes) (m : bytes -> option nat) :
  (forall s,
      m s = if HasPrefix s tag
            then match Index (skipn (List.length tag) s) close with
                 | Some k => Some (List.length tag + k + List.length close)%nat
                 | None => None
                 end
            else None) ->
  extends m.
Proof.
  intros Hm s b; rewrite !Hm.
  destruct (HasPrefix s tag) eqn:E; [|congruence].
  rewrite (HasPrefix_app_l _ _ b E).
  apply HasPrefix_iff in E as [t ->].
  rewrite <- app_assoc, !skipn_prefix.
  intros H.
  destruct (Index t close) eqn:Et; [|congruence].
  assert (Hi : Index (t ++ b) close <> None)
    by (apply Index_app_r; congruence).
  destruct (Index (t ++ b) close); congruence.
Qed.

Lemma summaryMatch_extends : extends summaryMatch.
Proof.
  apply (tagMatch_extends (bs "<summary>") (bs "</summary>")).
  intros s; reflexivity.
Qed.

Lemma detailsMatch_extends : extends detailsMatch.
Proof.
  apply (tagMatch_extends (bs "<details") (bs ">")).
  intros s; reflexivity.
Qed.

Lemma matchesNowhere_app_l (m : bytes -> option nat) (a s : bytes) :
  matchesNowhere m (a ++ s) = true -> matchesNowhere m s = true.
Proof.
  induction a as [|c a IH]; simpl; [auto|].
  destruct (m (c :: a ++ s)); [discriminate | exact IH].
Qed.

Lemma matchesNowhere_app_r (m : bytes -> option nat) (s b : bytes) :
  extends m ->
  matchesNowhere m (s ++ b) = true -> matchesNowhere m s = true.
Proof.
  intros Hm; induction s as [|c s IH]; intros H.
  - simpl; destruct (m []) eqn:E; [|reflexivity].
    exfalso; apply (Hm [] b); [congruence|].
    destruct b; simpl in H; destruct (m _); congruence.
  - simpl in *.
    destruct (m (c :: s ++ b)) eqn:E; [discriminate|].
    destruct (m (c :: s)) eqn:E'; [|now apply IH].
    exfalso; apply (Hm (c :: s) b); [congruence | exact E].
Qed.

Lemma matchesNowhere_infix (m : bytes -> option nat) (a s b : bytes) :
  extends m ->
  matchesNowhere m (a ++ s ++ b) = true -> matchesNowhere m s = true.
Proof.
  intros Hm H; apply matchesNowhere_app_l in H.
  now apply matchesNowhere_app_r in H.
Qed.

Lemma replaceMatches_nowhere (m : bytes -> option nat) (repl s : bytes) :
  matchesNowhere m s = true -> replaceMatches m repl 0 s = s.
Proof.
  induction s as [|c s IH]; [reflexivity|]; simpl.
  destruct (m (c :: s)); [discriminate|].
  intros H; now rewrite IH.
Qed.

Lemma literal_nowhere (old s : bytes) :
  Contains s old = false -> matchesNowhere (literalMatch old) s = true.
Proof.
  unfold literalMatch; induction s as [|c s IH]; simpl; intros H.
  - rewrite orb_false_r in H; now rewrite H.
  - apply orb_false_iff in H as [H1 H2]; rewrite H1; now apply IH.
Qed.

Lemma ReplaceAll_absent (s old new : bytes) :
  Contains s old = false -> ReplaceAll s old new = s.
Proof.
  intros H; apply replaceMatches_nowhere, literal_nowhere, H.
Qed.

(** ** C8: the thinking transformer applied twice *)

Lemma tagFree_infix (a s b : bytes) : tagFree (a ++ s ++ b) -> tagFree s.
Proof.
  intros (H1 & H2 & H3 & H4 & H5 & H6); repeat split.
  - exact (matchesNowhere_infix _ a s b summaryMatch_extends H1).
  - exact (matchesNowhere_infix _ a s b detailsMatch_extends H2).
  - exact (Contains_infix_false a s b _ H3).
  - exact (Contains_infix_false a s b _ H4).
  - exact (Contains_infix_false a s b _ H5).
  - exact (Contains_infix_false a s b _ H6).
Qed.

(** On a text without tags whose trimming has no quote prefix, the
    transformer only trims. *)
Lemma transformThinking_trims (mode s : bytes) :
  tagFree s -> noQuotePrefix (TrimSpace s) ->
  transformThinking mode s = TrimSpace s.
Proof.
  intros Hs (Hq1 & Hq2).
  destruct (TrimSpace_infix s) as (a & b & Hab).
  assert (Ht : tagFree (TrimSpace s))
    by (apply (tagFree_infix a _ b); now rewrite <- Hab).
  destruct Hs as (H1 & _ & _ & H4 & H5 & H6).
  destruct Ht as (_ & T2 & T3 & _).
  unfold transformThinking; cbv zeta.
  rewrite (replaceMatches_nowhere _ _ _ H1).
  rewrite (ReplaceAll_absent _ _ _ H4), (ReplaceAll_absent _ _ _ H5),
    (ReplaceAll_absent _ _ _ H6).
  rewrite !(replaceMatches_nowhere _ _ _ T2), !(ReplaceAll_absent _ _ _ T3).
  assert (E : (if bytes_eqb mode (bs "think") then TrimSpace s
               else if bytes_eqb mode (bs "strip") then TrimSpace s
                    else TrimSpace s) = TrimSpace s)
    by (destruct (bytes_eqb mode (bs "think")),
                 (bytes_eqb mode (bs "strip")); reflexivity).
  rewrite E.
  unfold TrimPrefix; rewrite Hq1, (ReplaceAll_absent _ _ _ Hq2).
  apply TrimSpace_idem.
Qed.

(** C8, as the program has it.  The thinking transformer is idempotent on
    every input that has no [<summary>] span, no [<details>] tag, opening
    or closing, none of the literals [</thinking>], [<Full>], [</Full>],
    and in which, once the white space around it is trimmed, no line
    starts with the prefix [> ]. *)
Theorem transformThinking_idempotent :
  forall mode s,
    tagFree s -> noQuotePrefix (TrimSpace s) ->
    transformThinking mode (transformThinking mode s)
    = transformThinking mode s.
Proof.
  intros mode s Hs Hq.
  rewrite (transformThinking_trims mode s Hs Hq).
  destruct (TrimSpace_infix s) as (a & b & Hab).
  rewrite transformThinking_trims.
  - apply TrimSpace_idem.
  - apply (tagFree_infix a _ b); now rewrite <- Hab.
  - now rewrite TrimSpace_idem.
Qed.

Lemma transformThinking_idempotent_witness :
  tagFree (bs " plain > text ") /\
  noQuotePrefix (TrimSpace (bs " plain > text ")) /\
  transformThinking (bs "think") (bs "plain > text") = bs "plain > text".
Proof.
  assert (Hs : tagFree (bs " plain > text "))
    by (repeat split; vm_compute; reflexivity).
  assert (Hq : noQuotePrefix (TrimSpace (bs " plain > text ")))
    by (split; vm_compute; reflexivity).
  split; [exact Hs|]; split; [exact Hq|].
  pose proof (transformThinking_idempotent (bs "think") (bs " plain > text ")
                Hs Hq) as H.
  vm_compute in H; vm_compute; exact H.
Defined.

(** C8 fails as stated: the text [ > > x] has no tag and no line that
    starts with [> ], yet one pass of the transformer gives [> x] and a
    second pass gives [x]. *)
Lemma transformThinking_not_idempotent :
  tagFree (bs " > > x") /\
  noQuotePrefix (bs " > > x") /\
  transformThinking (bs "think") (bs " > > x") = bs "> x" /\
  transformThinking (bs "think")
    (transformThinking (bs "think") (bs " > > x")) = bs "x" /\
  transformThinking (bs "think")
    (transformThinking (bs "think") (bs " > > x"))
  <> transformThinking (bs "think") (bs " > > x").
Proof.
  repeat split; try (vm_compute; reflexivity).
  vm_compute; discriminate.
Qed.

(** ** The read loop and the lines of the body *)

Section Reassembly.

Variable cfg : Config.
Variable unmarshalUpstream : bytes -> option UpstreamData.
Variable clock : nat -> Z.
Variable alive : Z -> bool.

Abbreviation processLine := (processStreamLine cfg unmarshalUpstream clock).
Abbreviation drain := (drainLines cfg unmarshalUpstream clock).
Abbreviation loop := (streamLoop cfg unmarshalUpstream clock alive).
Abbreviation feedText := (feed cfg unmarshalUpstream clock).

Lemma LastIndex_absent (l : bytes) : ~ In LF l -> LastIndex l [LF] = None.
Proof.
  induction l as [|c l IH]; intros H; simpl; [reflexivity|].
  rewrite IH by (intros Hin; apply H; now right).
  destruct (Ascii.eqb c LF) eqn:E; [|reflexivity].
  apply Ascii.eqb_eq in E; subst c; exfalso; apply H; now left.
Qed.

Lemma guardLineBuffer_modest (lineBuffer data : bytes) :
  ~ In LF lineBuffer ->
  (N.of_nat (List.length data) <= 524288)%N ->
  guardLineBuffer (lineBuffer ++ data) = lineBuffer ++ data.
Proof.
  intros Hlf Hd; unfold guardLineBuffer.
  destruct (N.ltb_spec 1048576 (N.of_nat (List.length (lineBuffer ++ data))))
    as [Hbig|]; [|reflexivity].
  rewrite length_app in *.
  assert (Hhalf : ((List.length lineBuffer + List.length data) / 2
                   <= List.length lineBuffer)%nat).
  { apply Nat.Div0.div_le_upper_bound; lia. }
  rewrite firstn_app.
  replace ((List.length lineBuffer + List.length data) / 2
           - List.length lineBuffer)%nat with 0%nat by lia.
  rewrite firstn_O, app_nil_r, LastIndex_absent; [reflexivity|].
  intros Hin; apply Hlf.
  rewrite <- (firstn_skipn ((List.length lineBuffer + List.length data) / 2)
                lineBuffer).
  apply in_or_app; now left.
Qed.

Lemma drainLines_partial (lineBuffer : bytes) :
  forall data cur st,
    ~ In LF lineBuffer ->
    drain (lineBuffer ++ data) cur st = drain data (rev lineBuffer ++ cur) st.
Proof.
  induction lineBuffer as [|c l IH]; intros data cur st H; [reflexivity|].
  simpl.
  destruct (Ascii.eqb c LF) eqn:E.
  { apply Ascii.eqb_eq in E; subst c; exfalso; apply H; now left. }
  rewrite IH by (intros Hin; apply H; now right).
  now rewrite <- app_assoc.
Qed.

Lemma drainLines_feed (data : bytes) :
  forall cur st more,
    ~ In LF cur -> streamClosed st = false ->
    feedText (data ++ more) cur st
    = (if streamClosed (snd (drain data cur st)) then snd (drain data cur st)
       else feedText more (rev (fst (drain data cur st)))
                     (snd (drain data cur st)))
    /\ (streamClosed (snd (drain data cur st)) = false ->
        ~ In LF (fst (drain data cur st))).
Proof.
  induction data as [|c t IH]; intros cur st more Hcur Hst.
  - simpl; rewrite Hst, rev_involutive; split; [reflexivity|].
    intros _; now rewrite <- in_rev.
  - simpl; destruct (Ascii.eqb c LF) eqn:E.
    + rewrite Hst.
      destruct (streamClosed (processLine (rev cur) st)) eqn:E1; simpl.
      * rewrite E1; split; [reflexivity | discriminate].
      * apply IH; [intros [] | exact E1].
    + apply IH; [|exact Hst].
      intros [Hc|Hin]; [|now apply Hcur].
      rewrite Hc, Ascii.eqb_refl in E; discriminate.
Qed.

Lemma streamLoop_feed (reads : list ReadResult) :
  forall lineBuffer checkCounter st,
    clientStays cfg alive ->
    Forall modestRead reads ->
    ~ In LF lineBuffer ->
    streamClosed st = false ->
    loop reads lineBuffer checkCounter st
    = (Returned,
       feedText (List.concat (map rd_data reads)) (rev lineBuffer) st).
Proof.
  induction reads as [|r rest IH]; intros lb cc st Hconn Hreads Hlb Hst.
  - simpl; rewrite Hst.
    assert (Hprobe :
              negb (disableConnectionCheck cfg)
              && (connectionCheckInterval cfg =? 0)%Z = false /\
              forall k,
                negb (disableConnectionCheck cfg)
                && (Z.rem k (connectionCheckInterval cfg) =? 0)%Z
                && negb (alive k) = false).
    { destruct Hconn as [->|[Hi Ha]]; [now split|].
      apply Z.eqb_neq in Hi; rewrite Hi, andb_false_r; split; [reflexivity|].
      intros k; rewrite Ha; simpl; apply andb_false_r. }
    destruct Hprobe as [-> Hp]; rewrite Hp, rev_involutive; reflexivity.
  - inversion Hreads as [|r' rest' [Herr Hlen] Hrest]; subst r' rest'.
    assert (Hprobe :
              negb (disableConnectionCheck cfg)
              && (connectionCheckInterval cfg =? 0)%Z = false /\
              forall k,
                negb (disableConnectionCheck cfg)
                && (Z.rem k (connectionCheckInterval cfg) =? 0)%Z
                && negb (alive k) = false).
    { destruct Hconn as [->|[Hi Ha]]; [now split|].
      apply Z.eqb_neq in Hi; rewrite Hi, andb_false_r; split; [reflexivity|].
      intros k; rewrite Ha; simpl; apply andb_false_r. }
    destruct Hprobe as [Hp0 Hp].
    cbn [streamLoop map List.concat]; rewrite Hst, Hp0, Hp, Herr.
    destruct (isEmpty (rd_data r)) eqn:Ee.
    + apply isEmpty_true in Ee; rewrite Ee; simpl app.
      now apply IH.
    + rewrite (guardLineBuffer_modest _ _ Hlb Hlen).
      rewrite (drainLines_partial lb (rd_data r) [] st Hlb), app_nil_r.
      assert (Hrev : ~ In LF (rev lb)) by now rewrite <- in_rev.
      destruct (drainLines_feed (rd_data r) (rev lb) st
                  (List.concat (map rd_data rest)) Hrev Hst) as [Hf Hlf].
      rewrite Hf.
      destruct (drain (rd_data r) (rev lb) st) as [lb1 st1]; simpl in *.
      destruct (streamClosed st1) eqn:E1.
      * destruct rest; simpl; rewrite E1; reflexivity.
      * apply IH; auto.
Qed.

Lemma feed_line (l : bytes) :
  forall rest cur st,
    ~ In LF l -> streamClosed st = false ->
    feedText (l ++ LF :: rest) cur st
    = if streamClosed (processLine (rev cur ++ l) st)
      then processLine (rev cur ++ l) st
      else feedText rest [] (processLine (rev cur ++ l) st).
Proof.
  induction l as [|c l IH]; intros rest cur st Hl Hst.
  - simpl; rewrite Hst, app_nil_r; reflexivity.
  - simpl; destruct (Ascii.eqb c LF) eqn:E.
    { apply Ascii.eqb_eq in E; subst c; exfalso; apply Hl; now left. }
    rewrite IH by (auto; intros Hin; apply Hl; now right).
    simpl; now rewrite <- !app_assoc.
Qed.

(** A data line that carries an object. *)
Lemma objectText_carries (j : bytes) (u : UpstreamData) :
  objectText j -> unmarshalUpstream j = Some u ->
  carriesEvent unmarshalUpstream (bs "data: " ++ j) u.
Proof.
  intros (mid & -> & Hmid) Hu.
  assert (Hline : TrimSpace (bs "data: " ++ bs "{" ++ mid ++ bs "}")
                  = bs "data: " ++ bs "{" ++ mid ++ bs "}").
  { change (bs "data: " ++ bs "{" ++ mid ++ bs "}")
      with ("d"%char :: (bs "ata: {" ++ mid) ++ ["}"%char]).
    apply TrimSpace_ascii_ends; vm_compute; reflexivity. }
  assert (Hj : TrimSpace (bs "{" ++ mid ++ bs "}") = bs "{" ++ mid ++ bs "}").
  { change (bs "{" ++ mid ++ bs "}") with ("{"%char :: mid ++ ["}"%char]).
    apply TrimSpace_ascii_ends; vm_compute; reflexivity. }
  unfold carriesEvent; rewrite Hline.
  change (skipn 6 (bs "data: " ++ bs "{" ++ mid ++ bs "}"))
    with (bs "{" ++ mid ++ bs "}").
  rewrite Hj; repeat split; try (simpl; congruence).
  exact Hu.
Qed.

Lemma objectText_no_newline (j : bytes) :
  objectText j -> ~ In LF (bs "data: " ++ j).
Proof.
  intros (mid & -> & Hmid) Hin.
  apply in_app_or in Hin as [Hin|Hin].
  { simpl in Hin; unfold LF in Hin.
    repeat (destruct Hin as [Hin|Hin]; [discriminate|]); exact Hin. }
  apply in_app_or in Hin as [Hin|Hin].
  { simpl in Hin; destruct Hin as [Hin|[]]; discriminate. }
  apply in_app_or in Hin as [Hin|Hin]; [now apply Hmid|].
  simpl in Hin; destruct Hin as [Hin|[]]; discriminate.
Qed.

Lemma processStreamLine_event (line : bytes) (u : UpstreamData) (st : TState) :
  carriesEvent unmarshalUpstream line u ->
  hasUpstreamError u = false ->
  processLine line st
  = finishOnDone clock u (emitDelta cfg clock u (spliceInitialAnswer clock u st)).
Proof.
  intros (Hp & Hd & He & Hu) Herr; unfold processStreamLine.
  apply bytes_eqb_neq in Hd; apply isEmpty_false in He.
  now rewrite Hp, Hd, He, Hu, Herr.
Qed.

Lemma contents_write (w : Write) (st : TState) :
  contents (write w st) = contents st ++ contentOf w.
Proof.
  unfold contents; simpl.
  now rewrite map_app, concat_app; simpl; rewrite app_nil_r.
Qed.

(** An answer delta adds its text to the contents and leaves the stream
    open. *)
Lemma answer_line (j d : bytes) (st : TState) :
  decodesAnswer unmarshalUpstream j d ->
  contents (processLine (bs "data: " ++ j) st) = contents st ++ d /\
  streamClosed (processLine (bs "data: " ++ j) st) = streamClosed st.
Proof.
  intros (Hobj & u & Hu & Hd & He & Hp & Hdone & Herr).
  rewrite (processStreamLine_event _ u st (objectText_carries j u Hobj Hu) Herr).
  unfold finishOnDone, emitDelta, spliceInitialAnswer.
  rewrite He, Hp, Hdone, Hd; simpl.
  rewrite andb_false_r; simpl.
  destruct d; simpl; [split; [now rewrite app_nil_r | reflexivity]|].
  split; [|reflexivity].
  unfold contents; simpl.
  now rewrite map_app, concat_app; simpl; rewrite app_nil_r.
Qed.

(** A done marker adds no text and closes the stream. *)
Lemma done_line (j : bytes) (st : TState) :
  decodesDone unmarshalUpstream j ->
  contents (processLine (bs "data: " ++ j) st) = contents st /\
  streamClosed (processLine (bs "data: " ++ j) st) = true.
Proof.
  intros (Hobj & u & Hu & Hd & He & Herr & Hdone).
  rewrite (processStreamLine_event _ u st (objectText_carries j u Hobj Hu) Herr).
  unfold emitDelta, spliceInitialAnswer.
  rewrite He, Hd; simpl; rewrite andb_false_r; simpl.
  assert (Hf : Done (ud_Data u) || bytes_eqb (Phase (ud_Data u)) (bs "done")
               = true).
  { destruct Hdone as [->| ->]; [reflexivity|].
    rewrite bytes_eqb_refl; apply orb_true_r. }
  unfold finishOnDone; rewrite Hf; split; [|reflexivity].
  unfold contents; simpl.
  rewrite !map_app, !concat_app; simpl; now rewrite !app_nil_r.
Qed.

Lemma sseText_cons (j : bytes) (js : list bytes) :
  sseText (j :: js) = (bs "data: " ++ j) ++ LF :: sseText js.
Proof.
  unfold sseText, sseLine; cbn [map List.concat].
  now rewrite <- !app_assoc.
Qed.

Lemma feed_answers (js : list bytes) :
  forall ds jdone st,
    Forall2 (decodesAnswer unmarshalUpstream) js ds ->
    decodesDone unmarshalUpstream jdone ->
    streamClosed st = false ->
    contents (feedText (sseText (js ++ [jdone])) [] st)
    = contents st ++ List.concat ds.
Proof.
  induction js as [|j js IH]; intros ds jdone st Hjs Hdone Hst.
  - inversion Hjs; subst ds.
    cbn [app]; rewrite sseText_cons.
    rewrite feed_line; [|apply objectText_no_newline, Hdone | exact Hst].
    destruct (done_line jdone st Hdone) as [Hc Hcl].
    cbn [rev app]; rewrite Hcl, Hc; cbn [List.concat].
    now rewrite app_nil_r.
  - inversion Hjs as [|j' d js' ds' Hj Hrest]; subst.
    cbn [app]; rewrite sseText_cons.
    rewrite feed_line; [|apply objectText_no_newline, Hj | exact Hst].
    destruct (answer_line j d st Hj) as [Hc Hcl].
    cbn [rev app]; rewrite Hcl, Hst.
    rewrite (IH ds' jdone _ Hrest Hdone) by congruence.
    rewrite Hc; cbn [List.concat]; now rewrite <- app_assoc.
Qed.

End Reassembly.

(** ** The aggregator and the lines of the body *)

Lemma scanLines_line (l : bytes) :
  forall cur n rest,
    ~ In LF l ->
    (n + N.of_nat (List.length l) < 65536)%N ->
    scanLines (l ++ LF :: rest) cur n
    = rev (dropCR (rev l ++ cur)) :: scanLines rest [] 0.
Proof.
  induction l as [|c l IH]; intros cur n rest Hl Hn.
  - simpl; reflexivity.
  - cbn [app scanLines].
    destruct (Ascii.eqb c LF) eqn:E.
    { apply Ascii.eqb_eq in E; subst c; exfalso; apply Hl; now left. }
    unfold maxScanTokenSize.
    cbn [List.length] in Hn.
    destruct (N.leb_spec 65536 (n + 1)) as [Hbig|_]; [lia|].
    rewrite IH by (try lia; intros Hin; apply Hl; now right).
    cbn [rev]; now rewrite <- app_assoc.
Qed.

Lemma scanLines_object (j rest : bytes) :
  objectText j ->
  (N.of_nat (List.length j) + 6 < 65536)%N ->
  scanLines ((bs "data: " ++ j) ++ LF :: rest) [] 0
  = (bs "data: " ++ j) :: scanLines rest [] 0.
Proof.
  intros Hobj Hn.
  rewrite scanLines_line;
    [|now apply objectText_no_newline
     |rewrite length_app; change (List.length (bs "data: ")) with 6%nat; lia].
  f_equal; rewrite app_nil_r.
  destruct Hobj as (mid & -> & _).
  change (bs "data: " ++ bs "{" ++ mid ++ bs "}")
    with ((bs "data: {" ++ mid) ++ ["}"%char]).
  rewrite rev_unit; cbn [dropCR].
  change (Ascii.eqb "}" CR) with false; cbv iota.
  cbn [rev]; now rewrite rev_involutive.
Qed.

Section AggregatorFacts.

Variable cfg : Config.
Variable unmarshalUpstream : bytes -> option UpstreamData.

Abbreviation collect := (collectContent cfg unmarshalUpstream).

Lemma collect_answer (j d : bytes) (rest : list bytes) (acc : bytes) :
  decodesAnswer unmarshalUpstream j d ->
  collect ((bs "data: " ++ j) :: rest) acc = collect rest (acc ++ d).
Proof.
  intros ((mid & -> & _) & u & Hu & Hd & _ & Hp & Hdone & _).
  cbn [collectContent].
  rewrite HasPrefix_app, TrimPrefix_app; cbn [negb].
  change (isEmpty (bs "{" ++ mid ++ bs "}")
          || bytes_eqb (bs "{" ++ mid ++ bs "}") (bs "[DONE]")) with false.
  cbv iota; rewrite Hu, Hd, Hp, Hdone.
  change (bytes_eqb (bs "answer") (bs "thinking")) with false.
  change (bytes_eqb (bs "answer") (bs "done")) with false.
  cbn [orb]; destruct d; cbn [isEmpty negb];
    [now rewrite app_nil_r | reflexivity].
Qed.

Lemma collect_done (j : bytes) (rest : list bytes) (acc : bytes) :
  decodesDone unmarshalUpstream j ->
  collect ((bs "data: " ++ j) :: rest) acc = acc.
Proof.
  intros ((mid & -> & _) & u & Hu & Hd & _ & _ & Hdone).
  cbn [collectContent].
  rewrite HasPrefix_app, TrimPrefix_app; cbn [negb].
  change (isEmpty (bs "{" ++ mid ++ bs "}")
          || bytes_eqb (bs "{" ++ mid ++ bs "}") (bs "[DONE]")) with false.
  cbv iota; rewrite Hu, Hd; cbn [isEmpty negb].
  assert (Hf : Done (ud_Data u) || bytes_eqb (Phase (ud_Data u)) (bs "done")
               = true).
  { destruct Hdone as [->| ->]; [reflexivity|].
    rewrite bytes_eqb_refl; apply orb_true_r. }
  now rewrite Hf.
Qed.

Lemma collect_answers (js : list bytes) :
  forall ds jdone acc,
    Forall2 (decodesAnswer unmarshalUpstream) js ds ->
    decodesDone unmarshalUpstream jdone ->
    Forall (fun j => (N.of_nat (List.length j) + 6 < 65536)%N)
           (js ++ [jdone]) ->
    collect (scanLines (sseText (js ++ [jdone])) [] 0) acc
    = acc ++ List.concat ds.
Proof.
  induction js as [|j js IH]; intros ds jdone acc Hjs Hdone Hlen.
  - inversion Hjs; subst ds.
    cbn [app] in *; rewrite sseText_cons.
    inversion Hlen as [|? ? Hl _]; subst.
    rewrite scanLines_object by (try apply Hdone; exact Hl).
    rewrite collect_done by exact Hdone.
    cbn [List.concat]; now rewrite app_nil_r.
  - inversion Hjs as [|j' d js' ds' Hj Hrest]; subst.
    cbn [app] in *; rewrite sseText_cons.
    inversion Hlen as [|? ? Hl Hlen']; subst.
    rewrite scanLines_object by (try apply Hj; exact Hl).
    rewrite collect_answer with (d := d) by exact Hj.
    rewrite (IH ds' jdone _ Hrest Hdone Hlen').
    cbn [List.concat]; now rewrite <- app_assoc.
Qed.

End AggregatorFacts.

(** ** C4: the round trip of answer deltas *)

(** The round trip, where it holds.  For an upstream stream made of
    answer events with the deltas [d1 .. dn], one JSON object per line,
    then a done marker: in streaming mode, when the client stays connected
    and no read delivers more than 512 KiB, the contents of the chunks
    written, concatenated in order, are [d1 ++ .. ++ dn]; in non-streaming
    mode, when every line of the stream is shorter than 64 KiB, the
    content of the one message is the same concatenation. *)
Theorem answer_deltas_round_trip :
  forall cfg unmarshalUpstream js ds jdone,
    Forall2 (decodesAnswer unmarshalUpstream) js ds ->
    decodesDone unmarshalUpstream jdone ->
    (forall clock alive reads,
        clientStays cfg alive ->
        Forall modestRead reads ->
        List.concat (map rd_data reads) = sseText (js ++ [jdone]) ->
        contents (sr_state (handleStreamResponse cfg unmarshalUpstream clock
                              alive true reads))
        = List.concat ds)
    /\
    (forall t1 t2,
        Forall (fun j => (N.of_nat (List.length j) + 6 < 65536)%N)
               (js ++ [jdone]) ->
        resp_Choices (nonStreamResponse cfg unmarshalUpstream
                        (sseText (js ++ [jdone])) t1 t2)
        = [ {| ch_Index := 0;
               ch_Message := {| msg_Role := bs "assistant";
                                msg_Content := List.concat ds;
                                msg_ReasoningContent := [] |};
               ch_Delta := emptyDelta;
               ch_FinishReason := bs "stop" |} ]).
Proof.
  intros cfg uU js ds jdone Hjs Hdone; split.
  - intros clock alive reads Hconn Hreads Hbody.
    unfold handleStreamResponse; cbn [negb].
    pose proof (streamLoop_Follows cfg uU clock alive reads [] 0%Z
                  (emitChunk clock roleDelta [] initialState)
                  eq_refl eq_refl) as (Ht & _).
    rewrite (streamLoop_feed cfg uU clock alive reads [] 0%Z
               (emitChunk clock roleDelta [] initialState)
               Hconn Hreads (fun H => H) eq_refl) in *.
    cbn [snd] in Ht; cbn [sr_state]; rewrite Ht; cbn [andb].
    rewrite Hbody; cbn [rev].
    change (isInThinkBlock (emitChunk clock roleDelta [] initialState))
      with false; cbn [andb].
    rewrite (feed_answers cfg uU clock js ds jdone
               (emitChunk clock roleDelta [] initialState) Hjs Hdone eq_refl).
    reflexivity.
  - intros t1 t2 Hlen; unfold nonStreamResponse; cbn [resp_Choices].
    now rewrite (collect_answers cfg uU js ds jdone [] Hjs Hdone Hlen).
Qed.

Lemma sample_decodesAnswer (d : bytes) :
  forallb plainChar d = true ->
  sampleUnmarshal (eventJSON (bs "answer") d)
  = Some (sampleEvent (bs "answer") d false) ->
  decodesAnswer sampleUnmarshal (eventJSON (bs "answer") d) d.
Proof.
  intros Hd Hu; split.
  - exists (skipn 1 (eventPrefix (bs "answer")) ++ d ++ [DQ; "}"%char]).
    split; [unfold eventJSON, eventSuffix; cbn; now rewrite <- !app_assoc|].
    intros Hin; apply in_app_or in Hin as [Hin|Hin].
    { vm_compute in Hin.
      repeat (destruct Hin as [Hin|Hin]; [discriminate|]); exact Hin. }
    apply in_app_or in Hin as [Hin|Hin].
    + rewrite forallb_forall in Hd; apply Hd in Hin; discriminate.
    + vm_compute in Hin.
      repeat (destruct Hin as [Hin|Hin]; [discriminate|]); exact Hin.
  - eexists; split; [exact Hu|]; repeat split.
Qed.

Lemma sample_decodesDone : decodesDone sampleUnmarshal doneJSON.
Proof.
  split.
  - exists (removelast (skipn 1 doneJSON)); split; [reflexivity|].
    intros Hin; vm_compute in Hin.
    repeat (destruct Hin as [Hin|Hin]; [discriminate|]); exact Hin.
  - eexists; split; [reflexivity|]; repeat split; now left.
Qed.

Lemma answer_deltas_round_trip_witness :
  contents (sr_state
              (handleStreamResponse sampleConfig sampleUnmarshal sampleClock
                 alwaysAlive true
                 [oneRead (firstn 30 (sseText [eventJSON (bs "answer") (bs "Hel");
                                               eventJSON (bs "answer") (bs "lo");
                                               doneJSON]));
                  oneRead (skipn 30 (sseText [eventJSON (bs "answer") (bs "Hel");
                                              eventJSON (bs "answer") (bs "lo");
                                              doneJSON]))]))
  = bs "Hello"
  /\ resp_Choices (nonStreamResponse sampleConfig sampleUnmarshal
                     (sseText [eventJSON (bs "answer") (bs "Hel");
                               eventJSON (bs "answer") (bs "lo"); doneJSON])
                     0 0)
     = [ {| ch_Index := 0;
            ch_Message := {| msg_Role := bs "assistant";
                             msg_Content := bs "Hello";
                             msg_ReasoningContent := [] |};
            ch_Delta := emptyDelta;
            ch_FinishReason := bs "stop" |} ].
Proof.
  destruct (answer_deltas_round_trip sampleConfig sampleUnmarshal
              [eventJSON (bs "answer") (bs "Hel");
               eventJSON (bs "answer") (bs "lo")]
              [bs "Hel"; bs "lo"] doneJSON) as [Hs Hn].
  { repeat constructor; apply sample_decodesAnswer; reflexivity. }
  { exact sample_decodesDone. }
  split.
  - apply (Hs sampleClock alwaysAlive).
    + right; split; [discriminate | reflexivity].
    + repeat constructor; vm_compute; discriminate.
    + vm_compute; reflexivity.
  - apply Hn; repeat constructor; vm_compute; reflexivity.
Defined.

Lemma sampleDecodes_answer (d : bytes) :
  forallb plainChar d = true ->
  sampleDecodes (eventJSON (bs "answer") d) (bs "answer") d false = true ->
  decodesAnswer sampleUnmarshal (eventJSON (bs "answer") d) d.
Proof.
  intros Hd Hu; split.
  - exists (skipn 1 (eventPrefix (bs "answer")) ++ d ++ [DQ; "}"%char]).
    split; [unfold eventJSON, eventSuffix; cbn; now rewrite <- !app_assoc|].
    intros Hin; apply in_app_or in Hin as [Hin|Hin].
    { vm_compute in Hin.
      repeat (destruct Hin as [Hin|Hin]; [discriminate|]); exact Hin. }
    apply in_app_or in Hin as [Hin|Hin].
    + rewrite forallb_forall in Hd; apply Hd in Hin; discriminate.
    + vm_compute in Hin.
      repeat (destruct Hin as [Hin|Hin]; [discriminate|]); exact Hin.
  - unfold sampleDecodes in Hu.
    destruct (sampleUnmarshal (eventJSON (bs "answer") d)) as [u|];
      [|discriminate Hu].
    repeat (apply andb_prop in Hu; destruct Hu as [Hu ?]).
    exists u; split; [reflexivity|].
    repeat split.
    + now apply bytes_eqb_eq.
    + now apply isEmpty_true.
    + now apply bytes_eqb_eq.
    + now apply Bool.eqb_prop.
    + now apply negb_true_iff.
Qed.

(** C4.  The aggregator of the non-streaming path loses a long delta.
    The upstream body has three lines, each one event that the decoder
    reads: an answer with the delta [Hi], an answer with a delta of 65536
    letters, and the done marker.  The scanner of the aggregator cannot
    hold the second line, so the aggregation stops there without an
    error, and the message has the content [Hi] and not the
    concatenation of the deltas; the streaming path, given the same body
    in one read, writes chunks whose contents are the concatenation. *)
Theorem long_delta_lost :
  sampleDecodes (eventJSON (bs "answer") (bs "Hi")) (bs "answer") (bs "Hi")
                false = true /\
  sampleDecodes (eventJSON (bs "answer") longDelta) (bs "answer") longDelta
                false = true /\
  sampleDecodes doneJSON [] [] true = true /\
  N.of_nat (List.length longDelta) = 65536%N /\
  resp_Choices (nonStreamResponse sampleConfig sampleUnmarshal
                  (sseText [eventJSON (bs "answer") (bs "Hi");
                            eventJSON (bs "answer") longDelta; doneJSON])
                  0 0)
  = [ {| ch_Index := 0;
         ch_Message := {| msg_Role := bs "assistant";
                          msg_Content := bs "Hi";
                          msg_ReasoningContent := [] |};
         ch_Delta := emptyDelta;
         ch_FinishReason := bs "stop" |} ] /\
  bs "Hi" <> List.concat [bs "Hi"; longDelta] /\
  contents (sr_state
              (handleStreamResponse sampleConfig sampleUnmarshal sampleClock
                 alwaysAlive true
                 [oneRead (sseText [eventJSON (bs "answer") (bs "Hi");
                                    eventJSON (bs "answer") longDelta;
                                    doneJSON])]))
  = List.concat [bs "Hi"; longDelta].
Proof.
  assert (H1 : sampleDecodes (eventJSON (bs "answer") (bs "Hi")) (bs "answer")
                 (bs "Hi") false = true) by (vm_compute; reflexivity).
  assert (H2 : sampleDecodes (eventJSON (bs "answer") longDelta) (bs "answer")
                 longDelta false = true) by (vm_compute; reflexivity).
  split; [exact H1|]. split; [exact H2|].
  split; [vm_compute; reflexivity|].
  split; [vm_compute; reflexivity|].
  split; [vm_compute; reflexivity|].
  split.
  { intros H; apply (f_equal (fun l => List.length (firstn 3 l))) in H.
    vm_compute in H; discriminate. }
  apply (proj1 (answer_deltas_round_trip sampleConfig sampleUnmarshal
                  [eventJSON (bs "answer") (bs "Hi");
                   eventJSON (bs "answer") longDelta]
                  [bs "Hi"; longDelta] doneJSON
                  ltac:(repeat constructor; apply sampleDecodes_answer;
                        solve [vm_compute; reflexivity | assumption])
                  sample_decodesDone)).
  - right; split; [discriminate|reflexivity].
  - repeat constructor. vm_compute. discriminate.
  - cbn [map List.concat rd_data oneRead]. apply app_nil_r.
Qed.

(** * More of the program: facts *)

Local Open Scope Z_scope.

(** ** The thinking transformer *)

(** X1. Whatever the mode and the text, the result of [transformThinking]
    is trimmed: [strings.TrimSpace] leaves it as it is, and it neither
    starts nor ends with a byte of ASCII white space. *)
Theorem transformThinking_is_trimmed (mode s : bytes) :
  TrimSpace (transformThinking mode s) = transformThinking mode s /\
  (forall c t, transformThinking mode s = c :: t -> isSpace1 c = false) /\
  (forall c t, transformThinking mode s = t ++ [c] -> isSpace1 c = false).
Proof.
  unfold transformThinking.
  match goal with |- context [TrimSpace (TrimSpace ?x)] => set (r := x) end.
  destruct (TrimSpace_clear r) as [Hl Hr].
  split; [apply TrimSpace_idem|split].
  - intros c t E. cbv zeta in E. fold r in E. rewrite E in Hl. simpl in Hl.
    apply andb_prop in Hl. destruct Hl as [Hl _].
    now apply negb_true_iff in Hl.
  - intros c t E. cbv zeta in E. fold r in E. rewrite E in Hr.
    rewrite rev_app_distr in Hr. simpl in Hr.
    apply andb_prop in Hr. destruct Hr as [Hr _].
    now apply negb_true_iff in Hr.
Qed.

(** ** Configuration from the environment *)

Lemma NilEmpty_digits (s : string) :
  forall d, NilEmpty.uint_of_string s = Some d ->
  forall c, In c (list_ascii_of_string s) -> isDigit c = true.
Proof.
  induction s as [|a s IH]; intros d H c Hc; [destruct Hc|].
  simpl in H, Hc.
  destruct (NilEmpty.uint_of_string s) as [d0|] eqn:E;
    [|destruct a as [[] [] [] [] [] [] [] []]; discriminate H].
  destruct Hc as [<-|Hc]; [|now apply (IH d0)].
  apply uint_of_char_spec in H.
  repeat (destruct H as [[-> _]|H]; [reflexivity|]).
  destruct H as [-> _]. reflexivity.
Qed.

Lemma NilZero_digits (s : string) (d : Decimal.uint) :
  NilZero.uint_of_string s = Some d ->
  forall c, In c (list_ascii_of_string s) -> isDigit c = true.
Proof.
  destruct s as [|a s]; [discriminate|]. apply NilEmpty_digits.
Qed.

Lemma Atoi_digits (c0 : ascii) (t : bytes) (z : Z) :
  Atoi (c0 :: t) = Some z -> forall c, In c t -> isDigit c = true.
Proof.
  unfold Atoi. intros H c Hc.
  rewrite <- (list_ascii_of_string_of_list_ascii t) in Hc.
  destruct (Ascii.eqb c0 "+").
  - destruct (NilZero.uint_of_string (string_of_list_ascii t)) as [u|] eqn:E;
      [|discriminate H].
    now apply (NilZero_digits _ _ E).
  - cbn [string_of_list_ascii NilZero.int_of_string] in H.
    destruct (Ascii.eqb c0 "-").
    + destruct (NilZero.uint_of_string (string_of_list_ascii t)) as [u|] eqn:E;
        [|discriminate H].
      now apply (NilZero_digits _ _ E).
    + cbn [NilZero.uint_of_string NilEmpty.uint_of_string] in H.
      destruct (NilEmpty.uint_of_string (string_of_list_ascii t)) as [u|] eqn:E;
        [|destruct c0 as [[] [] [] [] [] [] [] []]; discriminate H].
      now apply (NilEmpty_digits _ _ E).
Qed.

Lemma Atoi_fmtInt (z : Z) :
  - 2 ^ 63 <= z < 2 ^ 63 -> Atoi (fmtInt z) = Some z.
Proof.
  intros Hz. unfold Atoi, fmtInt, bs.
  assert (Hd : NilZero.int_of_string (NilZero.string_of_int (Z.to_int z))
               = Some (Z.to_int z)).
  { apply NilZero.isi; destruct z; simpl; try discriminate;
      intros E; injection E as E;
      exact (DecimalPos.Unsigned.to_uint_nonnil _ E). }
  destruct (NilZero.string_of_int (Z.to_int z)) as [|a s] eqn:Es;
    [discriminate Hd|].
  cbn [list_ascii_of_string].
  destruct (Ascii.eqb a "+") eqn:Ea.
  - apply Ascii.eqb_eq in Ea. subst a. exfalso.
    cbn in Hd. destruct (NilEmpty.uint_of_string s); discriminate Hd.
  - change (string_of_list_ascii (a :: list_ascii_of_string s))
      with (String a (string_of_list_ascii (list_ascii_of_string s))).
    rewrite string_of_list_ascii_of_string, Hd. cbn [option_map].
    rewrite DecimalZ.of_to.
    replace (-9223372036854775808 <=? z) with true
      by (symmetry; apply Z.leb_le; lia).
    replace (z <=? 9223372036854775807) with true
      by (symmetry; apply Z.leb_le; lia).
    reflexivity.
Qed.

(** X2. A variable that holds the decimal text of a 64-bit integer gives
    that integer, whatever the default is. *)
Theorem getEnvInt_reads_decimal (environ : bytes -> bytes) (key : bytes)
        (defaultValue z : Z) :
  - 2 ^ 63 <= z < 2 ^ 63 ->
  environ key = fmtInt z ->
  getEnvInt environ key defaultValue = z.
Proof.
  intros Hz E. unfold getEnvInt. rewrite E, (Atoi_fmtInt z Hz).
  destruct (isEmpty (fmtInt z)) eqn:Ee; [|reflexivity].
  apply isEmpty_true in Ee. rewrite Ee in *.
  pose proof (Atoi_fmtInt z Hz) as H. rewrite Ee in H. discriminate H.
Qed.

Lemma getEnvInt_reads_decimal_witness :
  getEnvInt (oneVariable (bs "MAX_RETRIES") (bs "-7")) (bs "MAX_RETRIES") 3
  = -7.
Proof.
  apply (getEnvInt_reads_decimal _ _ 3 (-7)); [lia|reflexivity].
Defined.

(** X3. A value with a byte after the first that is no decimal digit is
    passed over without an error: the default is used. *)
Theorem getEnvInt_ignores_malformed (environ : bytes -> bytes) (key : bytes)
        (defaultValue : Z) (c0 c : ascii) (t : bytes) :
  environ key = c0 :: t ->
  In c t ->
  isDigit c = false ->
  getEnvInt environ key defaultValue = defaultValue.
Proof.
  intros E Hc Hd. unfold getEnvInt. rewrite E. cbn [isEmpty].
  destruct (Atoi (c0 :: t)) as [v|] eqn:Ea; [|reflexivity].
  rewrite (Atoi_digits _ _ _ Ea c Hc) in Hd. discriminate Hd.
Qed.

Lemma getEnvInt_ignores_malformed_witness :
  getEnvInt (oneVariable (bs "RETRY_DELAY") (bs "10s")) (bs "RETRY_DELAY")
    1000 = 1000.
Proof.
  apply (getEnvInt_ignores_malformed _ _ 1000 "1"%char "s"%char (bs "0s"));
    [reflexivity|simpl; auto|reflexivity].
Defined.

(** X4. With none of the six variables set, every performance mode gives
    delays that are in range: one to five attempts, a back-off that fits
    the 64 bits of a duration, a non-empty jitter interval, and a request
    timeout below the streaming timeout.  A mode that is neither [fast]
    nor [secure] gives the balanced values. *)
Theorem getPerformanceConfig_presets (environ : bytes -> bytes)
        (toLower : bytes -> bytes) (base : Config) :
  environ (bs "MAX_RETRIES") = [] ->
  environ (bs "RETRY_DELAY") = [] ->
  environ (bs "REQUEST_TIMEOUT") = [] ->
  environ (bs "STREAM_TIMEOUT") = [] ->
  environ (bs "RANDOM_DELAY_MIN") = [] ->
  environ (bs "RANDOM_DELAY_MAX") = [] ->
  let c := getPerformanceConfig environ toLower base in
  delaysInRange c /\
  1 <= maxRetries c <= 5 /\
  0 <= randomDelayMin c < randomDelayMax c /\
  0 < requestTimeout c < streamTimeout c /\
  (toLower (performanceMode base) <> bs "fast" ->
   toLower (performanceMode base) <> bs "secure" ->
   (maxRetries c, retryDelay c, requestTimeout c, streamTimeout c,
    randomDelayMin c, randomDelayMax c)
   = (3, 1000, 120000, 300000, 100, 500)).
Proof.
  intros H1 H2 H3 H4 H5 H6.
  unfold getPerformanceConfig, withPerformance, getEnvInt, delaysInRange.
  rewrite H1, H2, H3, H4, H5, H6. cbn [isEmpty].
  destruct (bytes_eqb (toLower (performanceMode base)) (bs "fast")) eqn:Ef;
    [|destruct (bytes_eqb (toLower (performanceMode base)) (bs "secure"))
        eqn:Es];
    cbn -[Z.pow Z.mul bs];
    (repeat split; try lia; try reflexivity).
  - apply bytes_eqb_eq in Ef. intros Hf _. now elim Hf.
  - apply bytes_eqb_eq in Es. intros _ Hs. now elim Hs.
Qed.

Lemma getPerformanceConfig_presets_witness :
  delaysInRange (getPerformanceConfig (fun _ => []) asciiLower sampleConfig).
Proof.
  apply (getPerformanceConfig_presets (fun _ => []) asciiLower sampleConfig);
    reflexivity.
Defined.

(** X5. [MAX_RETRIES] set to the decimal text of a number that is not
    positive switches the dispatcher off in every performance mode: no
    request is sent, nothing is slept, and the dispatch fails with the
    error that all retries failed. *)
Theorem no_retries_no_request (environ : bytes -> bytes)
        (toLower : bytes -> bytes) (base : Config) (z : Z)
        (intOfHugeFloat : Z) (waitOutOfRange : Z -> Z -> Z)
        (env : nat -> AttemptEnv) :
  - 2 ^ 63 <= z <= 0 ->
  environ (bs "MAX_RETRIES") = fmtInt z ->
  requestWithRetry (getPerformanceConfig environ toLower base)
    intOfHugeFloat waitOutOfRange env
  = ([], DispatchFailed ErrAllFailed).
Proof.
  intros Hz E. unfold requestWithRetry.
  assert (Hm : maxRetries (getPerformanceConfig environ toLower base) = z).
  { unfold getPerformanceConfig, withPerformance.
    destruct (bytes_eqb _ (bs "fast")); [|destruct (bytes_eqb _ (bs "secure"))];
      cbn [maxRetries]; apply getEnvInt_reads_decimal; trivial; lia. }
  rewrite Hm. destruct z; try lia; reflexivity.
Qed.

Lemma no_retries_no_request_witness :
  requestWithRetry
    (getPerformanceConfig (oneVariable (bs "MAX_RETRIES") (bs "0"))
       asciiLower sampleConfig) 0 (fun _ _ => 0) (sampleAttempt [])
  = ([], DispatchFailed ErrAllFailed).
Proof.
  apply (no_retries_no_request _ _ _ 0); [lia|reflexivity].
Defined.

(** ** Log helpers *)

(** X6. [maskAPIKey] keeps the length of the key.  A key of at most
    eight bytes is masked entirely; of a longer key the first four and
    the last four bytes are shown and every byte between them is a
    star. *)
Theorem maskAPIKey_shows_ends_only (apiKey : bytes) :
  List.length (maskAPIKey apiKey) = List.length apiKey /\
  forall i, (i < List.length apiKey)%nat ->
    nth_error (maskAPIKey apiKey) i =
    if (8 <? List.length apiKey)%nat
       && ((i <? 4)%nat || (List.length apiKey - 4 <=? i)%nat)
    then nth_error apiKey i else Some "*"%char.
Proof.
  unfold maskAPIKey. set (n := List.length apiKey).
  destruct (n <=? 8)%nat eqn:En.
  - apply Nat.leb_le in En. split; [apply repeat_length|].
    intros i Hi.
    replace (8 <? n)%nat with false by (symmetry; apply Nat.ltb_ge; lia).
    cbn [andb]. now apply nth_error_repeat.
  - apply Nat.leb_gt in En.
    replace (8 <? n)%nat with true by (symmetry; apply Nat.ltb_lt; lia).
    assert (Hf : List.length (firstn 4 apiKey) = 4%nat)
      by (rewrite length_firstn; fold n; lia).
    assert (Hr : List.length (repeat "*"%char (n - 8)) = (n - 8)%nat)
      by apply repeat_length.
    split.
    + rewrite !length_app, Hf, Hr, length_skipn. fold n. lia.
    + intros i Hi. cbn [andb].
      destruct (i <? 4)%nat eqn:E4; cbn [orb].
      * apply Nat.ltb_lt in E4.
        rewrite nth_error_app1 by lia. rewrite nth_error_firstn.
        now replace (i <? 4)%nat with true by (symmetry; apply Nat.ltb_lt; lia).
      * apply Nat.ltb_ge in E4. rewrite nth_error_app2 by lia. rewrite Hf.
        destruct (n - 4 <=? i)%nat eqn:El.
        -- apply Nat.leb_le in El. rewrite nth_error_app2 by lia.
           rewrite Hr, nth_error_skipn. f_equal. lia.
        -- apply Nat.leb_gt in El. rewrite nth_error_app1 by lia.
           apply nth_error_repeat. lia.
Qed.

Lemma splitLoop_comma (s cur : bytes) :
  exists rest,
    splitLoop (bs ",") 0 cur s =
    (rev cur ++ match Index s (bs ",") with
                | Some i => firstn i s
                | None => s
                end) :: rest.
Proof.
  revert cur. induction s as [|c t IH]; intros cur.
  - exists []. simpl. now rewrite app_nil_r.
  - cbn [splitLoop Index]. 
    change (HasPrefix (c :: t) (bs ",")) with
      (Ascii.eqb c "," && HasPrefix t []).
    replace (HasPrefix t []) with true by (destruct t; reflexivity).
    rewrite andb_true_r.
    destruct (Ascii.eqb c ","); [eexists; cbn; now rewrite app_nil_r|].
    destruct (IH (c :: cur)) as [rest Hrest]. exists rest. rewrite Hrest.
    cbn [rev]. rewrite <- app_assoc. cbn [app].
    destruct (Index t (bs ",")); reflexivity.
Qed.

(** X7. A request with a non-empty [X-Forwarded-For] header is logged
    under the trimmed text of the header before its first comma, whatever
    [X-Real-IP] and the address of the peer are. *)
Theorem getClientIP_trusts_forwarded_for
        (splitHostPort : bytes -> option bytes) (r : PeerInfo) :
  hdr_XForwardedFor r <> [] ->
  getClientIP splitHostPort r =
  TrimSpace (match Index (hdr_XForwardedFor r) (bs ",") with
             | Some i => firstn i (hdr_XForwardedFor r)
             | None => hdr_XForwardedFor r
             end).
Proof.
  intros H. unfold getClientIP, stringsSplit.
  apply isEmpty_false in H. rewrite H. cbn [negb].
  destruct (splitLoop_comma (hdr_XForwardedFor r) []) as [rest ->].
  reflexivity.
Qed.

Lemma getClientIP_trusts_forwarded_for_witness :
  getClientIP (fun _ => None)
    {| hdr_XForwardedFor := bs " 10.0.0.1 , 192.168.0.1";
       hdr_XRealIP := bs "172.16.0.1";
       peer_RemoteAddr := bs "127.0.0.1:5000" |}
  = bs "10.0.0.1".
Proof.
  apply (getClientIP_trusts_forwarded_for (fun _ => None)
           {| hdr_XForwardedFor := bs " 10.0.0.1 , 192.168.0.1";
              hdr_XRealIP := bs "172.16.0.1";
              peer_RemoteAddr := bs "127.0.0.1:5000" |}).
  discriminate.
Defined.

(** ** The chat handler and the health endpoint *)

Ltac handler_paths call decode fin :=
  unfold chatHandler;
  destruct (call_body call); [|solve [cbn; fin]];
  match goal with
  | |- context [negb (bytes_eqb ?k ?d)] => destruct (bytes_eqb k d)
  end; cbn [negb]; [|solve [cbn; fin]];
  match goal with
  | |- context [decode ?b] => destruct (decode b)
  end; [|solve [cbn; fin]];
  match goal with
  | |- context [snd ?d] => destruct (snd d)
  end; [|solve [cbn; fin]|solve [cbn; fin]];
  match goal with
  | |- context [req_Stream ?q] => destruct (req_Stream q) as [[|]|]
  end; cbn [negb]; [|solve [cbn; fin]|solve [cbn; fin]];
  unfold handleStreamResponse;
  destruct (call_flusher call); cbn [negb]; [|solve [cbn; fin]];
  match goal with
  | |- context [streamLoop ?a ?b ?c ?d ?r ?l ?k ?s] =>
      destruct (streamLoop a b c d r l k s) as [[|] ?]
  end; solve [cbn; fin].

Lemma chatHandler_error_step cfg unmarshalRequest unmarshalUpstream
      intOfHugeFloat waitOutOfRange call e c0 :
  let c := hr_counters (chatHandler cfg unmarshalRequest unmarshalUpstream
                          intOfHugeFloat waitOutOfRange call e c0) in
  errorCount c = errorCount c0 \/
  errorCount c = atomicAdd (errorCount c0) 1.
Proof. handler_paths call unmarshalRequest auto. Qed.

(** X8. On every path of the chat handler the counters move by the
    status of the answer alone: the request count goes up by one; the
    error count goes up by one for 400, 401 and 502 and for nothing else
    (not for the 500 of a writer that cannot flush, and not for a
    handler that panics); the sum of response times takes the elapsed
    time for 502 and for a completed non-streaming answer and for nothing
    else. *)
Theorem chatHandler_accounting cfg unmarshalRequest unmarshalUpstream
        intOfHugeFloat waitOutOfRange call e c0 :
  let r := chatHandler cfg unmarshalRequest unmarshalUpstream
             intOfHugeFloat waitOutOfRange call e c0 in
  requestCount (hr_counters r) = atomicAdd (requestCount c0) 1 /\
  errorCount (hr_counters r) =
    (if countedAsError (hr_status r)
     then atomicAdd (errorCount c0) 1 else errorCount c0) /\
  totalResponseTime (hr_counters r) =
    (match hr_status r, hr_body r with
     | Some 502, _ | Some 200, Completion _ =>
         atomicAdd (totalResponseTime c0) (henv_elapsed e)
     | _, _ => totalResponseTime c0
     end).
Proof. handler_paths call unmarshalRequest auto. Qed.

(** X9. The handler answers 400 or 401 exactly when it builds no upstream
    request.  The key is checked before the body is parsed: a wrong key is
    answered 401 whatever the body holds, and with the right key a body
    that does not decode is answered 400. *)
Theorem chatHandler_rejects_before_upstream cfg unmarshalRequest
        unmarshalUpstream intOfHugeFloat waitOutOfRange call e c0 :
  let r := chatHandler cfg unmarshalRequest unmarshalUpstream
             intOfHugeFloat waitOutOfRange call e c0 in
  let key := TrimSpace (TrimPrefix (call_Authorization call)
                          (bs "Bearer ")) in
  (hr_upstream r = None <->
   hr_status r = Some 400 \/ hr_status r = Some 401) /\
  (forall body, call_body call = Some body ->
     key <> defaultKey cfg -> hr_status r = Some 401) /\
  (forall body, call_body call = Some body ->
     key = defaultKey cfg -> unmarshalRequest body = None ->
     hr_status r = Some 400).
Proof.
  cbv zeta. split; [|split].
  - handler_paths call unmarshalRequest
      ltac:(split; [try discriminate; auto
                   |intros [H|H]; try discriminate H; auto]).
  - intros body Hb Hk. unfold chatHandler. rewrite Hb.
    apply bytes_eqb_neq in Hk. now rewrite Hk.
  - intros body Hb Hk Hu. unfold chatHandler. rewrite Hb, Hk, Hu.
    now rewrite bytes_eqb_refl.
Qed.

(** X10. The request sent upstream depends on the model name and the
    messages of the client's request only, not on its [stream] flag or
    its token limit: it always asks for a stream, passes the messages on
    as they are, switches thinking on for the thinking and the search
    model and web search on for the search model alone, so web search is
    never on without thinking. *)
Theorem buildUpstreamRequest_features (chatReq : OpenAIRequest)
        (e : HandlerEnv) :
  let u := buildUpstreamRequest chatReq e in
  u = buildUpstreamRequest
        {| req_Model := req_Model chatReq;
           req_Messages := req_Messages chatReq;
           req_Stream := None; req_MaxTokens := None |} e /\
  ur_Stream u = true /\
  ur_Messages u = req_Messages chatReq /\
  feature (bs "enable_thinking") (ur_Features u) =
    Some (bytes_eqb (req_Model chatReq) thinkingModelName
          || bytes_eqb (req_Model chatReq) searchModelName) /\
  feature (bs "web_search") (ur_Features u) =
    Some (bytes_eqb (req_Model chatReq) searchModelName) /\
  feature (bs "auto_web_search") (ur_Features u) =
    Some (bytes_eqb (req_Model chatReq) searchModelName).
Proof.
  unfold buildUpstreamRequest, modelFeatures. cbn [req_Model req_Messages].
  destruct (bytes_eqb (req_Model chatReq) thinkingModelName) eqn:Et.
  - apply bytes_eqb_eq in Et. rewrite Et. repeat split.
  - destruct (bytes_eqb (req_Model chatReq) searchModelName);
      repeat split.
Qed.

Lemma serveAll_counts cfg unmarshalRequest unmarshalUpstream intOfHugeFloat
      waitOutOfRange calls :
  forall c0,
    0 <= errorCount c0 <= requestCount c0 ->
    requestCount c0 + Z.of_nat (List.length calls) < 2 ^ 63 ->
    let c := serveAll cfg unmarshalRequest unmarshalUpstream intOfHugeFloat
               waitOutOfRange calls c0 in
    requestCount c = requestCount c0 + Z.of_nat (List.length calls) /\
    0 <= errorCount c <= requestCount c.
Proof.
  induction calls as [|[call e] rest IH]; intros c0 H0 Hn.
  - cbn. split; lia.
  - cbn [serveAll]. cbn [List.length] in Hn.
    pose proof (chatHandler_counts_request cfg unmarshalRequest
                  unmarshalUpstream intOfHugeFloat waitOutOfRange call e c0)
      as Hr.
    pose proof (chatHandler_error_step cfg unmarshalRequest
                  unmarshalUpstream intOfHugeFloat waitOutOfRange call e c0)
      as He.
    cbv zeta in He. unfold atomicAdd in Hr, He.
    rewrite wrap64_small in Hr by lia.
    rewrite wrap64_small in He by lia.
    match type of Hr with requestCount ?x = _ => set (c1 := x) in * end.
    destruct (IH c1) as [IH1 IH2]; [lia|lia|].
    cbv zeta in IH1, IH2. rewrite IH1, Hr. cbn [List.length].
    split; lia.
Qed.

(** X11. After the handler has served any calls, fewer than 2^63/100,
    one after the other from counters at zero, the request count is the
    number of calls, the error count lies between zero and the request
    count, and the error rate of the health endpoint lies between 0 and
    100. *)
Theorem health_error_rate_in_percent cfg unmarshalRequest unmarshalUpstream
        intOfHugeFloat waitOutOfRange calls connections :
  Z.of_nat (List.length calls) <= 92233720368547758 ->
  let c := serveAll cfg unmarshalRequest unmarshalUpstream intOfHugeFloat
             waitOutOfRange calls zeroCounters in
  requestCount c = Z.of_nat (List.length calls) /\
  0 <= errorCount c <= requestCount c /\
  0 <= hs_ErrorRate (healthStats c connections) <= 100.
Proof.
  intros Hn.
  destruct (serveAll_counts cfg unmarshalRequest unmarshalUpstream
              intOfHugeFloat waitOutOfRange calls zeroCounters)
    as [Hr He]; [cbn; lia|cbn; lia|].
  cbv zeta in *. cbn [requestCount zeroCounters] in Hr.
  rewrite Z.add_0_l in Hr.
  split; [exact Hr|split; [exact He|]].
  unfold healthStats. cbn [hs_ErrorRate].
  destruct (0 <? requestCount _) eqn:Ep; [|lia].
  apply Z.ltb_lt in Ep.
  rewrite wrap64_small by lia.
  rewrite Z.quot_div_nonneg by lia.
  split.
  - apply Z.div_pos; lia.
  - apply Z.div_le_upper_bound; lia.
Qed.

Lemma health_error_rate_in_percent_witness :
  hs_ErrorRate
    (healthStats
       (serveAll sampleConfig sampleRequestDecoder sampleUnmarshal 0
          (fun _ _ => 0)
          [({| call_body := Some (bs "plain");
               call_Authorization := bs "Bearer wrong";
               call_flusher := true |}, sampleEnv []);
           (sampleCall (bs "plain"), sampleEnv [])]
          zeroCounters) 0) <= 100.
Proof.
  apply (health_error_rate_in_percent sampleConfig sampleRequestDecoder
           sampleUnmarshal 0 (fun _ _ => 0)
           [({| call_body := Some (bs "plain");
                call_Authorization := bs "Bearer wrong";
                call_flusher := true |}, sampleEnv []);
            (sampleCall (bs "plain"), sampleEnv [])] 0).
  simpl. lia.
Defined.

(** ** The dispatcher *)

Section DispatcherCover.

Variable cfg : Config.
Variable intOfHugeFloat : Z.
Variable waitOutOfRange : Z -> Z -> Z.
Variable env : nat -> AttemptEnv.

Abbreviation turns := (retryLoop cfg intOfHugeFloat waitOutOfRange env).

Ltac events :=
  repeat match goal with
         | H : _ \/ _ |- _ => destruct H
         | H : False |- _ => destruct H
         | H : In _ (_ ++ _) |- _ => apply in_app_or in H
         | H : In _ (_ :: _) |- _ => cbn [In] in H
         | H : In _ [] |- _ => destruct H
         | H : @eq RetryEvent _ _ |- _ =>
             first [discriminate H | injection H as ? ?; subst
                   | injection H as ?; subst]
         end.

Ltac one_turn IH k i :=
  cbn [retryLoop];
  destruct (0 <? i)%nat eqn:?Ei;
  destruct (backoffCancelled (env i)) eqn:?Eb; cbn [andb];
  try (destruct (randomDelay cfg (jitterDraw (env i))) as [[?d|]|] eqn:?Ej);
  try (destruct (outcome (env i)) as [| |? ?] eqn:?Eo);
  try (match goal with
       | |- context [?s =? 200] => destruct (s =? 200) eqn:?Es
       end);
  try (match goal with
       | |- context [(?s =? 429) || (?s =? 403)] =>
           destruct ((s =? 429) || (s =? 403)) eqn:?Er
       end);
  try (destruct (waitCancelled (env i)) eqn:?Ew);
  try (match goal with
       | |- context [turns k (S i) ?l] =>
           specialize (IH (S i) l); destruct (turns k (S i) l) as [? ?]
       end);
  cbn [fst snd] in *.

Lemma retryLoop_events (k : nat) :
  forall i le,
    (List.length (filter isAttempt (fst (turns k i le))) <= k)%nat /\
    (forall j, In (Attempt j) (fst (turns k i le)) -> (i <= j < i + k)%nat) /\
    (forall j d, In (RateWait j d) (fst (turns k i le)) ->
       d = rateLimitWait cfg waitOutOfRange (Z.of_nat j) /\
       (i <= j < i + k)%nat).
Proof.
  induction k as [|k IH]; intros i le.
  - cbn. repeat split; try lia; contradiction.
  - one_turn IH k i; cbn [app] in *;
      try destruct IH as (IH1 & IH2 & IH3);
      (split; [cbn; lia|split]);
      intros; events;
      try (split; [reflexivity|]); try lia;
      try match goal with
          | H : In (Attempt _) _ |- _ => apply IH2 in H; lia
          | H : In (RateWait _ _) _ |- _ =>
              apply IH3 in H; destruct H; split; [assumption|lia]
          end.
Qed.

Lemma retryLoop_success (k : nat) :
  forall i le body,
    snd (turns k i le) = Dispatched body ->
    exists n, (i <= n < i + k)%nat /\
      outcome (env n) = Responded 200 body /\
      (forall j b, (i <= j < n)%nat -> outcome (env j) <> Responded 200 b) /\
      exists pre, fst (turns k i le) = pre ++ [Attempt n].
Proof.
  induction k as [|k IH]; intros i le body; [discriminate|].
  one_turn IH k i; intros Hs; try discriminate Hs;
    first
      [ injection Hs as <-; exists i;
        split; [lia|split; [now apply Z.eqb_eq in Es; subst|]];
        split; [intros; lia|eexists; reflexivity]
      | destruct (IH body Hs) as (n & Hn & Ho & Hfirst & pre & Hpre);
        exists n; split; [lia|split; [exact Ho|split]];
        [ intros j b Hj; destruct (Nat.eq_dec j i) as [->|Hji];
          [ rewrite Eo; try discriminate;
            intros E; injection E as E _; subst; discriminate
          | apply Hfirst; lia ]
        | rewrite Hpre, ?app_comm_cons, app_assoc; eexists; reflexivity ] ].
Qed.

Lemma retryLoop_failure (k : nat) :
  forall i le err,
    snd (turns k i le) = DispatchFailed err ->
    (err = match le with Some e => e | None => ErrAllFailed end /\
     forall j, (i <= j < i + k)%nat ->
       isRateLimited (outcome (env j)) = true) \/
    exists n, (i <= n < i + k)%nat /\ errorCause env n err.
Proof.
  induction k as [|k IH]; intros i le err.
  - cbn. intros E. injection E as <-. left. split; [reflexivity|].
    intros; lia.
  - one_turn IH k i; intros Hs; try discriminate Hs;
      try (injection Hs as <-; right; exists i; split; [lia|]; cbn;
           first [ left; split; [now apply Nat.ltb_lt|assumption]
                 | right; rewrite Eo; split; assumption ]);
      try (destruct (IH err Hs) as [[He Hall]|(n & Hn & Hc)];
           [|right; exists n; split; [lia|exact Hc]]).
    all: try (right; exists i; split; [lia|]; subst err; cbn;
              first [ assumption
                    | split; [eexists; eassumption|];
                      apply orb_false_iff in Er; destruct Er as [E1 E2];
                      apply Z.eqb_neq in Es, E1, E2; auto ]).
    all: left; split; [assumption|];
      intros j Hj; destruct (Nat.eq_dec j i) as [->|Hji];
      [rewrite Eo; exact Er|apply Hall; lia].
Qed.

Lemma retryLoop_rate_limited (k : nat) :
  (forall j, isRateLimited (outcome (env j)) = true) ->
  (forall j, backoffCancelled (env j) = false) ->
  (forall j, waitCancelled (env j) = false) ->
  (forall j, randomDelay cfg (jitterDraw (env j)) <> None) ->
  forall i le,
    snd (turns k i le) =
      DispatchFailed match le with Some e => e | None => ErrAllFailed end /\
    List.length (filter isAttempt (fst (turns k i le))) = k /\
    List.length (filter isRateWait (fst (turns k i le))) = k.
Proof.
  intros Hrl Hb Hw Hj.
  induction k as [|k IH]; intros i le; [cbn; auto|].
  pose proof (Hrl i) as Hi. pose proof (Hj i) as Hji.
  cbn [retryLoop]. rewrite (Hb i), andb_false_r.
  destruct (randomDelay cfg (jitterDraw (env i))) as [jit|]; [|now elim Hji].
  destruct (outcome (env i)) as [| |status body]; try discriminate Hi.
  cbn [isRateLimited] in Hi. rewrite Hi, (Hw i).
  replace (status =? 200) with false.
  2:{ symmetry. apply Z.eqb_neq. intros ->. discriminate Hi. }
  specialize (IH (S i) le).
  destruct (turns k (S i) le) as [tr r]. cbn [fst snd] in *.
  destruct IH as (IH1 & IH2 & IH3). split; [exact IH1|].
  rewrite !filter_app, !length_app.
  destruct (0 <? i)%nat; destruct jit; cbn; rewrite ?IH2, ?IH3; auto.
Qed.

(** X12. The dispatcher sends at most [maxRetries] requests, and each of
    them at a turn below [maxRetries], whatever the upstream answers. *)
Theorem requestWithRetry_attempts_bounded :
  let trace := fst (requestWithRetry cfg intOfHugeFloat waitOutOfRange env) in
  (List.length (filter isAttempt trace) <= Z.to_nat (maxRetries cfg))%nat /\
  forall j, In (Attempt j) trace -> Z.of_nat j < maxRetries cfg.
Proof.
  cbv zeta. unfold requestWithRetry.
  destruct (retryLoop_events (Z.to_nat (maxRetries cfg)) 0 None)
    as (H1 & H2 & _).
  split; [exact H1|]. intros j Hj. apply H2 in Hj. lia.
Qed.

(** X13. The dispatcher hands over a response body only if the upstream
    answered 200 with that body; the request that got it is the last
    event, and no earlier turn was answered 200. *)
Theorem requestWithRetry_success_is_first_200 (body : list ReadResult) :
  snd (requestWithRetry cfg intOfHugeFloat waitOutOfRange env)
    = Dispatched body ->
  exists n,
    Z.of_nat n < maxRetries cfg /\
    outcome (env n) = Responded 200 body /\
    (forall j b, (j < n)%nat -> outcome (env j) <> Responded 200 b) /\
    exists pre,
      fst (requestWithRetry cfg intOfHugeFloat waitOutOfRange env)
      = pre ++ [Attempt n].
Proof.
  unfold requestWithRetry. intros H.
  destruct (retryLoop_success _ _ _ _ H) as (n & Hn & Ho & Hf & Hp).
  exists n. split; [lia|split; [exact Ho|split; [|exact Hp]]].
  intros j b Hj. apply Hf. lia.
Qed.

(** X14. The error of a failed dispatch names what happened at a turn
    below [maxRetries]: a cancelled wait for the context error, a request
    that could not be built or sent, or a status other than 200, 429 and
    403.  The error that all retries failed is reported only when every
    turn was answered 429 or 403: a rate limit leaves no error of its
    own. *)
Theorem requestWithRetry_failure_cause (err : DispatchError) :
  snd (requestWithRetry cfg intOfHugeFloat waitOutOfRange env)
    = DispatchFailed err ->
  (err = ErrAllFailed /\
   forall j, Z.of_nat j < maxRetries cfg ->
     isRateLimited (outcome (env j)) = true) \/
  exists n, Z.of_nat n < maxRetries cfg /\ errorCause env n err.
Proof.
  unfold requestWithRetry. intros H.
  destruct (retryLoop_failure _ _ _ _ H) as [[He Hall]|(n & Hn & Hc)].
  - left. split; [exact He|]. intros j Hj. apply Hall. lia.
  - right. exists n. split; [lia|exact Hc].
Qed.

(** X15. With delays in range and no wait cancelled, an upstream that
    answers every request with 429 or 403 is asked [maxRetries] times,
    with a wait after each answer, and the dispatch fails with the error
    that all retries failed. *)
Theorem requestWithRetry_rate_limited_throughout :
  delaysInRange cfg ->
  (forall j, isRateLimited (outcome (env j)) = true) ->
  (forall j, backoffCancelled (env j) = false) ->
  (forall j, waitCancelled (env j) = false) ->
  let r := requestWithRetry cfg intOfHugeFloat waitOutOfRange env in
  snd r = DispatchFailed ErrAllFailed /\
  List.length (filter isAttempt (fst r)) = Z.to_nat (maxRetries cfg) /\
  List.length (filter isRateWait (fst r)) = Z.to_nat (maxRetries cfg).
Proof.
  intros Hd Hrl Hb Hw. cbv zeta. unfold requestWithRetry.
  apply (retryLoop_rate_limited (Z.to_nat (maxRetries cfg)) Hrl Hb Hw).
  intros j. rewrite (randomDelay_exact cfg Hd).
  destruct (randomDelayMin cfg <? randomDelayMax cfg); discriminate.
Qed.

(** X16. With a retry delay that is not negative and at most 1024
    retries, every wait after a 429 or a 403 lasts the retry delay
    doubled once per earlier turn, capped at ten seconds. *)
Theorem requestWithRetry_rate_wait_capped (j : nat) (d : Z) :
  0 <= retryDelay cfg ->
  maxRetries cfg <= 1024 ->
  In (RateWait j d)
     (fst (requestWithRetry cfg intOfHugeFloat waitOutOfRange env)) ->
  d = Z.min (retryDelay cfg * 2 ^ Z.of_nat j) 10000 * 1000000 /\
  0 <= d <= 10000000000.
Proof.
  intros Hr Hm Hin. unfold requestWithRetry in Hin.
  destruct (retryLoop_events (Z.to_nat (maxRetries cfg)) 0 None)
    as (_ & _ & H3).
  apply H3 in Hin. destruct Hin as [-> Hj].
  unfold rateLimitWait, milliseconds.
  replace (0 <=? retryDelay cfg) with true
    by (symmetry; apply Z.leb_le; lia).
  replace (Z.of_nat j <? 1024) with true
    by (symmetry; apply Z.ltb_lt; lia).
  cbn [andb].
  assert (0 <= retryDelay cfg * 2 ^ Z.of_nat j)
    by (apply Z.mul_nonneg_nonneg; [lia|apply Z.pow_nonneg; lia]).
  rewrite wrap64_small by lia. lia.
Qed.

End DispatcherCover.

Lemma requestWithRetry_success_is_first_200_witness :
  exists n,
    Z.of_nat n < maxRetries sampleConfig /\
    outcome (rateLimitedTwice n) = Responded 200 [] /\
    (forall j b, (j < n)%nat ->
       outcome (rateLimitedTwice j) <> Responded 200 b) /\
    exists pre,
      fst (requestWithRetry sampleConfig 0 (fun _ _ => 0) rateLimitedTwice)
      = pre ++ [Attempt n].
Proof.
  apply (requestWithRetry_success_is_first_200 sampleConfig 0
           (fun _ _ => 0) rateLimitedTwice []).
  reflexivity.
Defined.

Lemma requestWithRetry_failure_cause_witness :
  (ErrHTTP 500 = ErrAllFailed /\
   forall j, Z.of_nat j < maxRetries sampleConfig ->
     isRateLimited (outcome (alwaysAnswers 500 j)) = true) \/
  exists n, Z.of_nat n < maxRetries sampleConfig /\
            errorCause (alwaysAnswers 500) n (ErrHTTP 500).
Proof.
  apply (requestWithRetry_failure_cause sampleConfig 0 (fun _ _ => 0)
           (alwaysAnswers 500) (ErrHTTP 500)).
  reflexivity.
Defined.

Lemma requestWithRetry_rate_limited_throughout_witness :
  snd (requestWithRetry sampleConfig 0 (fun _ _ => 0) (alwaysAnswers 429))
  = DispatchFailed ErrAllFailed.
Proof.
  apply (requestWithRetry_rate_limited_throughout sampleConfig 0
           (fun _ _ => 0) (alwaysAnswers 429));
    [unfold delaysInRange; simpl; lia|reflexivity..].
Defined.

Lemma requestWithRetry_rate_wait_capped_witness :
  2000000000 = Z.min (retryDelay sampleConfig * 2 ^ Z.of_nat 1) 10000 * 1000000
  /\ 0 <= 2000000000 <= 10000000000.
Proof.
  apply (requestWithRetry_rate_wait_capped sampleConfig 0 (fun _ _ => 0)
           rateLimitedTwice 1 2000000000);
    [simpl; lia|simpl; lia|vm_compute; auto 10].
Defined.

(** ** The streaming translator *)

Section TranslatorCover.

Variable cfg : Config.
Variable unmarshalUpstream : bytes -> option UpstreamData.
Variable clock : nat -> Z.
Variable alive : Z -> bool.

Abbreviation processLine := (processStreamLine cfg unmarshalUpstream clock).
Abbreviation drain := (drainLines cfg unmarshalUpstream clock).
Abbreviation loop := (streamLoop cfg unmarshalUpstream clock alive).
Abbreviation feedText := (feed cfg unmarshalUpstream clock).
Abbreviation respond :=
  (handleStreamResponse cfg unmarshalUpstream clock alive).
Abbreviation opened := (emitChunk clock roleDelta [] initialState).

(** *** A relation between states that every line keeps is kept by the
    loop *)

Section Lifting.

Variable R : TState -> TState -> Prop.
Hypothesis R_refl : forall st, streamClosed st = false -> R st st.
Hypothesis R_trans :
  forall a b c, R a b -> streamClosed b = false -> R b c -> R a c.
Hypothesis R_line :
  forall line st,
    isInThinkBlock st = false -> streamClosed st = false ->
    R st (processLine line st).

Lemma drainLines_lifts (buf : bytes) :
  forall cur st,
    isInThinkBlock st = false -> streamClosed st = false ->
    R st (snd (drain buf cur st)) /\
    isInThinkBlock (snd (drain buf cur st)) = false.
Proof.
  induction buf as [|c t IH]; intros cur st Ht Hc; simpl.
  - split; [now apply R_refl|exact Ht].
  - destruct (Ascii.eqb c LF); [|now apply IH].
    rewrite Hc.
    pose proof (R_line (rev cur) st Ht Hc) as HR.
    destruct (processStreamLine_think_flags cfg unmarshalUpstream clock
                (rev cur) st) as [Hf _].
    rewrite Ht in Hf.
    destruct (streamClosed (processLine (rev cur) st)) eqn:E;
      [split; assumption|].
    destruct (IH [] _ Hf E) as [IH1 IH2].
    split; [|exact IH2].
    eapply R_trans; [exact HR|exact E|exact IH1].
Qed.

Lemma streamLoop_lifts (reads : list ReadResult) :
  forall lineBuffer checkCounter st,
    isInThinkBlock st = false -> streamClosed st = false ->
    R st (snd (loop reads lineBuffer checkCounter st)) /\
    isInThinkBlock (snd (loop reads lineBuffer checkCounter st)) = false.
Proof.
  assert (Hline : forall line st,
             isInThinkBlock st = false -> streamClosed st = false ->
             R st (processLine line st) /\
             isInThinkBlock (processLine line st) = false).
  { intros line st Ht Hc. split; [now apply R_line|].
    destruct (processStreamLine_think_flags cfg unmarshalUpstream clock
                line st) as [Hf _]. congruence. }
  induction reads as [|r rest IH]; intros lb cc st Ht Hc; simpl; rewrite Hc.
  - destruct (_ && _); [split; [now apply R_refl|exact Ht]|].
    destruct (_ && _); [split; [now apply R_refl|exact Ht]|]; simpl.
    destruct (negb (isEmpty lb) && true);
      [now apply Hline|split; [now apply R_refl|exact Ht]].
  - destruct (_ && _); [split; [now apply R_refl|exact Ht]|].
    destruct (_ && _); [split; [now apply R_refl|exact Ht]|].
    assert (HD : forall p : bytes * TState,
               p = (if isEmpty (rd_data r) then (lb, st)
                    else drain (guardLineBuffer (lb ++ rd_data r)) [] st) ->
               R st (snd p) /\ isInThinkBlock (snd p) = false).
    { intros p ->; destruct (isEmpty (rd_data r)); simpl;
        [split; [now apply R_refl|exact Ht]|now apply drainLines_lifts]. }
    specialize (HD _ eq_refl).
    destruct (if isEmpty (rd_data r) then (lb, st) else _) as [lb1 st1];
      simpl in HD. destruct HD as [HD Ht1].
    destruct (streamClosed st1) eqn:E1.
    + destruct (rd_err r) as [[|]|]; simpl; try (split; assumption).
      * rewrite andb_false_r; split; assumption.
      * destruct rest; simpl; rewrite E1; split; assumption.
    + destruct (rd_err r) as [[|]|]; simpl; try (split; assumption).
      * destruct (negb (isEmpty lb1) && true); [|split; assumption].
        destruct (Hline lb1 st1 Ht1 E1) as [H1 H2].
        split; [|exact H2]. eapply R_trans; [exact HD|exact E1|exact H1].
      * destruct (IH lb1 (if disableConnectionCheck cfg then cc
                          else wrap64 (cc + 1)) st1 Ht1 E1) as [H1 H2].
        split; [|exact H2]. eapply R_trans; [exact HD|exact E1|exact H1].
Qed.

End Lifting.

(** *** The kinds of the frames *)

Lemma Stretch_refl (st : TState) : streamClosed st = false -> Stretch st st.
Proof.
  intros H. exists []. rewrite app_nil_r, H. split; [reflexivity|].
  exists [], []. repeat split.
Qed.

Lemma Stretch_trans (a b c : TState) :
  Stretch a b -> streamClosed b = false -> Stretch b c -> Stretch a c.
Proof.
  intros (n1 & Hw1 & Hk1) Hb (n2 & Hw2 & Hk2).
  exists (n1 ++ n2). split; [now rewrite Hw2, Hw1, app_assoc|].
  rewrite Hb in Hk1. destruct Hk1 as (b1 & t1 & E1 & F1 & ->).
  destruct Hk2 as (b2 & t2 & E2 & F2 & Ht2).
  exists (b1 ++ b2), t2. rewrite map_app, E1, E2, app_nil_r, forallb_app, F1, F2.
  rewrite app_assoc. repeat split. exact Ht2.
Qed.

Lemma Stretch_body (d : Delta) (st : TState) :
  streamClosed st = false ->
  isBodyKind
    (frameKind (SSEChunk (fst (newChunk clock d [] st)))) = true ->
  Stretch st (emitChunk clock d [] st).
Proof.
  intros Hc Hk. exists [SSEChunk (fst (newChunk clock d [] st))].
  split; [reflexivity|].
  change (streamClosed (emitChunk clock d [] st)) with (streamClosed st).
  rewrite Hc. eexists [_], []. cbn [map forallb]. rewrite Hk.
  repeat split.
Qed.

Lemma Stretch_closing (st : TState) :
  Stretch st
    (setStreamClosed
       (write DoneLine (emitChunk clock emptyDelta (bs "stop") st))).
Proof.
  exists [SSEChunk (fst (newChunk clock emptyDelta (bs "stop") st));
          DoneLine].
  split; [cbn; now rewrite <- app_assoc|].
  exists [], [KFinish; KTerminal]. repeat split. now right.
Qed.

Lemma Stretch_splice (u : UpstreamData) (st : TState) :
  streamClosed st = false -> Stretch st (spliceInitialAnswer clock u st).
Proof.
  intros H; unfold spliceInitialAnswer.
  destruct (_ && _); [|now apply Stretch_refl].
  destruct (Split _ _) as [|? [|content ?]]; try now apply Stretch_refl.
  destruct content as [|c0 content]; [now apply Stretch_refl|].
  cbn [isEmpty negb].
  destruct (Stretch_body
              {| d_Role := []; d_Content := c0 :: content;
                 d_ReasoningContent := [] |} st H eq_refl)
    as (news & Hw & Hk).
  exists news. split; [exact Hw|exact Hk].
Qed.

Lemma Stretch_delta (u : UpstreamData) (st : TState) :
  streamClosed st = false -> Stretch st (emitDelta cfg clock u st).
Proof.
  intros H; unfold emitDelta.
  destruct (DeltaContent (ud_Data u)) as [|c0 out];
    [now apply Stretch_refl|].
  cbn [isEmpty negb].
  destruct (bytes_eqb _ _).
  - destruct (transformThinking _ _) as [|c1 out0];
      [now apply Stretch_refl|].
    cbn [isEmpty negb]. now apply Stretch_body.
  - now apply Stretch_body.
Qed.

Lemma Stretch_finish (u : UpstreamData) (st : TState) :
  streamClosed st = false -> Stretch st (finishOnDone clock u st).
Proof.
  intros H; unfold finishOnDone.
  destruct (_ || _); [apply Stretch_closing|now apply Stretch_refl].
Qed.

Lemma Stretch_line (line : bytes) (st : TState) :
  isInThinkBlock st = false -> streamClosed st = false ->
  Stretch st (processLine line st).
Proof.
  intros Ht Hc; unfold processStreamLine.
  destruct (HasPrefix _ _); [|now apply Stretch_refl].
  destruct (bytes_eqb _ _).
  - rewrite Ht; cbn [andb].
    exists [DoneLine]. split; [reflexivity|].
    exists [], [KTerminal]. repeat split. now left.
  - destruct (negb _); [|now apply Stretch_refl].
    destruct (unmarshalUpstream _) as [u|]; [|now apply Stretch_refl].
    destruct (hasUpstreamError u); [apply Stretch_closing|].
    eapply Stretch_trans;
      [apply Stretch_splice, Hc
      | now rewrite spliceInitialAnswer_open |].
    eapply Stretch_trans;
      [apply Stretch_delta; now rewrite spliceInitialAnswer_open
      | now rewrite emitDelta_open, spliceInitialAnswer_open |].
    apply Stretch_finish.
    now rewrite emitDelta_open, spliceInitialAnswer_open.
Qed.

(** X17. The frames of a streamed response follow one grammar, whatever
    the upstream sends and however the loop ends: the role opener; then
    chunks that carry content or reasoning, never both and never a role
    or a finish reason; then, if the stream was closed, the terminal
    line, with at most one finish chunk, which stands right before it.
    Every chunk is a [chat.completion.chunk] of the default model with
    one choice and no usage. *)
Theorem handleStreamResponse_grammar (reads : list ReadResult) :
  let st := sr_state (respond true reads) in
  exists ks,
    map frameKind (written st) = KOpener :: ks /\
    stretchKinds (streamClosed st) ks.
Proof.
  unfold handleStreamResponse; simpl negb; cbv iota.
  destruct (streamLoop_lifts Stretch Stretch_refl Stretch_trans Stretch_line
              reads [] 0%Z opened eq_refl eq_refl) as [HS Ht].
  destruct (loop reads [] 0%Z opened) as [ex st1]; simpl in HS, Ht.
  destruct HS as (news & Hw & Hk).
  assert (Hst : map frameKind (written st1) = KOpener :: map frameKind news)
    by (rewrite Hw; reflexivity).
  destruct ex; simpl; [rewrite Ht; simpl|];
    (exists (map frameKind news); split; [exact Hst|exact Hk]).
Qed.

(** *** The body as a text *)

Lemma feed_whole_lines (p : bytes) :
  forall cur st rest,
    feedText ((p ++ [LF]) ++ rest) cur st =
    if streamClosed (feedText (p ++ [LF]) cur st)
    then feedText (p ++ [LF]) cur st
    else feedText rest [] (feedText (p ++ [LF]) cur st).
Proof.
  induction p as [|c p IH]; intros cur st rest.
  - cbn [app feed]. rewrite Ascii.eqb_refl.
    set (st1 := if streamClosed st then st else processLine (rev cur) st).
    destruct (streamClosed st1) eqn:E; [now rewrite E|].
    cbn [rev isEmpty negb andb]. now rewrite E.
  - cbn [app feed]. destruct (Ascii.eqb c LF); [|apply IH].
    set (st1 := if streamClosed st then st else processLine (rev cur) st).
    destruct (streamClosed st1) eqn:E; [now rewrite E|apply IH].
Qed.

Lemma feed_after (pre rest : bytes) (st : TState) :
  completeLines pre ->
  streamClosed st = false ->
  feedText (pre ++ rest) [] st =
  if streamClosed (feedText pre [] st) then feedText pre [] st
  else feedText rest [] (feedText pre [] st).
Proof.
  intros [->|[p ->]] Hc; [|apply feed_whole_lines].
  cbn [app feed rev isEmpty negb andb]. now rewrite Hc.
Qed.

Lemma passedOver_skip (line : bytes) (st : TState) :
  passedOver unmarshalUpstream line -> processLine line st = st.
Proof.
  unfold processStreamLine. intros [H|[H|[H1 H2]]].
  - now rewrite H.
  - rewrite H. destruct (HasPrefix _ _); reflexivity.
  - apply bytes_eqb_neq in H1. rewrite H1, H2.
    destruct (HasPrefix _ _); [destruct (negb _)|]; reflexivity.
Qed.

Lemma respond_feed (reads : list ReadResult) :
  clientStays cfg alive ->
  Forall modestRead reads ->
  respond true reads =
  {| sr_status := 200; sr_exit := Returned;
     sr_state := feedText (List.concat (map rd_data reads)) [] opened |} /\
  isInThinkBlock (feedText (List.concat (map rd_data reads)) [] opened)
  = false.
Proof.
  intros Hs Hm. unfold handleStreamResponse; simpl negb; cbv iota.
  destruct (streamLoop_lifts (fun _ _ => True) (fun _ _ => I)
              (fun _ _ _ _ _ _ => I) (fun _ _ _ _ => I)
              reads [] 0%Z opened eq_refl eq_refl) as [_ Ht].
  rewrite (streamLoop_feed cfg unmarshalUpstream clock alive reads [] 0
             opened Hs Hm (fun H => H) eq_refl) in *.
  cbn [snd rev] in Ht. cbn [rev]. rewrite Ht. cbn [andb].
  split; reflexivity.
Qed.

(** X18. With a client that stays and reads of at most 512 KiB without
    an error, the response depends on the text of the upstream body
    alone, not on where the reads cut it: a line that arrives in pieces
    is put together again. *)
Theorem handleStreamResponse_cut_irrelevant (reads1 reads2 : list ReadResult) :
  clientStays cfg alive ->
  Forall modestRead reads1 ->
  Forall modestRead reads2 ->
  List.concat (map rd_data reads1) = List.concat (map rd_data reads2) ->
  respond true reads1 = respond true reads2.
Proof.
  intros Hs H1 H2 E.
  destruct (respond_feed reads1 Hs H1) as [-> _].
  destruct (respond_feed reads2 Hs H2) as [-> _].
  now rewrite E.
Qed.

(** X19. A line that is no data line, a data line with nothing after the
    prefix, or one whose text is not the sentinel and does not decode,
    standing between whole lines, leaves no trace in the response. *)
Theorem handleStreamResponse_passes_over (reads1 reads2 : list ReadResult)
        (pre line post : bytes) :
  clientStays cfg alive ->
  Forall modestRead reads1 ->
  Forall modestRead reads2 ->
  List.concat (map rd_data reads1) = pre ++ line ++ LF :: post ->
  List.concat (map rd_data reads2) = pre ++ post ->
  completeLines pre ->
  ~ In LF line ->
  passedOver unmarshalUpstream line ->
  respond true reads1 = respond true reads2.
Proof.
  intros Hs H1 H2 E1 E2 Hp Hl Hk.
  destruct (respond_feed reads1 Hs H1) as [-> _].
  destruct (respond_feed reads2 Hs H2) as [-> _].
  rewrite E1, E2. f_equal.
  rewrite !(feed_after pre _ opened Hp eq_refl).
  destruct (streamClosed (feedText pre [] opened)) eqn:Ec; [reflexivity|].
  rewrite (feed_line cfg unmarshalUpstream clock line post [] _ Hl Ec).
  cbn [rev app]. rewrite (passedOver_skip line _ Hk), Ec. reflexivity.
Qed.

(** X20. An event that reports an upstream error ends the response: what
    stands before it is translated as without it, then come a finish
    chunk and the terminal line, and neither the delta of the event nor
    anything after it is translated. *)
Theorem handleStreamResponse_error_event (reads0 reads1 : list ReadResult)
        (line rest : bytes) (u : UpstreamData) :
  clientStays cfg alive ->
  Forall modestRead reads0 ->
  Forall modestRead reads1 ->
  completeLines (List.concat (map rd_data reads0)) ->
  List.concat (map rd_data reads1)
    = List.concat (map rd_data reads0) ++ line ++ LF :: rest ->
  ~ In LF line ->
  carriesEvent unmarshalUpstream line u ->
  hasUpstreamError u = true ->
  let s0 := sr_state (respond true reads0) in
  let s1 := sr_state (respond true reads1) in
  if streamClosed s0 then s1 = s0
  else streamClosed s1 = true /\
       map frameKind (written s1)
       = map frameKind (written s0) ++ [KFinish; KTerminal].
Proof.
  intros Hs H0 H1 Hp E Hl (Hd & Hn & He & Hu) Herr. cbv zeta.
  destruct (respond_feed reads0 Hs H0) as [-> _].
  destruct (respond_feed reads1 Hs H1) as [-> _].
  cbn [sr_state]. rewrite E.
  rewrite (feed_after _ _ opened Hp eq_refl).
  set (s0 := feedText (List.concat (map rd_data reads0)) [] opened).
  destruct (streamClosed s0) eqn:Ec; [reflexivity|].
  rewrite (feed_line cfg unmarshalUpstream clock line rest [] _ Hl Ec).
  cbn [rev app].
  assert (Hline : processLine line s0 =
                  setStreamClosed
                    (write DoneLine
                       (emitChunk clock emptyDelta (bs "stop") s0))).
  { unfold processStreamLine. rewrite Hd.
    apply bytes_eqb_neq in Hn. rewrite Hn.
    apply isEmpty_false in He. rewrite He. cbn [negb].
    now rewrite Hu, Herr. }
  rewrite Hline. cbn [streamClosed setStreamClosed].
  split; [reflexivity|].
  cbn [written setStreamClosed write emitChunk newChunk].
  rewrite <- app_assoc, map_app. reflexivity.
Qed.

(** X21. With the connection check on and a check interval of zero, the
    remainder by the interval stops the handler in its first turn: the
    response is the role opener and nothing else, whatever the upstream
    sent. *)
Theorem handleStreamResponse_zero_interval (reads : list ReadResult) :
  disableConnectionCheck cfg = false ->
  connectionCheckInterval cfg = 0 ->
  sr_exit (respond true reads) = Panicked /\
  map frameKind (written (sr_state (respond true reads))) = [KOpener].
Proof.
  intros Hd Hi. unfold handleStreamResponse; simpl negb; cbv iota.
  assert (E : loop reads [] 0 opened = (Panicked, opened)).
  { destruct reads; cbn [streamLoop]; rewrite Hd, Hi; reflexivity. }
  rewrite E. split; reflexivity.
Qed.

End TranslatorCover.

Lemma LastIndex_newline (l : bytes) :
  forall i, LastIndex l [LF] = Some i -> nth_error l i = Some LF.
Proof.
  induction l as [|c l IH]; intros i; [discriminate|].
  cbn [LastIndex].
  destruct (LastIndex l [LF]) as [i'|].
  - intros E. injection E as <-. now apply IH.
  - destruct (HasPrefix (c :: l) [LF]) eqn:Ep; [|discriminate].
    intros E. injection E as <-.
    apply HasPrefix_iff in Ep. destruct Ep as [t Et].
    injection Et as -> _. reflexivity.
Qed.

Lemma firstn_snoc (l : bytes) :
  forall i x, nth_error l i = Some x -> firstn (S i) l = firstn i l ++ [x].
Proof.
  induction l as [|c l IH]; intros [|i] x H; try discriminate.
  - injection H as <-. reflexivity.
  - cbn [firstn app]. f_equal. now apply IH.
Qed.

(** X22. The guard of the line buffer leaves a buffer of at most 1 MiB
    alone.  What it cuts from a larger one is a prefix of whole lines, at
    most half of the buffer, so the text that remains starts at the start
    of a line. *)
Theorem guardLineBuffer_cuts_whole_lines (lineBuffer : bytes) :
  exists cut,
    lineBuffer = cut ++ guardLineBuffer lineBuffer /\
    completeLines cut /\
    (List.length cut <= List.length lineBuffer / 2)%nat /\
    ((N.of_nat (List.length lineBuffer) <= 1048576)%N -> cut = []).
Proof.
  unfold guardLineBuffer.
  destruct (1048576 <? N.of_nat (List.length lineBuffer))%N eqn:Eb.
  2:{ exists []. split; [reflexivity|].
      split; [now left|split; [cbn; lia|reflexivity]]. }
  apply N.ltb_lt in Eb.
  destruct (LastIndex _ [LF]) as [idx|] eqn:El.
  2:{ exists []. split; [reflexivity|].
      split; [now left|split; [cbn; lia|reflexivity]]. }
  destruct (0 <? idx)%nat eqn:E0.
  2:{ exists []. split; [reflexivity|].
      split; [now left|split; [cbn; lia|reflexivity]]. }
  apply LastIndex_newline in El.
  rewrite nth_error_firstn in El.
  destruct (idx <? List.length lineBuffer / 2)%nat eqn:Ei; [|discriminate].
  apply Nat.ltb_lt in Ei.
  exists (firstn (idx + 1) lineBuffer).
  split; [now rewrite firstn_skipn|].
  split; [right; exists (firstn idx lineBuffer);
          rewrite Nat.add_1_r; now apply firstn_snoc|].
  split; [rewrite length_firstn; lia|intros; lia].
Qed.

Lemma handleStreamResponse_cut_irrelevant_witness :
  handleStreamResponse sampleConfig sampleUnmarshal sampleClock alwaysAlive
    true [oneRead (sseLine (eventJSON (bs "answer") (bs "Hello")))]
  = handleStreamResponse sampleConfig sampleUnmarshal sampleClock alwaysAlive
      true [oneRead (bs "data: ");
            oneRead (eventJSON (bs "answer") (bs "Hello") ++ [LF])].
Proof.
  apply (handleStreamResponse_cut_irrelevant sampleConfig sampleUnmarshal
           sampleClock alwaysAlive);
    [ right; split; [discriminate|reflexivity]
    | repeat constructor; vm_compute; congruence
    | repeat constructor; vm_compute; congruence
    | reflexivity ].
Defined.

Lemma handleStreamResponse_passes_over_witness :
  handleStreamResponse sampleConfig sampleUnmarshal sampleClock alwaysAlive
    true [oneRead (sseLine (eventJSON (bs "answer") (bs "Hi"))
                   ++ bs ": keep-alive" ++ LF :: sseLine doneJSON)]
  = handleStreamResponse sampleConfig sampleUnmarshal sampleClock alwaysAlive
      true [oneRead (sseLine (eventJSON (bs "answer") (bs "Hi"))
                     ++ sseLine doneJSON)].
Proof.
  apply (handleStreamResponse_passes_over sampleConfig sampleUnmarshal
           sampleClock alwaysAlive _ _
           (sseLine (eventJSON (bs "answer") (bs "Hi")))
           (bs ": keep-alive") (sseLine doneJSON));
    [ right; split; [discriminate|reflexivity]
    | repeat constructor; vm_compute; congruence
    | repeat constructor; vm_compute; congruence
    | reflexivity
    | reflexivity
    | right; exists (bs "data: " ++ eventJSON (bs "answer") (bs "Hi"));
      reflexivity
    | simpl; intuition discriminate
    | left; reflexivity ].
Defined.

Lemma handleStreamResponse_error_event_witness :
  map frameKind
    (written
       (sr_state
          (handleStreamResponse sampleConfig errorDecoder sampleClock
             alwaysAlive true
             [oneRead (sseLine (eventJSON (bs "answer") (bs "Hi"))
                       ++ (bs "data: " ++ errorJSON)
                       ++ LF :: sseLine (eventJSON (bs "answer")
                                           (bs "late")))])))
  = [KOpener; KContent; KFinish; KTerminal].
Proof.
  pose proof
    (handleStreamResponse_error_event sampleConfig errorDecoder sampleClock
       alwaysAlive
       [oneRead (sseLine (eventJSON (bs "answer") (bs "Hi")))]
       [oneRead (sseLine (eventJSON (bs "answer") (bs "Hi"))
                 ++ (bs "data: " ++ errorJSON)
                 ++ LF :: sseLine (eventJSON (bs "answer") (bs "late")))]
       (bs "data: " ++ errorJSON)
       (sseLine (eventJSON (bs "answer") (bs "late")))
       errorEvent
       ltac:(right; split; [discriminate|reflexivity])
       ltac:(repeat constructor; vm_compute; congruence)
       ltac:(repeat constructor; vm_compute; congruence)
       ltac:(right;
             exists (bs "data: " ++ eventJSON (bs "answer") (bs "Hi"));
             reflexivity)
       ltac:(reflexivity)
       ltac:(simpl; intuition discriminate)
       ltac:(repeat split; vm_compute; congruence)
       ltac:(reflexivity)) as H.
  vm_compute in H. destruct H as [_ H]. vm_compute. exact H.
Defined.

Lemma handleStreamResponse_zero_interval_witness :
  sr_exit (handleStreamResponse zeroIntervalConfig sampleUnmarshal
             sampleClock alwaysAlive true
             [oneRead (sseLine (eventJSON (bs "answer") (bs "Hi")))])
  = Panicked /\
  map frameKind
    (written
       (sr_state
          (handleStreamResponse zeroIntervalConfig sampleUnmarshal
             sampleClock alwaysAlive true
             [oneRead (sseLine (eventJSON (bs "answer") (bs "Hi")))])))
  = [KOpener].
Proof.
  apply (handleStreamResponse_zero_interval zeroIntervalConfig
           sampleUnmarshal sampleClock alwaysAlive); reflexivity.
Defined.

(** ** The aggregator of the non-streaming path *)

Section AggregatorCover.

Variable cfg : Config.

Ltac same_tests :=
  repeat match goal with
         | |- context [if ?b then _ else _] => destruct b
         | |- context [match ?u ?j with Some _ => _ | None => _ end] =>
             destruct (u j)
         end.

(** X23. A line that is no data line, holds nothing after the prefix,
    holds the sentinel, or does not decode leaves no trace in the
    collected content.  The sentinel in particular does not end the
    collection: content that follows it is collected. *)
Theorem collectContent_passes_over
        (unmarshalUpstream : bytes -> option UpstreamData)
        (before after : list bytes) (line acc : bytes) :
  passedOverByAggregator unmarshalUpstream line ->
  collectContent cfg unmarshalUpstream (before ++ line :: after) acc
  = collectContent cfg unmarshalUpstream (before ++ after) acc.
Proof.
  intros Hp. revert acc.
  induction before as [|l before IH]; intros acc.
  - cbn [app collectContent].
    destruct Hp as [H|[H|[H|H]]]; rewrite H; cbn [negb isEmpty orb];
      try reflexivity.
    + destruct (HasPrefix _ _); reflexivity.
    + rewrite bytes_eqb_refl, orb_true_r.
      destruct (HasPrefix _ _); reflexivity.
    + destruct (HasPrefix _ _); cbn [negb]; [|reflexivity].
      destruct (_ || _); reflexivity.
  - cbn [app collectContent]. same_tests; try apply IH; reflexivity.
Qed.

(** X24. The collection ends at the first event with the done flag or
    the done phase: no line after it changes the content. *)
Theorem collectContent_stops_at_done
        (unmarshalUpstream : bytes -> option UpstreamData)
        (before after : list bytes) (j acc : bytes) (u : UpstreamData) :
  j <> [] ->
  j <> bs "[DONE]" ->
  unmarshalUpstream j = Some u ->
  Done (ud_Data u) = true \/ Phase (ud_Data u) = bs "done" ->
  collectContent cfg unmarshalUpstream
    (before ++ (bs "data: " ++ j) :: after) acc
  = collectContent cfg unmarshalUpstream
      (before ++ [bs "data: " ++ j]) acc.
Proof.
  intros Hn Hd Hu Hdone. revert acc.
  induction before as [|l before IH]; intros acc.
  - cbn [app collectContent].
    rewrite (HasPrefix_app (bs "data: ") j), (TrimPrefix_app (bs "data: ") j).
    apply isEmpty_false in Hn. apply bytes_eqb_neq in Hd.
    rewrite Hn, Hd, Hu. cbn [negb orb].
    replace (Done (ud_Data u) || bytes_eqb (Phase (ud_Data u)) (bs "done"))
      with true; [reflexivity|].
    destruct Hdone as [->| ->]; [reflexivity|].
    now rewrite bytes_eqb_refl, orb_true_r.
  - cbn [app collectContent]. same_tests; try apply IH; reflexivity.
Qed.

(** X25. The collected content depends on three fields of each event and
    on nothing else: the delta content, the phase and the done flag.  An
    error in an event and its content to edit in are not looked at. *)
Theorem collectContent_reads_three_fields
        (decode1 decode2 : bytes -> option UpstreamData)
        (lines : list bytes) (acc : bytes) :
  (forall j, option_map aggregatorView (decode1 j)
             = option_map aggregatorView (decode2 j)) ->
  collectContent cfg decode1 lines acc = collectContent cfg decode2 lines acc.
Proof.
  intros Hv. revert acc.
  induction lines as [|l lines IH]; intros acc; [reflexivity|].
  cbn [collectContent].
  destruct (negb (HasPrefix l (bs "data: "))); [apply IH|].
  destruct (_ || _); [apply IH|].
  pose proof (Hv (TrimPrefix l (bs "data: "))) as H.
  destruct (decode1 _) as [u1|], (decode2 _) as [u2|];
    try discriminate H; [|apply IH].
  injection H as H1 H2 H3. rewrite H1, H2, H3.
  same_tests; try apply IH; reflexivity.
Qed.

End AggregatorCover.

Lemma collectContent_passes_over_witness :
  collectContent sampleConfig sampleUnmarshal
    ([bs "data: " ++ eventJSON (bs "answer") (bs "a")]
     ++ bs "data: [DONE]"
     :: [bs "data: " ++ eventJSON (bs "answer") (bs "b")]) []
  = collectContent sampleConfig sampleUnmarshal
      ([bs "data: " ++ eventJSON (bs "answer") (bs "a")]
       ++ [bs "data: " ++ eventJSON (bs "answer") (bs "b")]) [].
Proof.
  apply (collectContent_passes_over sampleConfig sampleUnmarshal).
  right; right; left; reflexivity.
Defined.

Lemma collectContent_stops_at_done_witness :
  collectContent sampleConfig sampleUnmarshal
    ([bs "data: " ++ eventJSON (bs "answer") (bs "a")]
     ++ (bs "data: " ++ doneJSON)
     :: [bs "data: " ++ eventJSON (bs "answer") (bs "b")]) []
  = collectContent sampleConfig sampleUnmarshal
      ([bs "data: " ++ eventJSON (bs "answer") (bs "a")]
       ++ [bs "data: " ++ doneJSON]) [].
Proof.
  apply (collectContent_stops_at_done sampleConfig sampleUnmarshal _ _
           doneJSON [] (sampleEvent [] [] true));
    [discriminate|vm_compute; congruence|reflexivity|left; reflexivity].
Defined.

Lemma collectContent_reads_three_fields_witness :
  collectContent sampleConfig sampleUnmarshal
    [bs "data: " ++ eventJSON (bs "answer") (bs "a")] []
  = collectContent sampleConfig failingUnmarshal
      [bs "data: " ++ eventJSON (bs "answer") (bs "a")] [].
Proof.
  apply (collectContent_reads_three_fields sampleConfig sampleUnmarshal
           failingUnmarshal).
  intros j. unfold failingUnmarshal.
  destruct (sampleUnmarshal j); reflexivity.
Defined.

(** ** The admission middleware *)

Lemma countPlaces_setPlace (f : Place -> bool) (q : Place) (i : nat) :
  forall l p,
    nth_error l i = Some p ->
    (countPlaces f (setPlace i q l) + (if f p then 1 else 0)
     = countPlaces f l + (if f q then 1 else 0))%nat.
Proof.
  unfold countPlaces.
  induction i as [|i IH]; intros [|x l] p H; try discriminate H.
  - injection H as ->. cbn [setPlace filter].
    destruct (f p), (f q); cbn [List.length]; lia.
  - cbn [setPlace filter]. cbn [nth_error] in H.
    specialize (IH l p H).
    destruct (f x); cbn [List.length]; lia.
Qed.

Lemma length_setPlace (q : Place) (i : nat) :
  forall l, List.length (setPlace i q l) = List.length l.
Proof.
  induction i as [|i IH]; intros [|x l]; cbn; auto.
Qed.

Lemma countPlaces_le (f : Place -> bool) (l : list Place) :
  (countPlaces f l <= List.length l)%nat.
Proof.
  unfold countPlaces. induction l as [|x l IH]; cbn; [lia|].
  destruct (f x); cbn; lia.
Qed.

Lemma countPlaces_member (f : Place -> bool) (i : nat) :
  forall l p, nth_error l i = Some p -> f p = true ->
              (1 <= countPlaces f l)%nat.
Proof.
  unfold countPlaces.
  induction i as [|i IH]; intros [|x l] p H Hf; try discriminate H.
  - injection H as ->. cbn. rewrite Hf. cbn. lia.
  - cbn [nth_error] in H. specialize (IH l p H Hf).
    cbn. destruct (f x); cbn; lia.
Qed.

Lemma arrived_not_holding (l : list Place) :
  (countPlaces holdsSlot l + countPlaces isArrived l <= List.length l)%nat.
Proof.
  unfold countPlaces. induction l as [|x l IH]; cbn; [lia|].
  destruct x; cbn; lia.
Qed.

Lemma countPlaces_over (l : list Place) :
  forallb isOver l = true ->
  countPlaces holdsSlot l = 0%nat /\ countPlaces isCounted l = 0%nat.
Proof.
  unfold countPlaces. induction l as [|x l IH]; cbn; [auto|].
  intros H. apply andb_prop in H. destruct H as [Hx Hl].
  destruct x; try discriminate Hx; cbn; auto.
Qed.

(** The accounts of the channel and of the counter. *)
Lemma gateStep_accounts (capacity : Z) (i : nat) (g g' : Gate) :
  gateStep capacity i g = Some g' ->
  Z.of_nat (List.length (requests g)) < 2 ^ 62 ->
  semaphore g = countPlaces holdsSlot (requests g) ->
  currentConnections g = Z.of_nat (countPlaces isCounted (requests g)) ->
  List.length (requests g') = List.length (requests g) /\
  semaphore g' = countPlaces holdsSlot (requests g') /\
  currentConnections g' = Z.of_nat (countPlaces isCounted (requests g')).
Proof.
  unfold gateStep. intros H Hn Hs Hc.
  destruct (nth_error (requests g) i) as [p|] eqn:E; [|discriminate H].
  pose proof (countPlaces_le isCounted (requests g)) as Hle.
  assert (Hset : forall q,
             (countPlaces holdsSlot (setPlace i q (requests g))
              + (if holdsSlot p then 1 else 0)
              = countPlaces holdsSlot (requests g)
                + (if holdsSlot q then 1 else 0))%nat /\
             (countPlaces isCounted (setPlace i q (requests g))
              + (if isCounted p then 1 else 0)
              = countPlaces isCounted (requests g)
                + (if isCounted q then 1 else 0))%nat).
  { intros q. split; now apply countPlaces_setPlace. }
  destruct p; try discriminate H;
    try (destruct (Z.of_nat (semaphore g) <? capacity));
    injection H as <-;
    cbn [semaphore currentConnections requests];
    rewrite length_setPlace;
    match goal with
    | |- context [setPlace i ?q _] => destruct (Hset q) as [H1 H2]
    end;
    cbn [holdsSlot isCounted] in H1, H2;
    unfold atomicAdd; rewrite ?wrap64_small by lia;
    (split; [reflexivity|split; lia]).
Qed.

Lemma runGate_accounts (capacity : Z) (schedule : list nat) :
  forall g,
    Z.of_nat (List.length (requests g)) < 2 ^ 62 ->
    semaphore g = countPlaces holdsSlot (requests g) ->
    currentConnections g = Z.of_nat (countPlaces isCounted (requests g)) ->
    let g' := runGate capacity schedule g in
    List.length (requests g') = List.length (requests g) /\
    semaphore g' = countPlaces holdsSlot (requests g') /\
    currentConnections g' = Z.of_nat (countPlaces isCounted (requests g')).
Proof.
  induction schedule as [|i rest IH]; intros g Hn Hs Hc; cbn [runGate].
  - auto.
  - destruct (gateStep capacity i g) as [g1|] eqn:E; [|now apply IH].
    destruct (gateStep_accounts capacity i g g1 E Hn Hs Hc)
      as (Hl & Hs1 & Hc1).
    destruct (IH g1) as (Hl2 & Hs2 & Hc2); [lia|assumption|assumption|].
    cbv zeta. rewrite Hl2, Hl. auto.
Qed.

Lemma countPlaces_arrived (f : Place -> bool) (n : nat) :
  f Arrived = false -> countPlaces f (repeat Arrived n) = 0%nat.
Proof.
  intros H. unfold countPlaces.
  induction n as [|n IH]; cbn; [reflexivity|]. now rewrite H.
Qed.

Lemma initialGate_accounts (n : nat) :
  List.length (requests (initialGate n)) = n /\
  semaphore (initialGate n)
    = countPlaces holdsSlot (requests (initialGate n)) /\
  currentConnections (initialGate n)
    = Z.of_nat (countPlaces isCounted (requests (initialGate n))) /\
  countPlaces isRejected (requests (initialGate n)) = 0%nat.
Proof.
  unfold initialGate. cbn [requests semaphore currentConnections].
  rewrite repeat_length, !countPlaces_arrived by reflexivity.
  repeat split.
Qed.

(** X26. In every interleaving of fewer than 2^62 requests the channel
    holds one slot for each request between its send and its receive, at
    most the capacity, and the counter counts the requests between its
    increment and its decrement: it is never negative, and it exceeds the
    slots in use by no more than the number of requests that have given
    their slot back and not yet decremented it. *)
Theorem gate_accounts (capacity : Z) (n : nat) (schedule : list nat) :
  0 <= capacity ->
  Z.of_nat n < 2 ^ 62 ->
  let g := runGate capacity schedule (initialGate n) in
  semaphore g = countPlaces holdsSlot (requests g) /\
  Z.of_nat (semaphore g) <= capacity /\
  currentConnections g = Z.of_nat (countPlaces isCounted (requests g)) /\
  0 <= currentConnections g
    <= Z.of_nat (semaphore g)
       + Z.of_nat (countPlaces isReleased (requests g)).
Proof.
  intros Hcap Hn. cbv zeta.
  destruct (initialGate_accounts n) as (Hl & Hs & Hc & _).
  destruct (runGate_accounts capacity schedule (initialGate n))
    as (_ & Hs' & Hc'); [lia|assumption|assumption|].
  cbv zeta in Hs', Hc'.
  split; [exact Hs'|].
  split; [apply semaphore_within_capacity; [exact Hcap|cbn; lia]|].
  split; [exact Hc'|].
  rewrite Hc', Hs'. split; [lia|].
  generalize (requests (runGate capacity schedule (initialGate n))).
  intros l. unfold countPlaces.
  induction l as [|x l IH]; cbn; [lia|].
  destruct x; cbn [List.length holdsSlot isCounted isReleased]; lia.
Qed.

Lemma gate_accounts_witness :
  0 <= currentConnections (runGate 2 (overshoot 2) (initialGate 3))
    <= Z.of_nat (semaphore (runGate 2 (overshoot 2) (initialGate 3)))
       + Z.of_nat (countPlaces isReleased
                     (requests (runGate 2 (overshoot 2) (initialGate 3)))).
Proof.
  apply (gate_accounts 2 3 (overshoot 2)); [lia|reflexivity].
Defined.

(** X27. When every request of an interleaving has finished or has been
    rejected, every slot of the channel is free again and the counter is
    back at zero. *)
Theorem gate_settles (capacity : Z) (n : nat) (schedule : list nat) :
  Z.of_nat n < 2 ^ 62 ->
  let g := runGate capacity schedule (initialGate n) in
  forallb isOver (requests g) = true ->
  semaphore g = 0%nat /\ currentConnections g = 0.
Proof.
  intros Hn. cbv zeta. intros Hover.
  destruct (initialGate_accounts n) as (Hl & Hs & Hc & _).
  destruct (runGate_accounts capacity schedule (initialGate n))
    as (_ & Hs' & Hc'); [lia|assumption|assumption|].
  cbv zeta in Hs', Hc'.
  destruct (countPlaces_over _ Hover) as [H1 H2].
  rewrite Hs', Hc', H1, H2. split; reflexivity.
Qed.

Lemma gate_settles_witness :
  semaphore (runGate 1 [0; 0; 1; 0; 0; 0]%nat (initialGate 2)) = 0%nat /\
  currentConnections (runGate 1 [0; 0; 1; 0; 0; 0]%nat (initialGate 2)) = 0.
Proof.
  apply (gate_settles 1 2 [0; 0; 1; 0; 0; 0]%nat); reflexivity.
Defined.

Lemma gateStep_accepts (capacity : Z) (i : nat) (g g' : Gate) :
  gateStep capacity i g = Some g' ->
  Z.of_nat (List.length (requests g)) <= capacity ->
  semaphore g = countPlaces holdsSlot (requests g) ->
  countPlaces isRejected (requests g) = 0%nat ->
  List.length (requests g') = List.length (requests g) /\
  semaphore g' = countPlaces holdsSlot (requests g') /\
  countPlaces isRejected (requests g') = 0%nat.
Proof.
  unfold gateStep. intros H Hn Hs Hr.
  destruct (nth_error (requests g) i) as [p|] eqn:E; [|discriminate H].
  assert (Hset : forall q,
             (countPlaces holdsSlot (setPlace i q (requests g))
              + (if holdsSlot p then 1 else 0)
              = countPlaces holdsSlot (requests g)
                + (if holdsSlot q then 1 else 0))%nat /\
             (countPlaces isRejected (setPlace i q (requests g))
              + (if isRejected p then 1 else 0)
              = countPlaces isRejected (requests g)
                + (if isRejected q then 1 else 0))%nat).
  { intros q. split; now apply countPlaces_setPlace. }
  assert (Hfree : p = Arrived -> (Z.of_nat (semaphore g) <? capacity) = true).
  { intros ->. apply Z.ltb_lt.
    pose proof (arrived_not_holding (requests g)).
    pose proof (countPlaces_member isArrived i (requests g) Arrived E
                  eq_refl).
    lia. }
  destruct p; try discriminate H;
    try (rewrite (Hfree eq_refl) in H);
    injection H as <-;
    cbn [semaphore currentConnections requests];
    rewrite length_setPlace;
    match goal with
    | |- context [setPlace i ?q _] => destruct (Hset q) as [H1 H2]
    end;
    cbn [holdsSlot isRejected] in H1, H2;
    (split; [reflexivity|split; lia]).
Qed.

(** X28. No request is rejected in any interleaving of no more requests
    than the channel has slots. *)
Theorem gate_accepts_within_capacity (capacity : Z) (n : nat)
        (schedule : list nat) :
  Z.of_nat n <= capacity ->
  countPlaces isRejected
    (requests (runGate capacity schedule (initialGate n))) = 0%nat.
Proof.
  intros Hn.
  destruct (initialGate_accounts n) as (Hl & Hs & _ & Hr).
  rewrite <- Hl in Hn.
  revert Hn Hs Hr. generalize (initialGate n). clear Hl.
  induction schedule as [|i rest IH]; intros g Hn Hs Hr; cbn [runGate].
  - exact Hr.
  - destruct (gateStep capacity i g) as [g1|] eqn:E; [|now apply IH].
    destruct (gateStep_accepts capacity i g g1 E Hn Hs Hr) as (Hl & Hs1 & Hr1).
    apply IH; [rewrite Hl; exact Hn|exact Hs1|exact Hr1].
Qed.

Lemma gate_accepts_within_capacity_witness :
  countPlaces isRejected
    (requests (runGate 2 [0; 1; 0; 1; 1; 0]%nat (initialGate 2))) = 0%nat.
Proof.
  apply (gate_accepts_within_capacity 2 2 [0; 1; 0; 1; 1; 0]%nat).
  simpl. lia.
Defined.

(** ** The end of the streaming loop *)

Section LoopEnd.

Variable cfg : Config.
Variable unmarshalUpstream : bytes -> option UpstreamData.
Variable clock : nat -> Z.
Variable alive : Z -> bool.

Abbreviation loop := (streamLoop cfg unmarshalUpstream clock alive).
Abbreviation respond :=
  (handleStreamResponse cfg unmarshalUpstream clock alive).

Lemma streamLoop_client_gone (m : Z) (rest1 rest2 : list ReadResult)
      (before : list ReadResult) :
  disableConnectionCheck cfg = false ->
  0 < connectionCheckInterval cfg ->
  alive (m * connectionCheckInterval cfg) = false ->
  m * connectionCheckInterval cfg < 2 ^ 63 ->
  forall lineBuffer checkCounter st,
    0 <= checkCounter ->
    checkCounter + 1 + Z.of_nat (List.length before)
    = m * connectionCheckInterval cfg ->
    loop (before ++ rest1) lineBuffer checkCounter st
    = loop (before ++ rest2) lineBuffer checkCounter st.
Proof.
  intros Hd Hi Ha Hm.
  induction before as [|r before IH]; intros lb cc st Hcc Hlen.
  - cbn [List.length] in Hlen. cbn [app].
    assert (E : forall rest, loop rest lb cc st = (Returned, st)).
    { intros rest.
      destruct rest; cbn [streamLoop]; rewrite Hd; cbn [negb andb];
        rewrite wrap64_small by lia;
        replace (cc + 1) with (m * connectionCheckInterval cfg) by lia;
        rewrite Z.rem_mul by lia; rewrite Ha;
        replace (connectionCheckInterval cfg =? 0) with false
          by (symmetry; apply Z.eqb_neq; lia);
        destruct (streamClosed st); reflexivity. }
    now rewrite !E.
  - cbn [app streamLoop]. rewrite Hd. cbn [negb andb].
    rewrite wrap64_small by lia.
    destruct (streamClosed st); [reflexivity|].
    destruct (connectionCheckInterval cfg =? 0); [reflexivity|].
    destruct (_ && _); [reflexivity|].
    destruct (if isEmpty (rd_data r) then (lb, st) else _) as [lb1 st1].
    destruct (rd_err r) as [[|]|]; try reflexivity.
    apply IH; [lia|]. cbn [List.length] in Hlen. lia.
Qed.

(** X29. With the connection check on, a client that is found gone at
    the check of some count ends the loop there: the reads from that turn
    on are not made, so the response does not depend on them. *)
Theorem handleStreamResponse_client_gone (m : Z)
        (before rest1 rest2 : list ReadResult) :
  disableConnectionCheck cfg = false ->
  0 < connectionCheckInterval cfg ->
  alive (m * connectionCheckInterval cfg) = false ->
  m * connectionCheckInterval cfg < 2 ^ 63 ->
  1 + Z.of_nat (List.length before) = m * connectionCheckInterval cfg ->
  respond true (before ++ rest1) = respond true (before ++ rest2).
Proof.
  intros Hd Hi Ha Hm Hlen. unfold handleStreamResponse. cbn [negb].
  rewrite (streamLoop_client_gone m rest1 rest2 before Hd Hi Ha Hm
             [] 0 _ (Z.le_refl 0) Hlen).
  reflexivity.
Qed.

Lemma streamLoop_read_error (r : ReadResult) (rest1 rest2 : list ReadResult)
      (before : list ReadResult) :
  rd_err r <> None ->
  forall lineBuffer checkCounter st,
    loop (before ++ r :: rest1) lineBuffer checkCounter st
    = loop (before ++ r :: rest2) lineBuffer checkCounter st.
Proof.
  intros Hr.
  induction before as [|r0 before IH]; intros lb cc st.
  - cbn [app streamLoop].
    destruct (streamClosed st); [reflexivity|].
    destruct (_ && _); [reflexivity|].
    destruct (_ && _); [reflexivity|].
    destruct (if isEmpty (rd_data r) then (lb, st) else _) as [lb1 st1].
    destruct (rd_err r) as [[|]|]; [reflexivity|reflexivity|now elim Hr].
  - cbn [app streamLoop].
    destruct (streamClosed st); [reflexivity|].
    destruct (_ && _); [reflexivity|].
    destruct (_ && _); [reflexivity|].
    destruct (if isEmpty (rd_data r0) then (lb, st) else _) as [lb1 st1].
    destruct (rd_err r0) as [[|]|]; try reflexivity.
    apply IH.
Qed.

(** X30. A read that ends with an error, the end of the body or any
    other, is the last one: the response does not depend on what the
    upstream would have delivered after it. *)
Theorem handleStreamResponse_read_error (r : ReadResult)
        (before rest1 rest2 : list ReadResult) :
  rd_err r <> None ->
  respond true (before ++ r :: rest1) = respond true (before ++ r :: rest2).
Proof.
  intros Hr. unfold handleStreamResponse. cbn [negb].
  rewrite (streamLoop_read_error r rest1 rest2 before Hr). reflexivity.
Qed.

End LoopEnd.

Lemma handleStreamResponse_client_gone_witness :
  handleStreamResponse sampleConfig sampleUnmarshal sampleClock (goneAt 20)
    true
    (repeat (oneRead (sseLine (eventJSON (bs "answer") (bs "a")))) 19
     ++ [oneRead (sseLine (eventJSON (bs "answer") (bs "late")))])
  = handleStreamResponse sampleConfig sampleUnmarshal sampleClock (goneAt 20)
      true
      (repeat (oneRead (sseLine (eventJSON (bs "answer") (bs "a")))) 19
       ++ []).
Proof.
  apply (handleStreamResponse_client_gone sampleConfig sampleUnmarshal
           sampleClock (goneAt 20) 1);
    [reflexivity|reflexivity|reflexivity|reflexivity|reflexivity].
Defined.

Lemma handleStreamResponse_read_error_witness :
  handleStreamResponse sampleConfig sampleUnmarshal sampleClock alwaysAlive
    true
    ([oneRead (sseLine (eventJSON (bs "answer") (bs "a")))]
     ++ {| rd_data := bs "data: "; rd_err := Some ReadFailed |}
     :: [oneRead (sseLine doneJSON)])
  = handleStreamResponse sampleConfig sampleUnmarshal sampleClock alwaysAlive
      true
      ([oneRead (sseLine (eventJSON (bs "answer") (bs "a")))]
       ++ {| rd_data := bs "data: "; rd_err := Some ReadFailed |}
       :: []).
Proof.
  apply (handleStreamResponse_read_error sampleConfig sampleUnmarshal
           sampleClock alwaysAlive).
  discriminate.
Defined.

(** ** C1: the terminal line of a streamed response *)

Lemma completeLines_app (a cut : bytes) :
  completeLines a -> completeLines cut -> completeLines (a ++ cut).
Proof.
  intros Ha [->|[p ->]]; [now rewrite app_nil_r|].
  right. exists (a ++ p). now rewrite app_assoc.
Qed.

Lemma guardLineBuffer_cut (lineBuffer : bytes) :
  exists cut,
    lineBuffer = cut ++ guardLineBuffer lineBuffer /\ completeLines cut.
Proof.
  unfold guardLineBuffer.
  destruct (1048576 <? N.of_nat (List.length lineBuffer))%N;
    [|exists []; split; [reflexivity|now left]].
  destruct (LastIndex _ [LF]) as [idx|] eqn:El;
    [|exists []; split; [reflexivity|now left]].
  destruct (0 <? idx)%nat;
    [|exists []; split; [reflexivity|now left]].
  apply LastIndex_newline in El.
  rewrite nth_error_firstn in El.
  destruct (idx <? List.length lineBuffer / 2)%nat; [|discriminate].
  exists (firstn (idx + 1) lineBuffer).
  split; [now rewrite firstn_skipn|].
  right. exists (firstn idx lineBuffer).
  rewrite Nat.add_1_r. now apply firstn_snoc.
Qed.

Lemma splitLoop_newline_free (x : bytes) :
  forall cur rest,
    ~ In LF x ->
    splitLoop [LF] 0 cur (x ++ rest) = splitLoop [LF] 0 (rev x ++ cur) rest.
Proof.
  induction x as [|c x IH]; intros cur rest Hx; [reflexivity|].
  cbn [app splitLoop].
  change (HasPrefix (c :: x ++ rest) [LF])
    with (Ascii.eqb c LF && HasPrefix (x ++ rest) []).
  destruct (Ascii.eqb c LF) eqn:Ec.
  - apply Ascii.eqb_eq in Ec. subst c. elim Hx. now left.
  - cbn [andb]. rewrite IH by (intros H; apply Hx; now right).
    cbn [rev]. now rewrite <- app_assoc.
Qed.

Lemma splitLoop_newline (cur rest : bytes) :
  splitLoop [LF] 0 cur (LF :: rest) = rev cur :: splitLoop [LF] 0 [] rest.
Proof.
  cbn [splitLoop].
  change (HasPrefix (LF :: rest) [LF])
    with (Ascii.eqb LF LF && HasPrefix rest []).
  replace (HasPrefix rest []) with true by (destruct rest; reflexivity).
  reflexivity.
Qed.

Lemma splitLoop_later (l : bytes) (p : bytes) :
  forall cur rest,
    In l (splitLoop [LF] 0 [] rest) ->
    In l (splitLoop [LF] 0 cur (p ++ LF :: rest)).
Proof.
  induction p as [|c p IH]; intros cur rest H.
  - cbn [app]. rewrite splitLoop_newline. now right.
  - cbn [app]. destruct (Ascii.eqb c LF) eqn:Ec.
    + apply Ascii.eqb_eq in Ec. subst c. rewrite splitLoop_newline.
      right. now apply IH.
    + cbn [splitLoop].
      change (HasPrefix (c :: p ++ LF :: rest) [LF])
        with (Ascii.eqb c LF && HasPrefix (p ++ LF :: rest) []).
      rewrite Ec. cbn [andb]. now apply IH.
Qed.

Lemma isLineOf_linesOf (text line : bytes) :
  isLineOf text line -> In line (linesOf text).
Proof.
  intros (Hl & a & b & -> & Ha & Hb). unfold linesOf, Split.
  assert (H0 : In line (splitLoop [LF] 0 [] (line ++ b))).
  { rewrite splitLoop_newline_free by exact Hl. rewrite app_nil_r.
    destruct Hb as [->|[b' ->]].
    - cbn. left. apply rev_involutive.
    - rewrite splitLoop_newline. left. apply rev_involutive. }
  destruct Ha as [->|[p ->]]; [exact H0|].
  rewrite <- app_assoc. cbn [app]. now apply splitLoop_later.
Qed.

Section TerminalLine.

Variable cfg : Config.
Variable unmarshalUpstream : bytes -> option UpstreamData.
Variable clock : nat -> Z.
Variable alive : Z -> bool.

Abbreviation processLine := (processStreamLine cfg unmarshalUpstream clock).
Abbreviation drain := (drainLines cfg unmarshalUpstream clock).
Abbreviation loop := (streamLoop cfg unmarshalUpstream clock alive).
Abbreviation closes := (closesStream unmarshalUpstream).

Lemma processStreamLine_closesStream (line : bytes) (st : TState) :
  streamClosed st = false ->
  streamClosed (processLine line st) = true ->
  closes line = true.
Proof.
  intros Hc. unfold processStreamLine, closesStream.
  destruct (HasPrefix _ _); [|congruence].
  destruct (bytes_eqb _ _); [reflexivity|].
  destruct (negb _); [|congruence].
  destruct (unmarshalUpstream _) as [u|]; [|congruence].
  destruct (hasUpstreamError u); [reflexivity|].
  unfold finishOnDone. cbn [andb orb].
  destruct (Done (ud_Data u) || bytes_eqb (Phase (ud_Data u)) (bs "done"));
    [reflexivity|].
  rewrite emitDelta_open, spliceInitialAnswer_open. congruence.
Qed.

Lemma drainLines_closing (buf : bytes) :
  forall cur st before future text,
    text = before ++ rev cur ++ buf ++ future ->
    completeLines before ->
    ~ In LF cur ->
    streamClosed st = false ->
    (streamClosed (snd (drain buf cur st)) = true ->
     exists line, isLineOf text line /\ closes line = true) /\
    (streamClosed (snd (drain buf cur st)) = false ->
     ~ In LF (fst (drain buf cur st)) /\
     exists before',
       text = before' ++ fst (drain buf cur st) ++ future /\
       completeLines before').
Proof.
  induction buf as [|c buf IH]; intros cur st before future text Ht Hb Hcur Hc.
  - cbn [drainLines fst snd]. split; [congruence|]. intros _.
    split; [now rewrite <- in_rev|]. exists before. now split.
  - cbn [drainLines]. destruct (Ascii.eqb c LF) eqn:Ec.
    + apply Ascii.eqb_eq in Ec. subst c. rewrite Hc.
      assert (Hline : isLineOf text (rev cur)).
      { split; [now rewrite <- in_rev|].
        exists before, (LF :: buf ++ future).
        split; [exact Ht|split; [exact Hb|right; eexists; reflexivity]]. }
      destruct (streamClosed (processLine (rev cur) st)) eqn:E.
      * cbn [fst snd]. split; [|congruence]. intros _.
        exists (rev cur). split; [exact Hline|].
        now apply (processStreamLine_closesStream (rev cur) st).
      * apply (IH [] _ (before ++ rev cur ++ [LF]) future text).
        -- rewrite Ht. cbn [rev app]. now rewrite <- !app_assoc.
        -- right. exists (before ++ rev cur). now rewrite app_assoc.
        -- intros [].
        -- exact E.
    + apply (IH (c :: cur) st before future text).
      * rewrite Ht. cbn [rev]. now rewrite <- !app_assoc.
      * exact Hb.
      * intros [H|H]; [|now apply Hcur].
        subst c. now rewrite Ascii.eqb_refl in Ec.
      * exact Hc.
Qed.

Lemma lastLine_closing (lineBuffer : bytes) (st : TState) (before : bytes) :
  completeLines before ->
  ~ In LF lineBuffer ->
  streamClosed st = false ->
  streamClosed
    (if negb (isEmpty lineBuffer) && negb (streamClosed st)
     then processLine lineBuffer st else st) = true ->
  exists line, isLineOf (before ++ lineBuffer) line /\ closes line = true.
Proof.
  intros Hb Hl Hc. rewrite Hc.
  destruct (negb (isEmpty lineBuffer) && negb false); [|congruence].
  intros H. exists lineBuffer. split.
  - split; [exact Hl|]. exists before, [].
    rewrite app_nil_r. split; [reflexivity|split; [exact Hb|now left]].
  - now apply (processStreamLine_closesStream lineBuffer st).
Qed.

Lemma streamLoop_closing (reads : list ReadResult) :
  forall lineBuffer checkCounter st before,
    completeLines before ->
    ~ In LF lineBuffer ->
    streamClosed st = false ->
    streamClosed (snd (loop reads lineBuffer checkCounter st)) = true ->
    exists line,
      isLineOf (before ++ lineBuffer ++ delivered reads) line /\
      closes line = true.
Proof.
  induction reads as [|r rest IH]; intros lb cc st before Hb Hl Hc;
    cbn [streamLoop delivered]; rewrite Hc.
  - destruct (_ && _); [cbn; congruence|].
    destruct (_ && _); [cbn; congruence|]. cbn [snd].
    rewrite app_nil_r. rewrite <- Hc at 1. now apply lastLine_closing.
  - destruct (_ && _); [cbn; congruence|].
    destruct (_ && _); [cbn; congruence|].
    set (tail := match rd_err r with
                 | Some _ => []
                 | None => delivered rest
                 end).
    assert (HD : forall p : bytes * TState,
               p = (if isEmpty (rd_data r) then @pair bytes TState lb st
                    else drain (guardLineBuffer (lb ++ rd_data r)) [] st) ->
               (streamClosed (snd p) = true ->
                exists line,
                  isLineOf (before ++ lb ++ rd_data r ++ tail) line /\
                  closes line = true) /\
               (streamClosed (snd p) = false ->
                ~ In LF (fst p) /\
                exists before',
                  before ++ lb ++ rd_data r ++ tail
                  = before' ++ fst p ++ tail /\
                  completeLines before')).
    { intros p ->. destruct (isEmpty (rd_data r)) eqn:Ee.
      - apply isEmpty_true in Ee. rewrite Ee. cbn [fst snd app].
        split; [congruence|]. intros _. split; [exact Hl|].
        exists before. now split.
      - destruct (guardLineBuffer_cut (lb ++ rd_data r)) as (cut & Ecut & Hcut).
        apply (drainLines_closing _ [] st (before ++ cut) tail).
        + cbn [rev app]. rewrite <- app_assoc, (app_assoc cut), <- Ecut.
          now rewrite <- app_assoc.
        + now apply completeLines_app.
        + intros [].
        + exact Hc. }
    specialize (HD _ eq_refl). revert HD.
    destruct (if isEmpty (rd_data r) then @pair bytes TState lb st
              else drain (guardLineBuffer (lb ++ rd_data r)) [] st)
      as [lb1 st1].
    cbn [fst snd]. intros [HD1 HD2].
    destruct (streamClosed st1) eqn:E1.
    + intros _. apply HD1. reflexivity.
    + destruct (HD2 eq_refl) as (Hl1 & before' & Et & Hb').
      subst tail. destruct (rd_err r) as [[|]|]; cbn [snd].
      * rewrite Et, app_nil_r. rewrite <- E1 at 1.
        now apply lastLine_closing.
      * congruence.
      * rewrite Et. now apply IH.
Qed.

End TerminalLine.



